(** * gns3/http_client.py: the HTTP client of the GNS3 GUI

    A shallow embedding of [HTTPClient] (handshake, request construction,
    streaming decoder of the notification feed, response classifier) and
    the properties of its specification.

    Python [str] values are Rocq strings, one character per code point
    (U+0000..U+00FF); [bytes] are lists of bytes.  Objects of Qt are
    records holding what the client reads from them.  What the client does
    to the outside (callbacks, requests handed to the network manager,
    progress notifications, signal connections) is recorded, in order, in
    a trace of events.  Logging is not modelled. *)

From Stdlib Require Import ZArith Ascii String List Lia Bool.
From stdpp Require Import base option list gmap strings pretty.

Open Scope Z_scope.
Set Warnings "-register-all".

(** * Python values *)

Definition bytes := list Byte.byte.

(** Values exchanged as JSON: what [json.loads] returns and [json.dumps]
    accepts.  A [dict] keeps its insertion order; a float keeps its
    literal. *)
Inductive json : Type :=
| JNull
| JBool (b : bool)
| JInt (n : Z)
| JReal (lit : string)
| JStr (s : string)
| JArr (items : list json)
| JObj (fields : list (string * json)).

Definition dict := list (string * json).

Fixpoint dict_get (k : string) (d : dict) : option json :=
  match d with
  | [] => None
  | (k', v) :: d' => if String.eqb k k' then Some v else dict_get k d'
  end.

Definition dict_has (k : string) (d : dict) : bool :=
  match dict_get k d with Some _ => true | None => false end.

(** [d[k] = v]: replaces the value of an existing key in place, appends a
    new key. *)
Fixpoint dict_set (k : string) (v : json) (d : dict) : dict :=
  match d with
  | [] => [(k, v)]
  | (k', v') :: d' =>
      if String.eqb k k' then (k, v) :: d' else (k', v') :: dict_set k v d'
  end.

(** The double quote, which a string literal of this file cannot hold. *)
Definition dquote : ascii := "034"%char.
Definition quoted (s : string) : string :=
  String dquote (s +:+ String dquote "").

(** ** String methods *)

Fixpoint mem_ascii (c : ascii) (cs : string) : bool :=
  match cs with
  | "" => false
  | String c' cs' => Ascii.eqb c c' || mem_ascii c cs'
  end.

(** [s.lstrip(chars)] *)
Fixpoint lstrip (chars s : string) : string :=
  match s with
  | "" => ""
  | String c s' => if mem_ascii c chars then lstrip chars s' else s
  end.

(** [s.rstrip(chars)] *)
Fixpoint rstrip (chars s : string) : string :=
  match s with
  | "" => ""
  | String c s' =>
      match rstrip chars s' with
      | "" => if mem_ascii c chars then "" else String c ""
      | r => String c r
      end
  end.

(** [s.strip(chars)] *)
Definition strip (chars s : string) : string := rstrip chars (lstrip chars s).

(** [s[n:]] for [0 <= n] *)
Fixpoint drop_str (n : nat) (s : string) : string :=
  match n, s with
  | O, _ => s
  | S n', String _ s' => drop_str n' s'
  | S _, "" => ""
  end.

(** The part of [s] before the last [c], when [c] occurs in [s]. *)
Fixpoint before_last (c : ascii) (s : string) : option string :=
  match s with
  | "" => None
  | String a s' =>
      match before_last c s' with
      | Some p => Some (String a p)
      | None => if Ascii.eqb a c then Some "" else None
      end
  end.

(** [s.rsplit(c, 1)[0]] *)
Definition rsplit1_head (c : ascii) (s : string) : string :=
  default s (before_last c s).

(** [sub in s] on strings *)
Fixpoint contains (sub s : string) : bool :=
  String.prefix sub s ||
  match s with
  | "" => false
  | String _ s' => contains sub s'
  end.

Definition NUL : string := String "000"%char "".
Definition TAB : ascii := "009"%char.
Definition LF : ascii := "010"%char.
Definition CR : ascii := "013"%char.

(** * Exceptions *)

Inductive exn : Type :=
| JSONDecodeError                 (* a ValueError *)
| UnicodeDecodeError              (* a UnicodeError, hence a ValueError *)
| TypeError
| KeyError (k : string)
| IndexError
| HttpBadRequest (body : option string) (fingerprint : option json)
| NonTermination.                 (* the model's loop ran out of fuel *)

Definition is_Exception (e : exn) : bool :=
  match e with NonTermination => false | _ => true end.
Definition is_ValueError (e : exn) : bool :=
  match e with JSONDecodeError | UnicodeDecodeError => true | _ => false end.
Definition is_UnicodeError (e : exn) : bool :=
  match e with UnicodeDecodeError => true | _ => false end.
Definition is_KeyError (e : exn) : bool :=
  match e with KeyError _ => true | _ => false end.

Inductive res (A : Type) : Type :=
| Ok (a : A)
| Raise (e : exn).
Arguments Ok {A} a.
Arguments Raise {A} e.

(** * The environment of the module

    What [http_client.py] imports and does not define: the version
    constants of [gns3.version], [parse_version] of [gns3.utils], and the
    functions of the Python library it calls.  A decoding function returns
    [None] where Python raises. *)

Class Env : Type := {
  __version__ : string;
  __version_info__ : list Z;
  (** [parse_version(v)]: a tuple of comparable components. *)
  vpart : Type;
  vpart_eq_dec :: EqDecision vpart;
  parse_version : string -> list vpart;
  (** [json.loads(s)] on a [str]; [None] is [json.JSONDecodeError]. *)
  json_loads : string -> option json;
  (** [json.JSONDecoder().raw_decode(s)]: the value at the front of [s] and
      the index where it ends; [None] is [json.JSONDecodeError]. *)
  raw_decode : string -> option (json * nat);
  (** [json.dumps(d)] *)
  json_dumps : json -> string;
  (** [b.decode("utf-8")]; [None] is [UnicodeDecodeError]. *)
  utf8_decode : bytes -> option string;
  (** [s.encode()] *)
  utf8_encode : string -> bytes;
  (** [ipaddress.IPv6Address(ip)] does not raise [AddressValueError]. *)
  is_ipv6 : string -> bool;
  (** [base64.b64encode(b).decode()] *)
  b64encode : bytes -> string;
  (** ["{}".format(v)] *)
  py_str : json -> string;
  (** [str(uuid.uuid4())], by the number of earlier calls. *)
  uuid4 : nat -> string
}.

(** * Qt objects *)

(** [QtNetwork.QNetworkReply.NoError] *)
Definition NoError : Z := 0.

(** A [QNetworkReply] as the client reads it. *)
Record QNetworkReply : Type := {
  error : Z;                         (* response.error() *)
  errorString : string;              (* response.errorString() *)
  HttpStatusCodeAttribute : Z;       (* response.attribute(...) *)
  readAll : bytes;                   (* bytes(response.readAll()) *)
  ContentTypeHeader : option string  (* response.header(...) *)
}.

(** A [QNetworkRequest]: its URL and raw headers, in the order set.  A
    header name is a bytes literal of the source, written as a string. *)
Record QNetworkRequest : Type := {
  req_url : string;
  rawHeaders : list (string * bytes)
}.

(** [request.setRawHeader(name, value)] replaces a header already set. *)
Fixpoint set_header (name : string) (value : bytes) (hs : list (string * bytes))
  : list (string * bytes) :=
  match hs with
  | [] => [(name, value)]
  | (n, v) :: hs' =>
      if String.eqb n name then (name, value) :: hs'
      else (n, v) :: set_header name value hs'
  end.

Definition setRawHeader (name : string) (value : bytes) (r : QNetworkRequest)
  : QNetworkRequest :=
  {| req_url := req_url r; rawHeaders := set_header name value (rawHeaders r) |}.

Fixpoint rawHeader (name : string) (hs : list (string * bytes))
  : option bytes :=
  match hs with
  | [] => None
  | (n, v) :: hs' => if String.eqb n name then Some v else rawHeader name hs'
  end.

(** The device handed to the network manager as request body. *)
Inductive QIODevice : Type :=
| QBuffer (data : bytes)
| QFile (path : string).

(** * Requests, callbacks and events *)

(** The [server] argument: an opaque handle, or [None]. *)
Definition server := option string.

Abbreviation context := (gmap string string).

(** The [body] argument of a query.  A [dict] is given by the JSON object
    that [json.dumps] writes for it ([dict_body] below takes the
    dictionary itself). *)
Inductive pybody : Type :=
| BodyNone
| BodyDict (d : dict)
| BodyPath (p : string)
| BodyStr (s : string)
| BodyOther.

(** ** Python objects as [json.dumps] takes them

    [json.dumps] takes more than [json.loads] returns: with its default
    arguments it writes a tuple as an array, like a list, and a key of a
    dictionary that is an [int] as its decimal text, like a string.  A
    dictionary keeps its insertion order; its keys differ.  Objects that
    [json.dumps] refuses, and keys other than [str] and [int], are left
    out. *)
Inductive pykey : Type :=
| KStr (s : string)
| KInt (n : Z).

#[global] Instance pykey_eq_dec : EqDecision pykey.
Proof. solve_decision. Defined.

Inductive pyobj : Type :=
| PNone
| PBool (b : bool)
| PInt (n : Z)
| PFloat (lit : string)
| PStr (s : string)
| PList (items : list pyobj)
| PTuple (items : list pyobj)
| PDict (fields : list (pykey * pyobj)).

(** The key that [json.dumps] writes. *)
Definition key_text (k : pykey) : string :=
  match k with
  | KStr s => s
  | KInt n => pretty n
  end.

(** The JSON value that [json.dumps] writes for an object. *)
Fixpoint as_json (o : pyobj) : json :=
  match o with
  | PNone => JNull
  | PBool b => JBool b
  | PInt n => JInt n
  | PFloat lit => JReal lit
  | PStr s => JStr s
  | PList items | PTuple items => JArr (map as_json items)
  | PDict fields =>
      JObj (map (fun kv => (key_text (fst kv), as_json (snd kv))) fields)
  end.

(** The object that [json.loads] returns for a JSON value: an array is a
    list, the keys of an object are strings. *)
Fixpoint py_of_json (v : json) : pyobj :=
  match v with
  | JNull => PNone
  | JBool b => PBool b
  | JInt n => PInt n
  | JReal lit => PFloat lit
  | JStr s => PStr s
  | JArr items => PList (map py_of_json items)
  | JObj fields =>
      PDict (map (fun kv => (KStr (fst kv), py_of_json (snd kv))) fields)
  end.

(** A body that is the [dict] with these fields, by what [json.dumps]
    writes for it. *)
Definition dict_body (fields : list (pykey * pyobj)) : pybody :=
  BodyDict (map (fun kv => (key_text (fst kv), as_json (snd kv))) fields).

(** An object made of [None], booleans, integers, strings, lists and
    dictionaries whose keys are strings: no tuple, no key that is an
    [int], no float. *)
Fixpoint is_json_value (o : pyobj) : bool :=
  match o with
  | PFloat _ | PTuple _ => false
  | PList items => forallb is_json_value items
  | PDict fields =>
      forallb (fun kv => match fst kv with
                         | KStr _ => is_json_value (snd kv)
                         | KInt _ => false
                         end) fields
      && bool_decide (NoDup (map fst fields))
  | _ => true
  end.

(** The keyword arguments of [createHTTPQuery] that travel with a query. *)
Record options : Type := {
  downloadProgressCallback : option string;
  showProgress : bool;
  ignoreErrors : bool;
  progressText : option string;
  timeout : option Z
}.

Definition default_options : options :=
  {| downloadProgressCallback := None; showProgress := true;
     ignoreErrors := false; progressText := None; timeout := Some 120 |}.

(** The arguments bound by
    [qpartial(self._callbackConnect, method, path, qpartial(callback),
    body, context, ...)]. *)
Record query : Type := {
  q_method : string;
  q_path : string;
  q_callback : option string;
  q_body : pybody;
  q_context : context;
  q_options : options;
  q_server : server
}.

(** A response callback: a callback of the caller, named, or the
    continuation of the handshake. *)
Inductive callback : Type :=
| UserCallback (name : string)
| ConnectCallback (q : query).

(** The arguments bound by [qpartial(self._processResponse, ...)]. *)
Record pending : Type := {
  p_server : server;
  p_callback : option callback;
  p_context : context;
  p_body : option QIODevice;
  p_ignore_errors : bool
}.

Inductive event : Type :=
(** [callback(params, error=.., server=.., context=.., raw_body=..)];
    [error] is [false] and [context], [raw_body] are [None] where the call
    does not pass them. *)
| Callback (name : string) (params : json) (err : bool) (srv : server)
    (ctx : option context) (raw_body : option (option string))
(** [callback(answer, server=.., context=..)] of the download progress. *)
| DownloadCallback (name : string) (content : json + bytes) (srv : server)
    (ctx : context)
(** [self._network_manager.sendCustomRequest(request, method, body)] *)
| SendCustomRequest (method : string) (request : QNetworkRequest)
    (body : option QIODevice)
(** [response.finished.connect(...)] *)
| FinishedConnect (p : pending)
(** [response.downloadProgress.connect(qpartial(self._processDownloadProgress, ...))] *)
| DownloadProgressConnect (cb : string) (ctx : context) (srv : server)
(** the forwarding of upload and download progress to the progress sink *)
| ProgressForward (query_id : string)
| AddQuery (query_id text : string)      (* add_query_signal.emit *)
| RemoveQuery (query_id : string)        (* remove_query_signal.emit *)
| CanceledConnect (ctx : context)        (* progress_dialog().canceled.connect *)
| SingleShot (ms : Z)                    (* QtCore.QTimer.singleShot *)
| ConnectionConnected                    (* connection_connected_signal.emit *)
| CloseRequestBody.                      (* request_body.close() *)

(** * The client *)

Record HTTPClient : Type := {
  _protocol : string;
  _host : string;
  _port : Z;
  _user : option string;
  _password : option string;
  _connected : bool;
  _accept_insecure_certificate : option string;
  _buffer : gmap string string;
  (** The class attribute [HTTPClient._progress_callback]: [Some d] when a
      progress callback is set, [d] telling whether its
      [progress_dialog()] is there. *)
  _progress_callback : option bool;
  (** Number of calls of [uuid.uuid4] so far. *)
  uuid_calls : nat
}.

Definition set_connected (b : bool) (c : HTTPClient) : HTTPClient :=
  {| _protocol := _protocol c; _host := _host c; _port := _port c;
     _user := _user c; _password := _password c; _connected := b;
     _accept_insecure_certificate := _accept_insecure_certificate c;
     _buffer := _buffer c; _progress_callback := _progress_callback c;
     uuid_calls := uuid_calls c |}.

Definition set_buffer (b : gmap string string) (c : HTTPClient) : HTTPClient :=
  {| _protocol := _protocol c; _host := _host c; _port := _port c;
     _user := _user c; _password := _password c; _connected := _connected c;
     _accept_insecure_certificate := _accept_insecure_certificate c;
     _buffer := b; _progress_callback := _progress_callback c;
     uuid_calls := uuid_calls c |}.

Definition set_uuid_calls (n : nat) (c : HTTPClient) : HTTPClient :=
  {| _protocol := _protocol c; _host := _host c; _port := _port c;
     _user := _user c; _password := _password c; _connected := _connected c;
     _accept_insecure_certificate := _accept_insecure_certificate c;
     _buffer := _buffer c; _progress_callback := _progress_callback c;
     uuid_calls := n |}.

(** * The monad of the methods

    A method runs on the client, returns or raises, leaves the client
    changed and a trace of events. *)

Definition M (A : Type) : Type := HTTPClient -> res A * HTTPClient * list event.

Definition ret {A} (a : A) : M A := fun c => (Ok a, c, []).

Definition bind {A B} (m : M A) (f : A -> M B) : M B :=
  fun c =>
    match m c with
    | (Ok a, c1, t1) =>
        match f a c1 with
        | (r, c2, t2) => (r, c2, t1 ++ t2)
        end
    | (Raise e, c1, t1) => (Raise e, c1, t1)
    end.

Definition raise {A} (e : exn) : M A := fun c => (Raise e, c, []).

(** [try: m  except <handles>: h] *)
Definition try_except {A} (m : M A) (handles : exn -> bool) (h : M A) : M A :=
  fun c =>
    match m c with
    | (Ok a, c1, t1) => (Ok a, c1, t1)
    | (Raise e, c1, t1) =>
        if handles e then
          match h c1 with
          | (r, c2, t2) => (r, c2, t1 ++ t2)
          end
        else (Raise e, c1, t1)
    end.

Definition emit (e : event) : M unit := fun c => (Ok tt, c, [e]).
Definition get_self : M HTTPClient := fun c => (Ok c, c, []).
Definition modify (f : HTTPClient -> HTTPClient) : M unit :=
  fun c => (Ok tt, f c, []).
Definition when (b : bool) (m : M unit) : M unit := if b then m else ret tt.

#[global] Instance M_ret : MRet M := @ret.
#[global] Instance M_bind : MBind M := fun A B f m => bind m f.

(** * The methods of [HTTPClient] *)

Section Methods.
Context {E : Env}.

(** A bytes literal [b"..."] of the source. *)
Definition b (s : string) : bytes := String.list_byte_of_string s.

(** Truth value of an optional [str]: [None] and [""] are false. *)
Definition truthy (s : option string) : bool :=
  match s with
  | Some (String _ _) => true
  | _ => false
  end.

(** ["{}".format(s)] for [s] a [str] or [None]. *)
Definition format_opt (s : option string) : string := default "None" s.

(** [k in params] *)
Definition py_contains (k : string) (params : json) : M bool :=
  match params with
  | JObj d => ret (dict_has k d)
  | JArr l =>
      ret (existsb (fun v => match v with JStr s => String.eqb s k | _ => false end) l)
  | JStr s => ret (contains k s)
  | _ => raise TypeError
  end.

(** [params[k]] *)
Definition py_getitem (params : json) (k : string) : M json :=
  match params with
  | JObj d =>
      match dict_get k d with
      | Some v => ret v
      | None => raise (KeyError k)
      end
  | _ => raise TypeError
  end.

(** [json.loads(body)], where [body] may be [None]. *)
Definition py_json_loads (body : option string) : M json :=
  match body with
  | None => raise TypeError
  | Some s =>
      match json_loads s with
      | Some v => ret v
      | None => raise JSONDecodeError
      end
  end.

Definition is_json (content_type : option string) : bool :=
  bool_decide (content_type = Some "application/json").

(** [self.url()] *)
Definition url (c : HTTPClient) : string :=
  _protocol c +:+ "://" +:+ _host c +:+ ":" +:+ pretty (_port c).

Definition _notify_progress_start_query (query_id : string)
    (progress_text : option string) : M unit :=
  c ← get_self;
  when (bool_decide (is_Some (_progress_callback c)))
    (if truthy progress_text
     then emit (AddQuery query_id (format_opt progress_text))
     else emit (AddQuery query_id ("Waiting for " +:+ url c))).

Definition _notify_progress_end_query (query_id : string) : M unit :=
  c ← get_self;
  when (bool_decide (is_Some (_progress_callback c)))
    (emit (RemoveQuery query_id)).

(** [self.close()] *)
Definition close : M unit := modify (set_connected false).

(** [self._request(url)] *)
Definition _request (u : string) : QNetworkRequest :=
  {| req_url := u; rawHeaders := [] |}.

Definition message (msg : string) : json := JObj [("message", JStr msg)].

Definition _connectionError (callback : option string) (msg : string)
    (srv : server) : M unit :=
  c ← get_self;
  let msg :=
    if (0 <? String.length msg)%nat
    then "Cannot connect to server " +:+ url c +:+ ": " +:+ msg
    else "Cannot connect to " +:+ url c +:+
         ". Please check if GNS3 is allowed in your antivirus and firewall." in
  match callback with
  | Some cb => emit (Callback cb (message msg) true srv None None)
  | None => ret tt
  end.

(** Returns the request with the headers set and the body for Qt. *)
Definition _addBodyToRequest (body : pybody) (request : QNetworkRequest)
  : QNetworkRequest * option QIODevice :=
  match body with
  | BodyNone => (request, None)
  | BodyDict d =>
      let body := json_dumps (JObj d) in
      let request := setRawHeader "Content-Type" (b "application/json") request in
      let request :=
        setRawHeader "Content-Length"
          (utf8_encode (pretty (String.length body))) request in
      let data := utf8_encode body in
      (request, Some (QBuffer data))
  | BodyPath p =>
      (setRawHeader "Content-Type" (b "application/octet-stream") request,
       Some (QFile p))
  | BodyStr s =>
      let request :=
        setRawHeader "Content-Type" (b "application/octet-stream") request in
      let data := utf8_encode s in
      (request, Some (QBuffer data))
  | BodyOther => (request, None)
  end.

Definition _addAuth (c : HTTPClient) (request : QNetworkRequest)
  : QNetworkRequest :=
  if truthy (_user c) then
    let auth_string := format_opt (_user c) +:+ ":" +:+ format_opt (_password c) in
    let auth_string := b64encode (utf8_encode auth_string) in
    let auth_string := "Basic " +:+ auth_string in
    setRawHeader "Authorization" (utf8_encode auth_string) request
  else request.

Definition _executeHTTPQuery (method path : string) (callback : option callback)
    (body : pybody) (ctx : context) (opts : options) (srv : server) : M unit :=
  c ← get_self;
  let ip := rsplit1_head "%" (_host c) in
  let host := if is_ipv6 ip then "[" +:+ ip +:+ "]" else _host c in
  let u :=
    if truthy (_user c)
    then _protocol c +:+ "://" +:+ format_opt (_user c) +:+ "@" +:+ host +:+ ":"
         +:+ pretty (_port c) +:+ "/v2" +:+ path
    else _protocol c +:+ "://" +:+ host +:+ ":" +:+ pretty (_port c)
         +:+ "/v2" +:+ path in
  let request := _request u in
  let request := _addAuth c request in
  let request :=
    setRawHeader "User-Agent" (utf8_encode ("GNS3 QT Client v" +:+ __version__))
      request in
  let '(request, body) := _addBodyToRequest body request in
  emit (SendCustomRequest method request body) ;;
  let query_id := uuid4 (uuid_calls c) in
  modify (set_uuid_calls (S (uuid_calls c))) ;;
  let ctx := <["query_id" := query_id]> ctx in
  emit (FinishedConnect
          {| p_server := srv; p_callback := callback; p_context := ctx;
             p_body := body; p_ignore_errors := ignoreErrors opts |}) ;;
  match downloadProgressCallback opts with
  | Some d => emit (DownloadProgressConnect d ctx srv)
  | None => ret tt
  end ;;
  when (showProgress opts)
    (emit (ProgressForward query_id) ;;
     _notify_progress_start_query query_id (progressText opts)) ;;
  match timeout opts with
  | Some t => emit (SingleShot (t * 1000))
  | None => ret tt
  end.

(** [self._connect(query, server)] *)
Definition _connect (q : query) (srv : server) : M unit :=
  _executeHTTPQuery "GET" "/version" (Some (ConnectCallback q)) (BodyDict []) ∅
    {| downloadProgressCallback := None; showProgress := true;
       ignoreErrors := false; progressText := None; timeout := Some 5 |} srv.

(** [createHTTPQuery]: [body] and [ctx] are [None] where the call omits
    them; [qpartial(None)] is [None]. *)
Definition createHTTPQuery (method path : string) (callback : option string)
    (body : option pybody) (ctx : option context) (opts : options)
    (srv : server) : M unit :=
  let body := default (BodyDict []) body in
  let ctx := default ∅ ctx in
  c ← get_self;
  if _connected c then
    _executeHTTPQuery method path (UserCallback <$> callback) body ctx opts srv
  else
    let q := {| q_method := method; q_path := path; q_callback := callback;
                q_body := body; q_context := ctx; q_options := opts;
                q_server := srv |} in
    _connect q srv.

(** [v != s] for a value [v] and a [str] [s] *)
Definition py_ne_str (v : json) (s : string) : bool :=
  match v with
  | JStr s' => negb (String.eqb s' s)
  | _ => true
  end.

(** [_callbackConnect], called with the arguments bound in [q], the
    decoded body [params] of the answer to [/version], the [error] flag
    and the [server] of the call.  [proceed] is [false] where the method
    returns from inside the version test. *)
Definition _callbackConnect (q : query) (params : json) (err : bool)
    (srv : server) : M unit :=
  let callback := q_callback q in
  let report (msg : string) : M unit :=
    match callback with
    | Some cb => emit (Callback cb (message msg) true srv None None)
    | None => ret tt
    end in
  if err then _connectionError callback "" None
  else
    has_version ← py_contains "version" params;
    has_local ← (if has_version then py_contains "local" params else ret false);
    if negb has_version || negb has_local then
      c ← get_self;
      report ("The remote server " +:+ url c +:+ " is not a GNS3 server")
    else
      version ← py_getitem params "version";
      proceed ←
        (if py_ne_str version __version__ then
           let msg := "Client version " +:+ __version__ +:+
                      " differs with server version " +:+ py_str version in
           match __version_info__ !! 3%nat with
           | None => raise IndexError
           | Some stable =>
               if bool_decide (stable = 0) then report msg ;; ret false
               else
                 match version with
                 | JStr sv =>
                     if bool_decide (take 2 (parse_version __version__)
                                     ≠ take 2 (parse_version sv))
                     then report msg ;; ret false
                     else ret true
                 | _ => raise TypeError
                 end
           end
         else ret true);
      when proceed
        (modify (set_connected true) ;;
         emit ConnectionConnected ;;
         _executeHTTPQuery (q_method q) (q_path q) (UserCallback <$> callback)
           (q_body q) (q_context q) (q_options q) srv).

(** A call of a response callback. *)
Definition call (cb : callback) (params : json) (err : bool) (srv : server)
    (ctx : option context) (raw_body : option (option string)) : M unit :=
  match cb with
  | UserCallback name => emit (Callback name params err srv ctx raw_body)
  | ConnectCallback q => _callbackConnect q params err srv
  end.

(** The characters that the loop strips: [" \r\n\t"]. *)
Definition feed_whitespace : string :=
  String " " (String CR (String LF (String TAB ""))).

(** The [while True] loop of [_processDownloadProgress]; it is left, with
    the content it stopped at, when [raw_decode] raises [ValueError]. *)
Fixpoint decode_loop (fuel : nat) (callback : string) (srv : server)
    (ctx : context) (content : string) : M string :=
  let content := lstrip feed_whitespace content in
  match raw_decode content with
  | None => ret content
  | Some (answer, index) =>
      match fuel with
      | O => raise NonTermination
      | S fuel' =>
          emit (DownloadCallback callback (inl answer) srv ctx) ;;
          decode_loop fuel' callback srv ctx (drop_str index content)
      end
  end.

Definition _processDownloadProgress (response : QNetworkReply)
    (callback : string) (ctx : context) (srv : server) : M unit :=
  if bool_decide (error response ≠ NoError) then ret tt
  else
    let status := HttpStatusCodeAttribute response in
    if bool_decide (300 ≤ status) then ret tt
    else
      let content := readAll response in
      let content_type := ContentTypeHeader response in
      (if is_json content_type then
         match utf8_decode content with
         | None => raise UnicodeDecodeError
         | Some content =>
             match ctx !! "query_id" with
             | None => raise (KeyError "query_id")
             | Some query_id =>
                 c ← get_self;
                 let content :=
                   match _buffer c !! query_id with
                   | Some buffered => buffered +:+ content
                   | None => content
                   end in
                 content ← decode_loop (S (String.length content)) callback srv
                             ctx content;
                 modify (fun c => set_buffer (<[query_id := content]> (_buffer c)) c)
             end
         end
       else emit (DownloadCallback callback (inr content) srv ctx)) ;;
      c ← get_self;
      when (bool_decide (_progress_callback c = Some true))
        (emit (CanceledConnect ctx)).

(** [_processResponse], lines 462 to 501: the reply carries an error.
    Gives [None] where the method returns, and the [status] and [body] it
    has set otherwise. *)
Definition _processResponse_error (response : QNetworkReply) (srv : server)
    (callback : option callback) (ctx : context) (ignore_errors : bool)
  : M (option (Z * option string)) :=
  let error_code := error response in
  let error_message := errorString response in
  if bool_decide (error_code < 200) then
    when (negb ignore_errors)
      (close ;;
       match callback with
       | Some cb => call cb (message error_message) true srv (Some ctx) None
       | None => ret tt
       end) ;;
    ret None
  else
    let status := HttpStatusCodeAttribute response in
    (* except UnicodeError: body = None *)
    let body := strip NUL <$> utf8_decode (readAll response) in
    let content_type := ContentTypeHeader response in
    match callback with
    | Some cb =>
        if negb (truthy body) || negb (is_json content_type) then
          call cb (message error_message) true srv (Some ctx) None
        else
          try_except
            (params ← py_json_loads body;
             call cb params true srv (Some ctx) None)
            is_ValueError
            (call cb (message error_message) true srv (Some ctx) None)
    | None =>
        try_except
          (params ← py_json_loads body;
           py_getitem params "message" ;; ret tt)
          (fun e => is_ValueError e || is_KeyError e)
          (ret tt)
    end ;;
    ret (Some (status, body)).

(** [_processResponse], lines 502 to 520: the reply carries no error. *)
Definition _processResponse_success (response : QNetworkReply) (srv : server)
    (callback : option callback) (ctx : context)
  : M (option (Z * option string)) :=
  let status := HttpStatusCodeAttribute response in
  (* except UnicodeDecodeError: body = None *)
  let body := strip NUL <$> utf8_decode (readAll response) in
  let content_type := ContentTypeHeader response in
  params ←
    (if truthy body
        && (0 <? String.length
                   (strip (String " " (String LF (String TAB "")))
                      (default "" body)))%nat
        && is_json content_type
     then py_json_loads body
     else ret (JObj []));
  match callback with
  | Some cb =>
      if bool_decide (400 ≤ status)
      then call cb params true srv (Some ctx) None
      else call cb params false srv (Some ctx) (Some body)
  | None => ret tt
  end ;;
  ret (Some (status, body)).

(** [_processResponse], lines 522 to 530: the bad request raised at the
    end. *)
Definition _processResponse_bad_request (status : Z) (body : option string)
  : M unit :=
  if bool_decide (status = 400) then
    e ← try_except
          (params ← py_json_loads body;
           fingerprint ← py_getitem params "path";
           ret (HttpBadRequest body (Some fingerprint)))
          is_Exception
          (ret (HttpBadRequest body None));
    raise e
  else ret tt.

Definition _processResponse (response : QNetworkReply) (srv : server)
    (callback : option callback) (ctx : context)
    (request_body : option QIODevice) (ignore_errors : bool) : M unit :=
  when (bool_decide (is_Some request_body)) (emit CloseRequestBody) ;;
  match ctx !! "query_id" with
  | Some query_id => _notify_progress_end_query query_id
  | None => ret tt
  end ;;
  r ←
    (if bool_decide (error response ≠ NoError)
     then _processResponse_error response srv callback ctx ignore_errors
     else _processResponse_success response srv callback ctx);
  match r with
  | None => ret tt
  | Some (status, body) => _processResponse_bad_request status body
  end.
End Methods.

(** * A reference environment

    Executable definitions of the library functions, following the Python
    library on texts within U+0000..U+00FF: the scanner of [json.decoder]
    and [json.scanner], [json.dumps] with its default arguments, UTF-8,
    [ipaddress.IPv6Address], base64.  Floats are kept as their literal; the
    recursion limit of the decoder is not modelled.  The theorems below
    hold for every environment; this one gives the examples. *)

Module PyRef.

Definition WHITESPACE : string := String " " (String TAB (String LF (String CR ""))).
Definition skip_ws (s : string) : string := lstrip WHITESPACE s.

Definition is_digit (c : ascii) : bool := mem_ascii c "0123456789".

Definition digit_val (c : ascii) : Z := Z.of_N (N_of_ascii c) - 48.

(** The digits at the front of [s], and the rest. *)
Fixpoint span_digits (s : string) : string * string :=
  match s with
  | String c r =>
      if is_digit c then let '(ds, r') := span_digits r in (String c ds, r')
      else ("", s)
  | "" => ("", "")
  end.

Fixpoint int_of_digits (acc : Z) (ds : string) : Z :=
  match ds with
  | "" => acc
  | String c r => int_of_digits (10 * acc + digit_val c) r
  end.

(** [NUMBER_RE]: an integer part (an optional minus sign, then 0 or a
    digit from 1 to 9 and digits), an optional fraction (a dot and digits)
    and an optional exponent (e or E, an optional sign, digits).  Each part
    is given with what follows it. *)
Definition scan_sign (s : string) : string * string :=
  match s with
  | String c r => if Ascii.eqb c "-" then ("-", r) else ("", s)
  | "" => ("", s)
  end.

Definition scan_int (s : string) : option (string * string) :=
  match s with
  | String c r =>
      if Ascii.eqb c "0" then Some ("0", r)
      else if is_digit c then
        let '(ds, r') := span_digits r in Some (String c ds, r')
      else None
  | "" => None
  end.

Definition scan_frac (s : string) : string * string :=
  match s with
  | String c r =>
      if Ascii.eqb c "." then
        match span_digits r with
        | ("", _) => ("", s)
        | (fs, r') => (String "." fs, r')
        end
      else ("", s)
  | "" => ("", s)
  end.

Definition scan_exp (s : string) : string * string :=
  match s with
  | String e r =>
      if mem_ascii e "eE" then
        let '(sg, r1) :=
          match r with
          | String g r1 =>
              if mem_ascii g "-+" then (String g "", r1) else ("", r)
          | "" => ("", r)
          end in
        match span_digits r1 with
        | ("", _) => ("", s)
        | (es, r') => (String e (sg +:+ es), r')
        end
      else ("", s)
  | "" => ("", s)
  end.

Definition scan_number (s : string) : option (json * string) :=
  let '(sign, s1) := scan_sign s in
  match scan_int s1 with
  | None => None
  | Some (ds, s2) =>
      let '(frac, s3) := scan_frac s2 in
      let '(exp, s4) := scan_exp s3 in
      match frac, exp with
      | "", "" =>
          Some (JInt (if String.eqb sign "-" then - int_of_digits 0 ds
                      else int_of_digits 0 ds), s4)
      | _, _ => Some (JReal (sign +:+ ds +:+ frac +:+ exp), s4)
      end
  end.

Definition hex_val (c : ascii) : option N :=
  let n := N_of_ascii c in
  if is_digit c then Some (n - 48)%N
  else if mem_ascii c "abcdef" then Some (n - 87)%N
  else if mem_ascii c "ABCDEF" then Some (n - 55)%N
  else None.

Definition hex4 (a b c d : ascii) : option N :=
  match hex_val a, hex_val b, hex_val c, hex_val d with
  | Some x, Some y, Some z, Some w => Some (((x * 16 + y) * 16 + z) * 16 + w)%N
  | _, _, _, _ => None
  end.

(** [BACKSLASH] of [json.decoder] *)
Definition unescape (c : ascii) : option ascii :=
  if Ascii.eqb c dquote then Some dquote
  else if Ascii.eqb c "\" then Some "\"%char
  else if Ascii.eqb c "/" then Some "/"%char
  else if Ascii.eqb c "b" then Some "008"%char
  else if Ascii.eqb c "f" then Some "012"%char
  else if Ascii.eqb c "n" then Some LF
  else if Ascii.eqb c "r" then Some CR
  else if Ascii.eqb c "t" then Some TAB
  else None.

Definition cons_str (c : ascii) (r : option (string * string))
  : option (string * string) :=
  match r with
  | Some (s, rest) => Some (String c s, rest)
  | None => None
  end.

(** [scanstring], strict, from behind the opening quote: the string and
    what follows its closing quote. *)
Fixpoint scanstring (s : string) : option (string * string) :=
  match s with
  | "" => None
  | String c r =>
      if Ascii.eqb c dquote then Some ("", r)
      else if Ascii.eqb c "\" then
        match r with
        | String e r' =>
            if Ascii.eqb e "u" then
              match r' with
              | String h1 (String h2 (String h3 (String h4 r''))) =>
                  match hex4 h1 h2 h3 h4 with
                  | Some n =>
                      if (n <? 256)%N
                      then cons_str (ascii_of_N n) (scanstring r'')
                      else None
                  | None => None
                  end
              | _ => None
              end
            else
              match unescape e with
              | Some c' => cons_str c' (scanstring r')
              | None => None
              end
        | "" => None
        end
      else if (N_of_ascii c <? 32)%N then None
      else cons_str c (scanstring r)
  end.

(** [s] starts with [lit]: the rest of [s]. *)
Fixpoint after_prefix (lit s : string) : option string :=
  match lit, s with
  | "", _ => Some s
  | String a lit', String c s' =>
      if Ascii.eqb a c then after_prefix lit' s' else None
  | String _ _, "" => None
  end.

(** The values of [scan_once] that are neither strings nor objects nor
    arrays: [null], [true], [false], a number, [NaN], [Infinity],
    [-Infinity], tried in this order. *)
Definition scan_atom (s : string) : option (json * string) :=
  match after_prefix "null" s, after_prefix "true" s, after_prefix "false" s with
  | Some rest, _, _ => Some (JNull, rest)
  | _, Some rest, _ => Some (JBool true, rest)
  | _, _, Some rest => Some (JBool false, rest)
  | None, None, None =>
      match scan_number s with
      | Some v => Some v
      | None =>
          match after_prefix "NaN" s, after_prefix "Infinity" s,
                after_prefix "-Infinity" s with
          | Some rest, _, _ => Some (JReal "NaN", rest)
          | _, Some rest, _ => Some (JReal "Infinity", rest)
          | _, _, Some rest => Some (JReal "-Infinity", rest)
          | None, None, None => None
          end
      end
  end.

(** [scan_once], with [JSONArray] and [JSONObject]: the value at the front
    of [s] and what follows it. *)
Fixpoint scan_once (fuel : nat) (s : string) : option (json * string) :=
  match fuel with
  | O => None
  | S fuel' =>
      match s with
      | "" => None
      | String c r =>
          if Ascii.eqb c dquote then
            match scanstring r with
            | Some (str, rest) => Some (JStr str, rest)
            | None => None
            end
          else if Ascii.eqb c "{" then
            match skip_ws r with
            | String c' r' =>
                if Ascii.eqb c' "}" then Some (JObj [], r')
                else if Ascii.eqb c' dquote then JSONObject fuel' r' []
                else None
            | "" => None
            end
          else if Ascii.eqb c "[" then
            match skip_ws r with
            | String c' r' =>
                if Ascii.eqb c' "]" then Some (JArr [], r')
                else JSONArray fuel' (String c' r') []
            | "" => None
            end
          else scan_atom s
      end
  end
(** the values of an array, from its first value on *)
with JSONArray (fuel : nat) (s : string) (values : list json)
  : option (json * string) :=
  match fuel with
  | O => None
  | S fuel' =>
      match scan_once fuel' s with
      | None => None
      | Some (value, rest) =>
          let values := values ++ [value] in
          match skip_ws rest with
          | String c rest' =>
              if Ascii.eqb c "]" then Some (JArr values, rest')
              else if Ascii.eqb c "," then JSONArray fuel' (skip_ws rest') values
              else None
          | "" => None
          end
      end
  end
(** the pairs of an object, from behind the quote that opens a key *)
with JSONObject (fuel : nat) (s : string) (pairs : dict)
  : option (json * string) :=
  match fuel with
  | O => None
  | S fuel' =>
      match scanstring s with
      | None => None
      | Some (key, rest) =>
          match skip_ws rest with
          | String c rest1 =>
              if Ascii.eqb c ":" then
                match scan_once fuel' (skip_ws rest1) with
                | None => None
                | Some (value, rest2) =>
                    let pairs := dict_set key value pairs in
                    match skip_ws rest2 with
                    | String c2 rest3 =>
                        if Ascii.eqb c2 "}" then Some (JObj pairs, rest3)
                        else if Ascii.eqb c2 "," then
                          match skip_ws rest3 with
                          | String c3 r =>
                              if Ascii.eqb c3 dquote
                              then JSONObject fuel' r pairs
                              else None
                          | "" => None
                          end
                        else None
                    | "" => None
                    end
                end
              else None
          | "" => None
          end
      end
  end.

(** [JSONDecoder().raw_decode(s)] *)
Definition raw_decode (s : string) : option (json * nat) :=
  match scan_once (2 * String.length s + 2) s with
  | Some (obj, rest) => Some (obj, (String.length s - String.length rest)%nat)
  | None => None
  end.

(** [json.loads(s)] *)
Definition json_loads (s : string) : option json :=
  let s := skip_ws s in
  match scan_once (2 * String.length s + 2) s with
  | Some (obj, rest) =>
      match skip_ws rest with
      | "" => Some obj
      | _ => None
      end
  | None => None
  end.
(** ** [json.dumps] *)

Definition hex_digit (n : N) : ascii :=
  default "0"%char (String.get (N.to_nat n) "0123456789abcdef").

(** [ESCAPE_ASCII] and [ESCAPE_DCT] of [json.encoder] *)
Definition escape_char (c : ascii) : string :=
  let n := N_of_ascii c in
  if Ascii.eqb c dquote then String "\" (String dquote "")
  else if Ascii.eqb c "\" then "\\"
  else if Ascii.eqb c LF then "\n"
  else if Ascii.eqb c CR then "\r"
  else if Ascii.eqb c TAB then "\t"
  else if Ascii.eqb c "008" then "\b"
  else if Ascii.eqb c "012" then "\f"
  else if (n <? 32)%N || (126 <? n)%N then
    "\u00" +:+ String (hex_digit (n / 16)) (String (hex_digit (n mod 16)) "")
  else String c "".

Fixpoint encode_basestring_ascii (s : string) : string :=
  match s with
  | "" => ""
  | String c r => escape_char c +:+ encode_basestring_ascii r
  end.

Definition join (sep : string) (l : list string) : string := String.concat sep l.

Fixpoint json_dumps (v : json) : string :=
  match v with
  | JNull => "null"
  | JBool true => "true"
  | JBool false => "false"
  | JInt n => pretty n
  | JReal lit => lit
  | JStr s => quoted (encode_basestring_ascii s)
  | JArr items => "[" +:+ join ", " (map json_dumps items) +:+ "]"
  | JObj fields =>
      "{" +:+
      join ", "
        (map (fun kv => quoted (encode_basestring_ascii (fst kv)) +:+ ": "
                        +:+ json_dumps (snd kv)) fields)
      +:+ "}"
  end.

(** ** UTF-8, for the code points below U+0100 *)

Definition byte_of_N (n : N) : Byte.byte := default Byte.x00 (Byte.of_N n).

Fixpoint utf8_encode (s : string) : bytes :=
  match s with
  | "" => []
  | String c r =>
      let n := N_of_ascii c in
      if (n <? 128)%N then byte_of_N n :: utf8_encode r
      else byte_of_N (192 + n / 64) :: byte_of_N (128 + n mod 64) :: utf8_encode r
  end.

Fixpoint utf8_decode (bs : bytes) : option string :=
  match bs with
  | [] => Some ""
  | b0 :: r =>
      let n := Byte.to_N b0 in
      if (n <? 128)%N then String (ascii_of_N n) <$> utf8_decode r
      else if (n =? 194)%N || (n =? 195)%N then
        match r with
        | b1 :: r' =>
            let m := Byte.to_N b1 in
            if (128 <=? m)%N && (m <? 192)%N
            then String (ascii_of_N ((n - 192) * 64 + (m - 128))) <$> utf8_decode r'
            else None
        | [] => None
        end
      else None
  end.

(** ** [base64.b64encode] *)

Definition b64_char (n : N) : ascii :=
  default "="%char
    (String.get (N.to_nat n)
       "ABCDEFGHIJKLMNOPQRSTUVWXYZabcdefghijklmnopqrstuvwxyz0123456789+/").

Fixpoint b64encode (bs : bytes) : string :=
  match bs with
  | [] => ""
  | [x] =>
      let x := Byte.to_N x in
      String (b64_char (x / 4)) (String (b64_char (x mod 4 * 16)) "==")
  | [x; y] =>
      let x := Byte.to_N x in
      let y := Byte.to_N y in
      String (b64_char (x / 4))
        (String (b64_char (x mod 4 * 16 + y / 16))
           (String (b64_char (y mod 16 * 4)) "="))
  | x :: y :: z :: r =>
      let x := Byte.to_N x in
      let y := Byte.to_N y in
      let z := Byte.to_N z in
      String (b64_char (x / 4))
        (String (b64_char (x mod 4 * 16 + y / 16))
           (String (b64_char (y mod 16 * 4 + z / 64))
              (String (b64_char (z mod 64)) (b64encode r))))
  end%N.

(** ** [ipaddress.IPv6Address], without scope id (Python before 3.9) *)

(** [s.split(c)] *)
Fixpoint split_on (c : ascii) (s : string) : list string :=
  match s with
  | "" => [""]
  | String a r =>
      if Ascii.eqb a c then "" :: split_on c r
      else
        match split_on c r with
        | h :: t => String a h :: t
        | [] => [String a ""]
        end
  end.

Fixpoint all_chars (p : ascii -> bool) (s : string) : bool :=
  match s with
  | "" => true
  | String c r => p c && all_chars p r
  end.

Definition valid_octet (o : string) : bool :=
  all_chars is_digit o
  && (1 <=? String.length o)%nat && (String.length o <=? 3)%nat
  && negb (String.prefix "0" o && (1 <? String.length o)%nat)
  && (int_of_digits 0 o <=? 255).

Definition is_ipv4 (s : string) : bool :=
  let octets := split_on "." s in
  (length octets =? 4)%nat && forallb valid_octet octets.

Definition valid_hextet (h : string) : bool :=
  all_chars (fun c => mem_ascii c "0123456789abcdefABCDEF") h
  && (1 <=? String.length h)%nat && (String.length h <=? 4)%nat.

Definition is_empty (s : string) : bool := String.eqb s "".

Definition is_ipv6 (ip_str : string) : bool :=
  let parts := split_on ":" ip_str in
  if is_empty ip_str || contains "/" ip_str then false
  else if (length parts <? 3)%nat then false
  else
    let last_part := List.last parts "" in
    let parts' : option (list string) :=
      if contains "." last_part then
        if is_ipv4 last_part then Some (removelast parts ++ ["0"; "0"]) else None
      else Some parts in
    match parts' with
    | None => false
    | Some parts =>
        let n := length parts in
        if (9 <? n)%nat then false
        else
          let first_empty := is_empty (hd "" parts) in
          let last_empty := is_empty (List.last parts "") in
          match filter (fun i => is_empty (nth i parts "")) (seq 1 (n - 2)) with
          | _ :: _ :: _ => false
          | [skip_index] =>
              let parts_hi := if first_empty then (skip_index - 1)%nat else skip_index in
              let parts_lo :=
                if last_empty then (n - skip_index - 2)%nat
                else (n - skip_index - 1)%nat in
              negb (first_empty && negb (parts_hi =? 0)%nat)
              && negb (last_empty && negb (parts_lo =? 0)%nat)
              && (parts_hi + parts_lo <? 8)%nat
              && forallb valid_hextet (firstn parts_hi parts)
              && forallb valid_hextet (skipn (n - parts_lo) parts)
          | [] =>
              (n =? 8)%nat && negb first_empty && negb last_empty
              && forallb valid_hextet parts
          end
    end.

(** ** Formatting *)

Fixpoint py_repr (v : json) : string :=
  match v with
  | JNull => "None"
  | JBool true => "True"
  | JBool false => "False"
  | JInt n => pretty n
  | JReal lit => lit
  | JStr s => "'" +:+ s +:+ "'"
  | JArr items => "[" +:+ join ", " (map py_repr items) +:+ "]"
  | JObj fields =>
      "{" +:+
      join ", " (map (fun kv => "'" +:+ fst kv +:+ "': " +:+ py_repr (snd kv)) fields)
      +:+ "}"
  end.

(** ["{}".format(v)]: a [str] as it is, another value by its [repr] (of a
    [str] inside it, where it has no quote, backslash or control
    character). *)
Definition py_str (v : json) : string :=
  match v with
  | JStr s => s
  | _ => py_repr v
  end.

(** Modelled from the spec: [gns3.utils.parse_version] is not part of the
    sources; the specification describes it as a pure function from a
    version string to a sequence of integers.  Here: the integers at the
    front of the parts between dots. *)
Definition parse_version (v : string) : list Z :=
  map (fun part => int_of_digits 0 (fst (span_digits part))) (split_on "." v).

(** A version 4 UUID for each call. *)
Definition uuid4 (n : nat) : string :=
  let digits := pretty n in
  "00000000-0000-4000-8000-" +:+
  String.substring 0 (12 - String.length digits) "000000000000" +:+ digits.

End PyRef.

(** The reference environment of a client of version [version]. *)
Definition py_env (version : string) (version_info : list Z) : Env :=
  {| __version__ := version;
     __version_info__ := version_info;
     vpart := Z;
     parse_version := PyRef.parse_version;
     json_loads := PyRef.json_loads;
     raw_decode := PyRef.raw_decode;
     json_dumps := PyRef.json_dumps;
     utf8_decode := PyRef.utf8_decode;
     utf8_encode := PyRef.utf8_encode;
     is_ipv6 := PyRef.is_ipv6;
     b64encode := PyRef.b64encode;
     py_str := PyRef.py_str;
     uuid4 := PyRef.uuid4 |}.

(** * Reading a trace *)

Definition is_callback (e : event) : bool :=
  match e with Callback _ _ _ _ _ _ => true | _ => false end.

(** The calls of response callbacks in a trace, in order. *)
Definition callbacks (t : list event) : list event := List.filter is_callback t.

Definition is_send (e : event) : bool :=
  match e with SendCustomRequest _ _ _ => true | _ => false end.

(** The requests handed to the network manager, in order. *)
Definition requests (t : list event) : list event := List.filter is_send t.

(** The answers passed to the download progress callback, in order. *)
Fixpoint downloads (t : list event) : list (json + bytes) :=
  match t with
  | [] => []
  | DownloadCallback _ content _ _ :: t' => content :: downloads t'
  | _ :: t' => downloads t'
  end.

(** * Proof support *)

Ltac run_M :=
  repeat (progress (unfold mbind, mret, M_bind, M_ret, close, when, bind, ret,
                      raise, try_except, emit, get_self, modify));
  cbv beta iota.

(** ** Running the monad *)

Lemma run_bind {A B} (m : M A) (f : A -> M B) (c c1 : HTTPClient) (a : A)
    (t1 : list event) :
  m c = (Ok a, c1, t1) ->
  (m ≫= f) c = (let '(r, c2, t2) := f a c1 in (r, c2, t1 ++ t2)).
Proof. intros H. unfold mbind, M_bind, bind. rewrite H. reflexivity. Qed.

Lemma bind_assoc {A B C} (m : M A) (f : A -> M B) (g : B -> M C)
    (c : HTTPClient) :
  ((m ≫= f) ≫= g) c = (m ≫= (fun x => f x ≫= g)) c.
Proof.
  unfold mbind, M_bind, bind.
  destruct (m c) as [[[a|e] c1] t1]; [|reflexivity].
  destruct (f a c1) as [[[b'|e] c2] t2]; [|reflexivity].
  destruct (g b' c2) as [[r c3] t3]. now rewrite List.app_assoc.
Qed.

Lemma run_bind_raise {A B} (m : M A) (f : A -> M B) (c c1 : HTTPClient)
    (e : exn) (t1 : list event) :
  m c = (Raise e, c1, t1) -> (m ≫= f) c = (Raise e, c1, t1).
Proof. intros H. unfold mbind, M_bind, bind. rewrite H. reflexivity. Qed.


(** ** Strings *)

Lemma app_cons (c : ascii) (s t : string) : String c s +:+ t = String c (s +:+ t).
Proof. reflexivity. Qed.

Lemma app_nil_l (s : string) : "" +:+ s = s.
Proof. reflexivity. Qed.

Lemma app_nil_r (s : string) : s +:+ "" = s.
Proof. induction s as [|c s IH]; [reflexivity | now rewrite app_cons, IH]. Qed.

Lemma app_assoc (s1 s2 s3 : string) : (s1 +:+ s2) +:+ s3 = s1 +:+ (s2 +:+ s3).
Proof.
  induction s1 as [|c s1 IH]; [reflexivity | now rewrite !app_cons, IH].
Qed.

Lemma length_app (s1 s2 : string) :
  String.length (s1 +:+ s2) = (String.length s1 + String.length s2)%nat.
Proof.
  induction s1 as [|c s1 IH]; [reflexivity | rewrite app_cons; simpl; now rewrite IH].
Qed.

(** ** Leading characters *)

(** [s] is made of characters of [chars]. *)
Definition blank (chars s : string) : Prop := lstrip chars s = "".

(** [s] is not empty and does not start with a character of [chars]. *)
Definition starts_value (chars s : string) : Prop :=
  s ≠ "" /\ lstrip chars s = s.

Lemma blank_nil (chars : string) : blank chars "".
Proof. reflexivity. Qed.

Lemma blank_cons (chars : string) (a : ascii) (s : string) :
  blank chars (String a s) <-> mem_ascii a chars = true /\ blank chars s.
Proof.
  unfold blank. simpl. destruct (mem_ascii a chars).
  - split; [auto | intros [_ H]; exact H].
  - split; [discriminate | intros [H _]; discriminate H].
Qed.

Lemma blank_app (chars a s : string) :
  blank chars (a +:+ s) <-> blank chars a /\ blank chars s.
Proof.
  induction a as [|x a IH].
  - rewrite app_nil_l. split; [intros H; split; [reflexivity | exact H] | tauto].
  - rewrite app_cons, !blank_cons, IH. tauto.
Qed.

Lemma lstrip_blank_app (chars a s : string) :
  blank chars a -> lstrip chars (a +:+ s) = lstrip chars s.
Proof.
  induction a as [|x a IH]; intros Ha; [reflexivity|].
  apply blank_cons in Ha as [Hx Ha]. rewrite app_cons. simpl. rewrite Hx. auto.
Qed.

Lemma lstrip_split (chars s : string) :
  exists a : string, blank chars a /\ s = a +:+ lstrip chars s.
Proof.
  induction s as [|x s (a & Ha & Hs)].
  - exists "". split; reflexivity.
  - simpl. destruct (mem_ascii x chars) eqn:Hx.
    + exists (String x a). split; [now apply blank_cons|].
      rewrite app_cons. now f_equal.
    + exists "". split; reflexivity.
Qed.

Lemma lstrip_starts_value (chars s : string) :
  lstrip chars s ≠ "" -> starts_value chars (lstrip chars s).
Proof.
  intros Hne. split; [exact Hne|].
  induction s as [|x s IH]; [reflexivity|]. simpl in *.
  destruct (mem_ascii x chars) eqn:Hx; [auto|]. simpl. now rewrite Hx.
Qed.

Lemma lstrip_idem (chars s : string) :
  lstrip chars (lstrip chars s) = lstrip chars s.
Proof.
  destruct (lstrip chars s) eqn:H; [reflexivity|]. rewrite <- H.
  apply lstrip_starts_value. rewrite H. discriminate.
Qed.

Lemma starts_value_head (chars s : string) :
  starts_value chars s ->
  exists (x : ascii) (s' : string), s = String x s' /\ mem_ascii x chars = false.
Proof.
  intros [Hne Hs]. destruct s as [|x s']; [contradiction|].
  exists x, s'. split; [reflexivity|]. simpl in Hs.
  destruct (mem_ascii x chars); [|reflexivity].
  exfalso. assert (Hlen : (String.length (lstrip chars s') <= String.length s')%nat).
  { clear. induction s' as [|y s' IH]; simpl; [lia|].
    destruct (mem_ascii y chars); simpl; lia. }
  rewrite Hs in Hlen. simpl in Hlen. lia.
Qed.

Lemma starts_value_app (chars s t : string) :
  starts_value chars s -> lstrip chars (s +:+ t) = s +:+ t.
Proof.
  intros H. destruct (starts_value_head _ _ H) as (x & s' & -> & Hx).
  rewrite app_cons. simpl. now rewrite Hx.
Qed.

Lemma starts_value_not_blank (chars s : string) :
  starts_value chars s -> ~ blank chars s.
Proof. intros [Hne Hs] Hb. unfold blank in Hb. congruence. Qed.

(** Two texts that start after blanks start at the same place. *)
Lemma blank_prefix_unique (chars a x r1 c y r2 : string) :
  blank chars a -> starts_value chars x ->
  blank chars c -> starts_value chars y ->
  a +:+ x +:+ r1 = c +:+ y +:+ r2 ->
  a = c /\ x +:+ r1 = y +:+ r2.
Proof.
  intros Ha Hx Hc Hy. revert c Hc.
  destruct (starts_value_head _ _ Hx) as (hx & x' & -> & Hhx).
  destruct (starts_value_head _ _ Hy) as (hy & y' & -> & Hhy).
  induction a as [|p a IH]; intros c Hc Heq.
  - destruct c as [|q c]; [split; [reflexivity | exact Heq]|].
    apply blank_cons in Hc as [Hq _]. rewrite app_nil_l, !app_cons in Heq.
    injection Heq as -> _. congruence.
  - apply blank_cons in Ha as [Hp Ha]. destruct c as [|q c].
    + rewrite app_nil_l, !app_cons in Heq. injection Heq as -> _. congruence.
    + apply blank_cons in Hc as [Hq Hc]. rewrite !app_cons in Heq.
      injection Heq as -> Heq. destruct (IH Ha c Hc Heq) as [-> H].
      split; [reflexivity | exact H].
Qed.

Lemma app_eq_app (x r1 y r2 : string) :
  x +:+ r1 = y +:+ r2 ->
  (exists m, m ≠ "" /\ y = x +:+ m) \/ (exists m, x = y +:+ m /\ r2 = m +:+ r1).
Proof.
  revert y. induction x as [|a x IH]; intros y Heq.
  - destruct y as [|q y].
    + right. exists "". split; [reflexivity | now rewrite !app_nil_l in *].
    + left. exists (String q y). split; [discriminate | reflexivity].
  - destruct y as [|q y].
    + right. exists (String a x). split; [reflexivity|].
      now rewrite app_nil_l in Heq.
    + rewrite !app_cons in Heq. injection Heq as -> Heq.
      destruct (IH y Heq) as [(m & Hm & ->) | (m & -> & ->)].
      * left. exists m. split; [exact Hm | reflexivity].
      * right. exists m. split; reflexivity.
Qed.

Lemma drop_str_app (a s : string) : drop_str (String.length a) (a +:+ s) = s.
Proof. induction a as [|x a IH]; [now destruct s | exact IH]. Qed.

Lemma length_lstrip (chars s : string) :
  (String.length (lstrip chars s) <= String.length s)%nat.
Proof.
  induction s as [|x s IH]; simpl; [lia|].
  destruct (mem_ascii x chars); simpl; lia.
Qed.

Lemma length_drop_str (n : nat) (s : string) :
  String.length (drop_str n s) = (String.length s - n)%nat.
Proof.
  revert s. induction n as [|n IH]; intros s; destruct s as [|x s]; simpl; auto.
Qed.

(** * The response classifier *)

(** The body of the bad request of the specification. *)
Definition fingerprint_body : string :=
  "{" +:+ quoted "path" +:+ ": " +:+ quoted "/some/fingerprint" +:+ "}".

Section Classifier.
Context {E : Env}.

(** What [_processResponse] does before it looks at the reply: no
    callback, and the client is left as it is. *)
Definition _processResponse_prelude (ctx : context)
    (request_body : option QIODevice) : M unit :=
  when (bool_decide (is_Some request_body)) (emit CloseRequestBody) ;;
  match ctx !! "query_id" with
  | Some query_id => _notify_progress_end_query query_id
  | None => ret tt
  end.

Lemma prelude_run (ctx : context) (request_body : option QIODevice)
    (c : HTTPClient) :
  exists t : list event,
    _processResponse_prelude ctx request_body c = (Ok tt, c, t)
    /\ callbacks t = [].
Proof.
  unfold _processResponse_prelude, _notify_progress_end_query. run_M.
  destruct request_body, (ctx !! "query_id"); simpl;
    destruct (_progress_callback c); simpl; eexists; split; reflexivity.
Qed.

Lemma callbacks_app (t1 t2 : list event) :
  callbacks (t1 ++ t2) = callbacks t1 ++ callbacks t2.
Proof. unfold callbacks. apply List.filter_app. Qed.

(** [_processResponse] is its prelude, then the classification, then the
    bad request. *)
Lemma _processResponse_run
    (response : QNetworkReply) (srv : server) (callback : option callback)
    (ctx : context) (request_body : option QIODevice) (ignore_errors : bool)
    (c : HTTPClient) :
  exists pre : list event,
    callbacks pre = []
    /\ _processResponse response srv callback ctx request_body ignore_errors c
       = let '(r, c2, t2) :=
           ((if bool_decide (error response ≠ NoError)
             then _processResponse_error response srv callback ctx ignore_errors
             else _processResponse_success response srv callback ctx)
            ≫= (fun r => match r with
                         | None => ret tt
                         | Some (status, body) =>
                             _processResponse_bad_request status body
                         end)) c in
         (r, c2, pre ++ t2).
Proof.
  destruct (prelude_run ctx request_body c) as (pre & Hpre & Hcb).
  exists pre. split; [exact Hcb|].
  unfold _processResponse. rewrite <- bind_assoc.
  exact (run_bind _ _ _ _ _ _ Hpre).
Qed.

(** The body as [_processResponse] decodes it. *)
Definition decoded_body (response : QNetworkReply) : option string :=
  strip NUL <$> utf8_decode (readAll response).

(** The body is there, is not blank and is labelled as JSON. *)
Definition json_expected (response : QNetworkReply) : bool :=
  truthy (decoded_body response)
  && (0 <? String.length
             (strip (String " " (String LF (String TAB "")))
                (default "" (decoded_body response))))%nat
  && is_json (ContentTypeHeader response).

(** A response without transport error whose body is labelled as JSON, is
    not blank and is not JSON. *)
Definition garbled_success (response : QNetworkReply) : Prop :=
  error response = NoError
  /\ json_expected response = true
  /\ py_json_loads (decoded_body response) = raise JSONDecodeError.

(** The first argument of the callback, for a reply with an error and an
    HTTP status. *)
Definition error_params (response : QNetworkReply) : json :=
  if negb (truthy (decoded_body response))
     || negb (is_json (ContentTypeHeader response))
  then message (errorString response)
  else
    match default None (json_loads <$> decoded_body response) with
    | Some params => params
    | None => message (errorString response)
    end.

(** The first argument of the callback, for a reply without error. *)
Definition success_params (response : QNetworkReply) : json :=
  if json_expected response
  then default (JObj []) (default None (json_loads <$> decoded_body response))
  else JObj [].

(** The fingerprint that the end of [_processResponse] extracts. *)
Definition fingerprint_of (body : option string) : option json :=
  match body with
  | Some s =>
      match json_loads s with
      | Some (JObj d) => dict_get "path" d
      | _ => None
      end
  | None => None
  end.

Lemma _processResponse_error_transport
    (response : QNetworkReply) (srv : server) (cb : string) (ctx : context)
    (c : HTTPClient) :
  error response < 200 ->
  _processResponse_error response srv (Some (UserCallback cb)) ctx false c
  = (Ok None, set_connected false c,
     [Callback cb (message (errorString response)) true srv (Some ctx) None]).
Proof.
  intros Hlow. unfold _processResponse_error.
  rewrite (bool_decide_eq_true_2 _ Hlow). reflexivity.
Qed.

Lemma _processResponse_error_ignored
    (response : QNetworkReply) (srv : server) (callback : option callback)
    (ctx : context) (c : HTTPClient) :
  error response < 200 ->
  _processResponse_error response srv callback ctx true c = (Ok None, c, []).
Proof.
  intros Hlow. unfold _processResponse_error.
  rewrite (bool_decide_eq_true_2 _ Hlow). reflexivity.
Qed.

Lemma _processResponse_error_http
    (response : QNetworkReply) (srv : server) (cb : string) (ctx : context)
    (ignore_errors : bool) (c : HTTPClient) :
  200 <= error response ->
  _processResponse_error response srv (Some (UserCallback cb)) ctx
    ignore_errors c
  = (Ok (Some (HttpStatusCodeAttribute response, decoded_body response)), c,
     [Callback cb (error_params response) true srv (Some ctx) None]).
Proof.
  intros Hhigh. unfold _processResponse_error, error_params.
  rewrite bool_decide_eq_false_2 by lia.
  fold (decoded_body response).
  destruct (decoded_body response) as [body|]; [|reflexivity].
  destruct body as [|ch body]; [reflexivity|].
  destruct (is_json (ContentTypeHeader response)); [|reflexivity].
  unfold py_json_loads, call. run_M. simpl.
  destruct (json_loads (String ch body)); reflexivity.
Qed.

Lemma _processResponse_success_run
    (response : QNetworkReply) (srv : server) (cb : string) (ctx : context)
    (c : HTTPClient) :
  ~ garbled_success response ->
  error response = NoError ->
  _processResponse_success response srv (Some (UserCallback cb)) ctx c
  = (Ok (Some (HttpStatusCodeAttribute response, decoded_body response)), c,
     [if bool_decide (400 ≤ HttpStatusCodeAttribute response)
      then Callback cb (success_params response) true srv (Some ctx) None
      else Callback cb (success_params response) false srv (Some ctx)
             (Some (decoded_body response))]).
Proof.
  intros Hok Herr. unfold _processResponse_success, success_params.
  fold (decoded_body response). fold (json_expected response).
  unfold garbled_success in Hok.
  destruct (json_expected response) eqn:Hexp.
  - unfold py_json_loads in *. unfold call. run_M. unfold json_expected in Hexp.
    destruct (decoded_body response) as [body|]; [|discriminate Hexp].
    simpl. destruct (json_loads body).
    + destruct (bool_decide (400 ≤ HttpStatusCodeAttribute response)); reflexivity.
    + exfalso. apply Hok. auto.
  - unfold call. run_M.
    destruct (bool_decide (400 ≤ HttpStatusCodeAttribute response)); reflexivity.
Qed.

Lemma _processResponse_bad_request_run (status : Z) (body : option string)
    (c : HTTPClient) :
  _processResponse_bad_request status body c
  = (if bool_decide (status = 400)
     then Raise (HttpBadRequest body (fingerprint_of body))
     else Ok tt, c, []).
Proof.
  unfold _processResponse_bad_request, py_json_loads, py_getitem, fingerprint_of.
  destruct (bool_decide (status = 400)); [|reflexivity].
  run_M.
  destruct body as [s|]; [|reflexivity].
  destruct (json_loads s) as [[| | | | | |d]|]; try reflexivity.
  destruct (dict_get "path" d); reflexivity.
Qed.

(** On a garbled success the decoding error of [json.loads] leaves
    [_processResponse] before any callback is called. *)
Lemma _processResponse_garbled_success
    (response : QNetworkReply) (srv : server) (callback : option callback)
    (ctx : context) (request_body : option QIODevice) (ignore_errors : bool)
    (c : HTTPClient) :
  garbled_success response ->
  exists t : list event,
    _processResponse response srv callback ctx request_body ignore_errors c
    = (Raise JSONDecodeError, c, t)
    /\ callbacks t = [].
Proof.
  intros (Herr & Hexp & Hloads).
  destruct (_processResponse_run response srv callback ctx request_body
              ignore_errors c) as (pre & Hpre & ->).
  exists pre. split; [|exact Hpre].
  rewrite Herr. rewrite bool_decide_eq_false_2 by (intros H; now apply H).
  assert (Hs : _processResponse_success response srv callback ctx c
               = (Raise JSONDecodeError, c, [])).
  { unfold _processResponse_success. fold (decoded_body response).
    fold (json_expected response). rewrite Hexp, Hloads. reflexivity. }
  rewrite (run_bind_raise _ _ _ _ _ _ Hs). now rewrite List.app_nil_r.
Qed.

(** A completed request with an HTTP status ends in one call of the
    caller's callback, unless it is a garbled success; when the status is
    400 it then raises [HttpBadRequest]. *)
Lemma _processResponse_http
    (response : QNetworkReply) (srv : server) (cb : string) (ctx : context)
    (request_body : option QIODevice) (ignore_errors : bool) (c : HTTPClient) :
  error response = NoError \/ 200 <= error response ->
  ~ garbled_success response ->
  exists (t : list event) (err : bool) (raw : option (option string)),
    _processResponse response srv (Some (UserCallback cb)) ctx request_body
      ignore_errors c
    = (if bool_decide (HttpStatusCodeAttribute response = 400)
       then Raise (HttpBadRequest (decoded_body response)
                     (fingerprint_of (decoded_body response)))
       else Ok tt, c, t)
    /\ callbacks t
       = [Callback cb
            (if bool_decide (error response = NoError)
             then success_params response else error_params response)
            err srv (Some ctx) raw]
    /\ (400 <= HttpStatusCodeAttribute response -> err = true /\ raw = None).
Proof.
  intros Hcode Hok.
  destruct (_processResponse_run response srv (Some (UserCallback cb)) ctx
              request_body ignore_errors c) as (pre & Hpre & ->).
  destruct (decide (error response = NoError)) as [Herr|Herr].
  - rewrite bool_decide_eq_false_2 by (intros H; now apply H).
    rewrite (run_bind _ _ _ _ _ _
               (_processResponse_success_run response srv cb ctx c Hok Herr)).
    rewrite _processResponse_bad_request_run.
    rewrite (bool_decide_eq_true_2 _ Herr).
    destruct (bool_decide (400 ≤ HttpStatusCodeAttribute response)) eqn:H400;
      eexists _, _, _; (split; [reflexivity|]);
      rewrite callbacks_app, Hpre; (split; [reflexivity|]); intros H.
    + split; reflexivity.
    + apply bool_decide_eq_false_1 in H400. lia.
  - destruct Hcode as [Hcode|Hcode]; [contradiction|].
    rewrite (bool_decide_eq_true_2 _ Herr).
    rewrite (run_bind _ _ _ _ _ _
               (_processResponse_error_http response srv cb ctx ignore_errors c
                  Hcode)).
    rewrite _processResponse_bad_request_run.
    rewrite (bool_decide_eq_false_2 _ Herr).
    eexists _, _, _; (split; [reflexivity|]);
      rewrite callbacks_app, Hpre; (split; [reflexivity|]). split; reflexivity.
Qed.

(** C3: a completed request with HTTP status 400 and a callback, that
    did not fail at the transport level.  With the body
    [{"path": "/some/fingerprint"}] the callback is called once, with the
    error flag, and then [HttpBadRequest] is raised with the fingerprint
    [/some/fingerprint]; the callback receives the parsed body when the
    content type of the reply is [application/json], and otherwise the
    error string as message, for a reply with an error, or the empty
    mapping, for a reply without error.  With any body that did not stop
    the method before the callback, the callback is called once with the
    error flag, with the argument that the branch of the reply gives it,
    and then [HttpBadRequest] is raised; it carries the [path] of the
    parsed body as fingerprint, and no fingerprint when the body is not
    an object with a [path]. *)
Theorem C3_bad_request_raised_after_callback
    (response : QNetworkReply) (srv : server) (cb : string) (ctx : context)
    (request_body : option QIODevice) (ignore_errors : bool) (c : HTTPClient) :
  HttpStatusCodeAttribute response = 400 ->
  error response = NoError \/ 200 <= error response ->
  (decoded_body response = Some fingerprint_body ->
   json_loads fingerprint_body = Some (JObj [("path", JStr "/some/fingerprint")]) ->
   exists t : list event,
     _processResponse response srv (Some (UserCallback cb)) ctx request_body
       ignore_errors c
     = (Raise (HttpBadRequest (Some fingerprint_body)
                 (Some (JStr "/some/fingerprint"))), c, t)
     /\ callbacks t
        = [Callback cb
             (if is_json (ContentTypeHeader response)
              then JObj [("path", JStr "/some/fingerprint")]
              else if bool_decide (error response = NoError)
                   then JObj []
                   else message (errorString response))
             true srv (Some ctx) None])
  /\ (~ garbled_success response ->
      exists t : list event,
        _processResponse response srv (Some (UserCallback cb)) ctx request_body
          ignore_errors c
        = (Raise (HttpBadRequest (decoded_body response)
                    (fingerprint_of (decoded_body response))), c, t)
        /\ callbacks t
           = [Callback cb
                (if bool_decide (error response = NoError)
                 then success_params response else error_params response)
                true srv (Some ctx) None]
        /\ (fingerprint_of (decoded_body response) = None
            <-> ~ exists (text : string) (d : dict) (path : json),
                    decoded_body response = Some text
                    /\ json_loads text = Some (JObj d)
                    /\ dict_get "path" d = Some path)).
Proof.
  intros H400 Hcode.
  assert (Hgen : ~ garbled_success response ->
    exists t : list event,
      _processResponse response srv (Some (UserCallback cb)) ctx request_body
        ignore_errors c
      = (Raise (HttpBadRequest (decoded_body response)
                  (fingerprint_of (decoded_body response))), c, t)
      /\ callbacks t
         = [Callback cb
              (if bool_decide (error response = NoError)
               then success_params response else error_params response)
              true srv (Some ctx) None]).
  { intros Hok.
    destruct (_processResponse_http response srv cb ctx request_body
                ignore_errors c Hcode Hok) as (t & err & raw & Hrun & Hcb & Herr).
    rewrite (bool_decide_eq_true_2 _ H400) in Hrun.
    destruct (Herr ltac:(lia)) as [-> ->].
    exists t. split; [exact Hrun | exact Hcb]. }
  split.
  - intros Hbody Hloads.
    destruct Hgen as (t & Hrun & Hcb).
    { intros (_ & _ & Hraise). rewrite Hbody in Hraise.
      unfold py_json_loads in Hraise. rewrite Hloads in Hraise.
      apply (f_equal (fun m => fst (fst (m c)))) in Hraise. discriminate Hraise. }
    exists t. rewrite Hrun, Hcb. unfold success_params, error_params, json_expected.
    rewrite Hbody. unfold fingerprint_of. rewrite Hloads. simpl.
    split; [reflexivity|].
    destruct (is_json (ContentTypeHeader response)),
      (bool_decide (error response = NoError));
      simpl; rewrite ?Hloads; reflexivity.
  - intros Hok. destruct (Hgen Hok) as (t & Hrun & Hcb).
    exists t. split; [exact Hrun|]. split; [exact Hcb|].
    unfold fingerprint_of.
    destruct (decoded_body response) as [text|].
    + destruct (json_loads text) as [[| | | | | |d]|] eqn:Hloads;
        try (split; [intros _ (text' & d' & path & [= <-] & Hd & _);
                     congruence | reflexivity]).
      destruct (dict_get "path" d) as [path|] eqn:Hpath.
      * split; [discriminate|]. intros Hno. exfalso. apply Hno.
        exists text, d, path. auto.
      * split; [|reflexivity].
        intros _ (text' & d' & path & [= <-] & Hd & Hp). congruence.
    + split; [|reflexivity]. intros _ (text & _ & _ & Habs & _). discriminate.
Qed.

(** C4: a request that fails at the transport level (an error code other
    than [NoError] and below 200), with [ignore_errors] unset: the client
    goes from connected to not connected, and the callback is called once,
    with the error flag and the error string of the transport as message,
    which is not empty when that string is not. *)
Theorem C4_transport_failure_closes_and_reports
    (response : QNetworkReply) (srv : server) (cb : string) (ctx : context)
    (request_body : option QIODevice) (c : HTTPClient) :
  error response ≠ NoError ->
  error response < 200 ->
  errorString response ≠ "" ->
  _connected c = true ->
  exists (c' : HTTPClient) (t : list event) (msg : string),
    _processResponse response srv (Some (UserCallback cb)) ctx request_body
      false c = (Ok tt, c', t)
    /\ _connected c' = false
    /\ callbacks t
       = [Callback cb (JObj [("message", JStr msg)]) true srv (Some ctx) None]
    /\ msg = errorString response
    /\ msg ≠ "".
Proof.
  intros Herr Hlow Hmsg Hconn.
  destruct (_processResponse_run response srv (Some (UserCallback cb)) ctx
              request_body false c) as (pre & Hpre & ->).
  rewrite (bool_decide_eq_true_2 _ Herr).
  rewrite (run_bind _ _ _ _ _ _
             (_processResponse_error_transport response srv cb ctx c Hlow)).
  exists (set_connected false c). eexists _, (errorString response).
  split; [reflexivity|]. rewrite !callbacks_app, Hpre.
  repeat split; auto.
Qed.

(** With [ignore_errors] set, a failure at the transport level leaves the
    client connected and calls nothing. *)
Lemma _processResponse_transport_failure_ignored
    (response : QNetworkReply) (srv : server) (callback : option callback)
    (ctx : context) (request_body : option QIODevice) (c : HTTPClient) :
  error response ≠ NoError ->
  error response < 200 ->
  exists t : list event,
    _processResponse response srv callback ctx request_body true c
    = (Ok tt, c, t)
    /\ callbacks t = [].
Proof.
  intros Herr Hlow.
  destruct (_processResponse_run response srv callback ctx request_body true c)
    as (pre & Hpre & ->).
  rewrite (bool_decide_eq_true_2 _ Herr).
  rewrite (run_bind _ _ _ _ _ _
             (_processResponse_error_ignored response srv callback ctx c Hlow)).
  eexists. split; [reflexivity|]. now rewrite !callbacks_app, Hpre.
Qed.
End Classifier.

(** * The request dispatcher *)

Section Dispatcher.
Context {E : Env}.

(** The host part of the URL of a request. *)
Definition url_host (c : HTTPClient) : string :=
  let ip := rsplit1_head "%" (_host c) in
  if is_ipv6 ip then "[" +:+ ip +:+ "]" else _host c.

(** The URL of a request. *)
Definition url_of (c : HTTPClient) (path : string) : string :=
  _protocol c +:+ "://" +:+
  (if truthy (_user c) then format_opt (_user c) +:+ "@" else "") +:+
  url_host c +:+ ":" +:+ pretty (_port c) +:+ "/v2" +:+ path.

(** The request and the body handed to the network manager. *)
Definition request_of (c : HTTPClient) (path : string) (body : pybody)
  : QNetworkRequest * option QIODevice :=
  _addBodyToRequest body
    (setRawHeader "User-Agent" (utf8_encode ("GNS3 QT Client v" +:+ __version__))
       (_addAuth c (_request (url_of c path)))).

Lemma requests_app (t1 t2 : list event) :
  requests (t1 ++ t2) = requests t1 ++ requests t2.
Proof. unfold requests. apply List.filter_app. Qed.

(** [_executeHTTPQuery] returns; it hands one request to the network
    manager, connects the completion handler, counts one more UUID and
    calls no callback. *)
Lemma _executeHTTPQuery_run (method path : string) (callback : option callback)
    (body : pybody) (ctx : context) (opts : options) (srv : server)
    (c : HTTPClient) :
  exists t : list event,
    _executeHTTPQuery method path callback body ctx opts srv c
    = (Ok tt, set_uuid_calls (S (uuid_calls c)) c,
       SendCustomRequest method (fst (request_of c path body))
         (snd (request_of c path body))
       :: FinishedConnect
            {| p_server := srv; p_callback := callback;
               p_context := <["query_id" := uuid4 (uuid_calls c)]> ctx;
               p_body := snd (request_of c path body);
               p_ignore_errors := ignoreErrors opts |}
       :: t)
    /\ callbacks t = [] /\ requests t = [].
Proof.
  unfold _executeHTTPQuery, request_of, url_of, url_host,
    _notify_progress_start_query.
  run_M.
  assert (Hurl :
    (if truthy (_user c)
     then _protocol c +:+ "://" +:+ format_opt (_user c) +:+ "@" +:+
          (if is_ipv6 (rsplit1_head "%" (_host c))
           then "[" +:+ rsplit1_head "%" (_host c) +:+ "]" else _host c)
          +:+ ":" +:+ pretty (_port c) +:+ "/v2" +:+ path
     else _protocol c +:+ "://" +:+
          (if is_ipv6 (rsplit1_head "%" (_host c))
           then "[" +:+ rsplit1_head "%" (_host c) +:+ "]" else _host c)
          +:+ ":" +:+ pretty (_port c) +:+ "/v2" +:+ path)
    = _protocol c +:+ "://" +:+
      (if truthy (_user c) then format_opt (_user c) +:+ "@" else "") +:+
      (if is_ipv6 (rsplit1_head "%" (_host c))
       then "[" +:+ rsplit1_head "%" (_host c) +:+ "]" else _host c)
      +:+ ":" +:+ pretty (_port c) +:+ "/v2" +:+ path).
  { destruct (truthy (_user c)); [|reflexivity]. now rewrite !app_assoc. }
  rewrite Hurl.
  destruct (_addBodyToRequest _ _) as [request body'].
  destruct opts as [dl show ign text tmo]; simpl.
  destruct dl, show, tmo; simpl;
    destruct (_progress_callback c); simpl;
    destruct (truthy text); simpl; eexists; repeat split.
Qed.

Lemma before_last_absent (ch : ascii) (s : string) :
  mem_ascii ch s = false -> before_last ch s = None.
Proof.
  induction s as [|a s IH]; [reflexivity|]. simpl.
  intros H. apply orb_false_iff in H as [Ha Hs]. rewrite (IH Hs).
  rewrite Ascii.eqb_sym. now rewrite Ha.
Qed.

Lemma before_last_app (ch : ascii) (s zone : string) :
  mem_ascii ch zone = false ->
  before_last ch (s +:+ String ch zone) = Some s.
Proof.
  intros Hz. induction s as [|a s IH].
  - simpl. rewrite (before_last_absent _ _ Hz). now rewrite Ascii.eqb_refl.
  - rewrite app_cons. simpl. now rewrite IH.
Qed.

(** [host.rsplit('%', 1)[0]] drops the zone id behind the last [%]. *)
Lemma rsplit1_head_zone (addr zone : string) :
  mem_ascii "%" zone = false ->
  rsplit1_head "%" (addr +:+ "%" +:+ zone) = addr.
Proof.
  intros Hz. unfold rsplit1_head.
  change ("%" +:+ zone) with (String "%" zone).
  now rewrite (before_last_app _ _ _ Hz).
Qed.

Lemma rsplit1_head_no_zone (host : string) :
  mem_ascii "%" host = false -> rsplit1_head "%" host = host.
Proof.
  intros Hz. unfold rsplit1_head. now rewrite (before_last_absent _ _ Hz).
Qed.

Lemma rawHeader_set_header (name : string) (value : bytes)
    (hs : list (string * bytes)) :
  rawHeader name (set_header name value hs) = Some value.
Proof.
  induction hs as [|[n v] hs IH]; simpl.
  - now rewrite String.eqb_refl.
  - destruct (String.eqb n name) eqn:Hn; simpl.
    + now rewrite String.eqb_refl.
    + now rewrite Hn.
Qed.

Lemma rawHeader_set_header_other (name name' : string) (value : bytes)
    (hs : list (string * bytes)) :
  name ≠ name' ->
  rawHeader name' (set_header name value hs) = rawHeader name' hs.
Proof.
  intros Hne. induction hs as [|[n v] hs IH]; simpl.
  - apply String.eqb_neq in Hne. now rewrite Hne.
  - destruct (String.eqb n name) eqn:Hn; simpl.
    + apply String.eqb_eq in Hn. subst n.
      apply String.eqb_neq in Hne. now rewrite Hne.
    + destruct (String.eqb n name'); [reflexivity | exact IH].
Qed.

Lemma req_url_addBody (body : pybody) (request : QNetworkRequest) :
  req_url (fst (_addBodyToRequest body request)) = req_url request.
Proof. destruct body; reflexivity. Qed.

Lemma req_url_request_of (c : HTTPClient) (path : string) (body : pybody) :
  req_url (fst (request_of c path body)) = url_of c path.
Proof.
  unfold request_of. rewrite req_url_addBody. unfold _addAuth.
  destruct (truthy (_user c)); reflexivity.
Qed.

(** C9: the URL of a request is
    [protocol://[user@]host:port/v2path], where for a configured host
    that is an IPv6 address once the zone id behind its last [%] is
    dropped, [host] is that address between brackets, and any other
    configured host is used as it is; the host [fe80::1%eth0] gives
    [[fe80::1]]. *)
Theorem C9_ipv6_host_is_bracketed (method path : string)
    (callback : option callback) (body : pybody) (ctx : context)
    (opts : options) (srv : server) (c : HTTPClient) :
  exists (request : QNetworkRequest) (body' : option QIODevice)
         (c' : HTTPClient) (t : list event) (host : string),
    _executeHTTPQuery method path callback body ctx opts srv c
    = (Ok tt, c', SendCustomRequest method request body' :: t)
    /\ requests t = []
    /\ req_url request
       = _protocol c +:+ "://" +:+
         (if truthy (_user c) then format_opt (_user c) +:+ "@" else "") +:+
         host +:+ ":" +:+ pretty (_port c) +:+ "/v2" +:+ path
    /\ (forall addr zone : string,
          _host c = addr +:+ "%" +:+ zone -> mem_ascii "%" zone = false ->
          is_ipv6 addr = true -> host = "[" +:+ addr +:+ "]")
    /\ (mem_ascii "%" (_host c) = false -> is_ipv6 (_host c) = true ->
        host = "[" +:+ _host c +:+ "]")
    /\ (is_ipv6 (rsplit1_head "%" (_host c)) = false -> host = _host c)
    /\ (_host c = "fe80::1%eth0" -> is_ipv6 "fe80::1" = true ->
        host = "[fe80::1]").
Proof.
  destruct (_executeHTTPQuery_run method path callback body ctx opts srv c)
    as (t & Hrun & _ & Hreq).
  eexists _, _, _, _, (url_host c). split; [exact Hrun|].
  split; [simpl; exact Hreq|].
  split; [apply req_url_request_of|].
  unfold url_host. repeat split.
  - intros addr zone Hhost Hzone Hip.
    now rewrite Hhost, (rsplit1_head_zone _ _ Hzone), Hip.
  - intros Hzone Hip. now rewrite (rsplit1_head_no_zone _ Hzone), Hip.
  - intros Hip. now rewrite Hip.
  - intros Hhost Hip. rewrite Hhost.
    change (rsplit1_head "%" "fe80::1%eth0") with "fe80::1". now rewrite Hip.
Qed.

(** The headers and the payload of a request whose body is a mapping. *)
Lemma request_of_dict (c : HTTPClient) (path : string) (d : dict) :
  snd (request_of c path (BodyDict d))
  = Some (QBuffer (utf8_encode (json_dumps (JObj d))))
  /\ rawHeader "Content-Type" (rawHeaders (fst (request_of c path (BodyDict d))))
     = Some (b "application/json")
  /\ rawHeader "Content-Length"
       (rawHeaders (fst (request_of c path (BodyDict d))))
     = Some (utf8_encode (pretty (String.length (json_dumps (JObj d))))).
Proof.
  unfold request_of, _addBodyToRequest. simpl. split; [reflexivity|]. split.
  - rewrite rawHeader_set_header_other by discriminate.
    apply rawHeader_set_header.
  - apply rawHeader_set_header.
Qed.

(** For a body that is a mapping [d], [_addBodyToRequest] gives a buffer
    that holds the UTF-8 encoding of [json.dumps(d)], sets [Content-Type]
    to [application/json] and [Content-Length] to the decimal length of
    [json.dumps(d)].  Where [json.loads] gives [d] back from
    [json.dumps(d)], and the text has one byte per character and decodes
    to itself, the payload decodes to [d] and [Content-Length] is its
    length in bytes. *)
Lemma _addBodyToRequest_dict (d : dict) (request : QNetworkRequest) :
  json_loads (json_dumps (JObj d)) = Some (JObj d) ->
  utf8_decode (utf8_encode (json_dumps (JObj d))) = Some (json_dumps (JObj d)) ->
  length (utf8_encode (json_dumps (JObj d))) = String.length (json_dumps (JObj d)) ->
  exists (request' : QNetworkRequest) (data : bytes),
    _addBodyToRequest (BodyDict d) request = (request', Some (QBuffer data))
    /\ (utf8_decode data ≫= json_loads) = Some (JObj d)
    /\ rawHeader "Content-Type" (rawHeaders request') = Some (b "application/json")
    /\ rawHeader "Content-Length" (rawHeaders request')
       = Some (utf8_encode (pretty (length data))).
Proof.
  intros Hloads Hdecode Hlen. eexists _, _. split; [reflexivity|].
  split; [|split].
  - rewrite Hdecode. exact Hloads.
  - simpl. rewrite rawHeader_set_header_other by discriminate.
    apply rawHeader_set_header.
  - simpl. rewrite Hlen. apply rawHeader_set_header.
Qed.
End Dispatcher.

(** * The handshake *)

Section Handshake.
Context {E : Env}.

(** The call that tells the caller the server is not a GNS3 server. *)
Definition protocol_mismatch (c : HTTPClient) (cb : string) (srv : server)
  : event :=
  Callback cb
    (message ("The remote server " +:+ url c +:+ " is not a GNS3 server"))
    true srv None None.

(** The call that tells the caller the versions differ. *)
Definition version_mismatch (cb : string) (version : json) (srv : server)
  : event :=
  Callback cb
    (message ("Client version " +:+ __version__ +:+
              " differs with server version " +:+ py_str version))
    true srv None None.

(** The handshake went through: the client is connected and the query has
    been handed to the network manager, without a call of the callback. *)
Definition connects (q : query) (srv : server) (c : HTTPClient)
    (out : res unit * HTTPClient * list event) : Prop :=
  exists t : list event,
    out = (Ok tt, set_uuid_calls (S (uuid_calls c)) (set_connected true c),
           ConnectionConnected
           :: SendCustomRequest (q_method q)
                (fst (request_of (set_connected true c) (q_path q) (q_body q)))
                (snd (request_of (set_connected true c) (q_path q) (q_body q)))
           :: t)
    /\ callbacks t = [].

Lemma connects_connected q srv c out :
  connects q srv c out -> _connected (snd (fst out)) = true.
Proof. intros (t & -> & _). reflexivity. Qed.

Lemma connects_no_callback q srv c out :
  connects q srv c out -> callbacks (snd out) = [].
Proof. intros (t & -> & H). exact H. Qed.

(** [_callbackConnect] on a decoded body that is a mapping, by cases. *)
Lemma _callbackConnect_lacks_field (q : query) (d : dict) (cb : string)
    (srv : server) (c : HTTPClient) :
  q_callback q = Some cb ->
  dict_has "version" d = false \/ dict_has "local" d = false ->
  _callbackConnect q (JObj d) false srv c
  = (Ok tt, c, [protocol_mismatch c cb srv]).
Proof.
  intros Hcb Hlack. unfold _callbackConnect, py_contains. run_M. rewrite Hcb.
  destruct (dict_has "version" d); [|reflexivity].
  destruct Hlack as [Hlack|Hlack]; [discriminate|]. now rewrite Hlack.
Qed.

Lemma _callbackConnect_refuses (q : query) (d : dict) (version : json)
    (cb : string) (srv : server) (c : HTTPClient) (stable : Z) :
  q_callback q = Some cb ->
  dict_get "version" d = Some version ->
  dict_has "local" d = true ->
  py_ne_str version __version__ = true ->
  __version_info__ !! 3%nat = Some stable ->
  stable = 0
  \/ (exists sv, version = JStr sv
                 /\ take 2 (parse_version __version__) ≠ take 2 (parse_version sv)) ->
  _callbackConnect q (JObj d) false srv c
  = (Ok tt, c, [version_mismatch cb version srv]).
Proof.
  intros Hcb Hv Hl Hne Hinfo Hwhy.
  unfold _callbackConnect, py_contains, py_getitem, dict_has. run_M.
  rewrite Hcb. unfold dict_has in Hl. rewrite Hv. simpl.
  destruct (dict_get "local" d); [|discriminate]. simpl.
  rewrite Hne, Hinfo.
  destruct (decide (stable = 0)) as [H0|H0].
  - rewrite (bool_decide_eq_true_2 _ H0). reflexivity.
  - rewrite (bool_decide_eq_false_2 _ H0).
    destruct Hwhy as [?|(sv & -> & Hdiff)]; [contradiction|].
    rewrite (bool_decide_eq_true_2 _ Hdiff). reflexivity.
Qed.

Lemma _callbackConnect_connects (q : query) (d : dict) (sv : string)
    (srv : server) (c : HTTPClient) :
  dict_get "version" d = Some (JStr sv) ->
  dict_has "local" d = true ->
  sv = __version__
  \/ (exists stable, __version_info__ !! 3%nat = Some stable /\ stable ≠ 0
                     /\ take 2 (parse_version __version__)
                        = take 2 (parse_version sv)) ->
  connects q srv c (_callbackConnect q (JObj d) false srv c).
Proof.
  intros Hv Hl Hwhy.
  destruct (_executeHTTPQuery_run (q_method q) (q_path q)
              (UserCallback <$> q_callback q) (q_body q) (q_context q)
              (q_options q) srv (set_connected true c)) as (t & Hrun & Ht & _).
  unfold connects.
  exists (FinishedConnect
            {| p_server := srv;
               p_callback := UserCallback <$> q_callback q;
               p_context := <["query_id" := uuid4 (uuid_calls c)]> (q_context q);
               p_body := snd (request_of (set_connected true c) (q_path q)
                                (q_body q));
               p_ignore_errors := ignoreErrors (q_options q) |} :: t).
  split; [|exact Ht].
  unfold _callbackConnect, py_contains, py_getitem, dict_has.
  unfold dict_has in Hl. rewrite Hv.
  destruct (dict_get "local" d); [|discriminate].
  run_M. simpl.
  destruct Hwhy as [->|(stable & Hinfo & H0 & Hsame)].
  - rewrite String.eqb_refl. simpl. rewrite Hrun. reflexivity.
  - destruct (negb (sv =? __version__)%string).
    + rewrite Hinfo, (bool_decide_eq_false_2 _ H0).
      rewrite bool_decide_eq_false_2 by (intros H; now apply H).
      simpl. rewrite Hrun. reflexivity.
    + simpl. rewrite Hrun. reflexivity.
Qed.

(** C2: the version test of the handshake, on a decoded body with the
    fields [version] and [local], for a client version and a server
    version [sv]: equal strings connect without a version mismatch; on a
    stable build (fourth component 0) any difference is answered by the
    version mismatch and the method returns; a difference in the first two
    parsed components is answered by the version mismatch on any build;
    on a build that is not stable, strings that differ with the same
    first two parsed components connect without a version mismatch. *)
Theorem C2_version_comparison (q : query) (d : dict) (sv cb : string)
    (srv : server) (c : HTTPClient) :
  q_callback q = Some cb ->
  dict_get "version" d = Some (JStr sv) ->
  dict_has "local" d = true ->
  let out := _callbackConnect q (JObj d) false srv c in
  let refused := out = (Ok tt, c, [version_mismatch cb (JStr sv) srv]) in
  let accepted := connects q srv c out /\ callbacks (snd out) = [] in
  (sv = __version__ -> accepted)
  /\ (__version_info__ !! 3%nat = Some 0 -> sv ≠ __version__ -> refused)
  /\ (is_Some (__version_info__ !! 3%nat) ->
      take 2 (parse_version __version__) ≠ take 2 (parse_version sv) -> refused)
  /\ (forall stable : Z,
        __version_info__ !! 3%nat = Some stable -> stable ≠ 0 ->
        sv ≠ __version__ ->
        take 2 (parse_version __version__) = take 2 (parse_version sv) ->
        accepted).
Proof.
  intros Hcb Hv Hl out refused accepted. subst out refused accepted.
  assert (Hne : forall s, s ≠ __version__ -> py_ne_str (JStr s) __version__ = true).
  { intros s Hs. simpl. apply negb_true_iff. now apply String.eqb_neq. }
  assert (Hacc : forall out, connects q srv c out ->
                 connects q srv c out /\ callbacks (snd out) = []).
  { intros out H. split; [exact H | exact (connects_no_callback q srv c out H)]. }
  split; [|split; [|split]].
  - intros ->. apply Hacc.
    apply (_callbackConnect_connects q d __version__); auto.
  - intros Hinfo Hdiff.
    apply (_callbackConnect_refuses q d (JStr sv) cb srv c 0); auto.
  - intros [stable Hinfo] Hdiff.
    apply (_callbackConnect_refuses q d (JStr sv) cb srv c stable); eauto.
    apply Hne. intros ->. now apply Hdiff.
  - intros stable Hinfo H0 Hs Hsame. apply Hacc.
    apply (_callbackConnect_connects q d sv); eauto.
Qed.

(** C7: on a decoded body that is a mapping, the handshake answers that
    the server is not a GNS3 server, and returns, exactly when the body
    lacks the field [version] or lacks the field [local]. *)
Theorem C7_protocol_mismatch_iff_a_field_is_missing (q : query) (d : dict)
    (cb : string) (srv : server) (c : HTTPClient) :
  q_callback q = Some cb ->
  _callbackConnect q (JObj d) false srv c
  = (Ok tt, c, [protocol_mismatch c cb srv])
  <-> dict_has "version" d = false \/ dict_has "local" d = false.
Proof.
  intros Hcb. split; [|now apply _callbackConnect_lacks_field].
  destruct (dict_has "version" d) eqn:Hv; [|auto].
  destruct (dict_has "local" d) eqn:Hl; [|auto].
  intros Hout. exfalso. revert Hout.
  unfold dict_has in Hv. destruct (dict_get "version" d) as [v|] eqn:Hgv;
    [clear Hv|discriminate].
  destruct (py_ne_str v __version__) eqn:Hne.
  - destruct (__version_info__ !! 3%nat) as [stable|] eqn:Hinfo.
    + destruct (decide (stable = 0)) as [H0|H0].
      { rewrite (_callbackConnect_refuses q d v cb srv c stable); auto.
        unfold protocol_mismatch, version_mismatch, message. intros H.
        injection H as H. discriminate H. }
      destruct v as [| | | |sv| |];
        try (unfold _callbackConnect, py_contains, py_getitem, dict_has;
             rewrite Hgv; unfold dict_has in Hl;
             destruct (dict_get "local" d); [|discriminate Hl];
             run_M; simpl; rewrite Hinfo, (bool_decide_eq_false_2 _ H0);
             discriminate).
      destruct (decide (take 2 (parse_version __version__)
                        = take 2 (parse_version sv))) as [Hsame|Hdiff].
      * destruct (_callbackConnect_connects q d sv srv c Hgv Hl)
          as (t & -> & _); [right; eauto|]. discriminate.
      * rewrite (_callbackConnect_refuses q d (JStr sv) cb srv c stable); eauto.
        unfold protocol_mismatch, version_mismatch, message. intros H.
        injection H as H. discriminate H.
    + unfold _callbackConnect, py_contains, py_getitem, dict_has.
      rewrite Hgv. unfold dict_has in Hl.
      destruct (dict_get "local" d); [|discriminate Hl].
      run_M. simpl. rewrite Hne, Hinfo. discriminate.
  - destruct v as [| | | |sv| |]; try discriminate Hne.
    simpl in Hne. apply negb_false_iff, String.eqb_eq in Hne. subst sv.
    destruct (_callbackConnect_connects q d __version__ srv c Hgv Hl)
      as (t & -> & _); [now left|]. discriminate.
Qed.

(** Whatever the answer to [/version], [_callbackConnect] hands to the
    network manager nothing or the query it holds. *)
Lemma _callbackConnect_requests (q : query) (params : json) (err : bool)
    (srv : server) (c : HTTPClient) :
  requests (snd (_callbackConnect q params err srv c)) = []
  \/ requests (snd (_callbackConnect q params err srv c))
     = [SendCustomRequest (q_method q)
          (fst (request_of (set_connected true c) (q_path q) (q_body q)))
          (snd (request_of (set_connected true c) (q_path q) (q_body q)))].
Proof.
  destruct (_executeHTTPQuery_run (q_method q) (q_path q)
              (UserCallback <$> q_callback q) (q_body q) (q_context q)
              (q_options q) srv (set_connected true c)) as (t & Hrun & _ & Hreq).
  unfold _callbackConnect, _connectionError, py_contains, py_getitem.
  run_M.
  destruct err; [destruct (q_callback q); simpl; auto|].
  destruct params as [| | | |s|l|d]; simpl; auto.
  - destruct (contains "version" s); simpl; [|destruct (q_callback q); simpl; auto].
    destruct (contains "local" s); simpl; destruct (q_callback q); simpl; auto.
  - destruct (existsb _ l); simpl; [|destruct (q_callback q); simpl; auto].
    destruct (existsb _ l); simpl; destruct (q_callback q); simpl; auto.
  - destruct (dict_has "version" d) eqn:Hv; simpl;
      [|destruct (q_callback q); simpl; auto].
    destruct (dict_has "local" d); simpl; [|destruct (q_callback q); simpl; auto].
    unfold dict_has in Hv. destruct (dict_get "version" d) as [v|]; [|discriminate].
    simpl.
    destruct (py_ne_str v __version__); simpl.
    + destruct (__version_info__ !! 3%nat) as [stable|]; simpl; auto.
      destruct (bool_decide (stable = 0)); simpl;
        [destruct (q_callback q); simpl; auto|].
      destruct v; simpl; auto.
      destruct (bool_decide _); simpl; [destruct (q_callback q); simpl; auto|].
      rewrite Hrun. simpl. rewrite Hreq. auto.
    + rewrite Hrun. simpl. rewrite Hreq. auto.
Qed.
End Handshake.

(** * The default body of a query *)

Section DefaultBody.
Context {E : Env}.

(** A request sent with the empty mapping as body: the payload [{}],
    [Content-Type: application/json] and [Content-Length: 2]. *)
Definition empty_mapping_sent (e : event) : Prop :=
  match e with
  | SendCustomRequest _ request body =>
      body = Some (QBuffer (b "{}"))
      /\ rawHeader "Content-Type" (rawHeaders request) = Some (b "application/json")
      /\ rawHeader "Content-Length" (rawHeaders request) = Some (b "2")
  | _ => True
  end.

Lemma request_of_empty_mapping (c : HTTPClient) (method path : string) :
  json_dumps (JObj []) = "{}" ->
  utf8_encode "{}" = b "{}" ->
  utf8_encode "2" = b "2" ->
  empty_mapping_sent
    (SendCustomRequest method (fst (request_of c path (BodyDict [])))
       (snd (request_of c path (BodyDict [])))).
Proof.
  intros Hdumps Hbody Hlen.
  destruct (request_of_dict c path []) as (Hb & Hct & Hcl).
  unfold empty_mapping_sent. rewrite Hb, Hct, Hcl, Hdumps, Hbody.
  change (pretty (String.length "{}")) with "2". now rewrite Hlen.
Qed.

(** C10: [createHTTPQuery] called without [body] sends the empty mapping.
    On a connected client the query goes to the network manager with the
    payload [{}], [Content-Type: application/json] and
    [Content-Length: 2].  On a client that is not connected the query is
    kept, with the empty mapping as body, behind the request for
    [/version]; whatever the answer, a request sent then carries the same
    payload and headers, and the query is sent when the answer has the
    fields [version] and [local] and the version of the client. *)
Theorem C10_omitted_body_is_the_empty_mapping (method path : string)
    (callback : option string) (ctx : option context) (opts : options)
    (srv : server) (c : HTTPClient) :
  json_dumps (JObj []) = "{}" ->
  utf8_encode "{}" = b "{}" ->
  utf8_encode "2" = b "2" ->
  (_connected c = true ->
   exists (request : QNetworkRequest) (body : option QIODevice)
          (c' : HTTPClient) (t : list event),
     createHTTPQuery method path callback None ctx opts srv c
     = (Ok tt, c', SendCustomRequest method request body :: t)
     /\ requests t = []
     /\ empty_mapping_sent (SendCustomRequest method request body))
  /\ (_connected c = false ->
      exists (q : query) (p : pending) (bootstrap : event) (c' : HTTPClient)
             (t : list event),
        createHTTPQuery method path callback None ctx opts srv c
        = (Ok tt, c', bootstrap :: FinishedConnect p :: t)
        /\ requests t = []
        /\ empty_mapping_sent bootstrap
        /\ p_callback p = Some (ConnectCallback q)
        /\ q_method q = method /\ q_path q = path /\ q_body q = BodyDict []
        /\ (forall (params : json) (err : bool) (srv' : server) (c1 : HTTPClient),
              Forall empty_mapping_sent
                (requests (snd (_callbackConnect q params err srv' c1))))
        /\ (forall (d : dict) (srv' : server) (c1 : HTTPClient),
              dict_get "version" d = Some (JStr __version__) ->
              dict_has "local" d = true ->
              exists sent : event,
                requests (snd (_callbackConnect q (JObj d) false srv' c1)) = [sent]
                /\ sent = SendCustomRequest method
                            (fst (request_of (set_connected true c1) path (BodyDict [])))
                            (snd (request_of (set_connected true c1) path (BodyDict []))))).
Proof.
  intros Hdumps Hbody Hlen. split; intros Hconn.
  - unfold createHTTPQuery. run_M. rewrite Hconn. simpl.
    destruct (_executeHTTPQuery_run method path (UserCallback <$> callback)
                (BodyDict []) (default ∅ ctx) opts srv c) as (t & -> & _ & Hreq).
    eexists _, _, _, _. split; [reflexivity|]. split; [exact Hreq|].
    now apply request_of_empty_mapping.
  - unfold createHTTPQuery, _connect. run_M. rewrite Hconn. simpl.
    match goal with |- context [_executeHTTPQuery ?m ?pa ?cb ?bo ?cx ?op ?sv c] =>
      destruct (_executeHTTPQuery_run m pa cb bo cx op sv c)
        as (t & -> & _ & Hreq) end.
    eexists _, _, _, _, _. split; [reflexivity|]. split; [exact Hreq|].
    split; [now apply request_of_empty_mapping|].
    split; [reflexivity|]. split; [reflexivity|]. split; [reflexivity|].
    split; [reflexivity|]. split.
    + intros params err srv' c1.
      destruct (_callbackConnect_requests
                  {| q_method := method; q_path := path; q_callback := callback;
                     q_body := BodyDict []; q_context := default ∅ ctx;
                     q_options := opts; q_server := srv |} params err srv' c1)
        as [-> | ->]; [constructor|].
      constructor; [|constructor]. now apply request_of_empty_mapping.
    + intros d srv' c1 Hv Hl.
      destruct (_callbackConnect_connects
                  {| q_method := method; q_path := path; q_callback := callback;
                     q_body := BodyDict []; q_context := default ∅ ctx;
                     q_options := opts; q_server := srv |} d __version__ srv' c1
                  Hv Hl) as (t' & Hout & Ht'); [now left|].
      eexists. split; [|reflexivity].
      destruct (_callbackConnect_requests
                  {| q_method := method; q_path := path; q_callback := callback;
                     q_body := BodyDict []; q_context := default ∅ ctx;
                     q_options := opts; q_server := srv |} (JObj d) false srv' c1)
        as [Hnone | Hone]; [|exact Hone].
      rewrite Hout in Hnone. discriminate Hnone.
Qed.
End DefaultBody.

(** * The streaming decoder *)

Section Streaming.
Context {E : Env}.

(** What the decoder of the library guarantees: it finds no value in the
    empty text, and a value it finds takes at least one character. *)
Definition decoder_progress : Prop :=
  raw_decode "" = None
  /\ forall (s : string) (v : json) (i : nat),
       raw_decode s = Some (v, i) -> (0 < i)%nat.

(** A decode pass over [content]: the answers decoded from its front and
    the content the loop stops at. *)
Inductive scans : string -> list json -> string -> Prop :=
| scans_stop (content : string) :
    raw_decode (lstrip feed_whitespace content) = None ->
    scans content [] (lstrip feed_whitespace content)
| scans_step (content : string) (answer : json) (index : nat)
    (answers : list json) (rest : string) :
    raw_decode (lstrip feed_whitespace content) = Some (answer, index) ->
    scans (drop_str index (lstrip feed_whitespace content)) answers rest ->
    scans content (answer :: answers) rest.

Lemma scans_rest (content : string) (answers : list json) (rest : string) :
  scans content answers rest ->
  raw_decode rest = None /\ lstrip feed_whitespace rest = rest.
Proof.
  induction 1 as [content H|]; [|assumption].
  split; [exact H | apply lstrip_idem].
Qed.

Lemma scans_length (content : string) (answers : list json) (rest : string) :
  decoder_progress ->
  scans content answers rest ->
  (length answers + String.length rest <= String.length content)%nat.
Proof.
  intros [Hnil Hpos]. induction 1 as [content H|content answer index answers rest H Hs IH].
  - simpl. apply length_lstrip.
  - simpl. pose proof (Hpos _ _ _ H) as Hi.
    pose proof (length_lstrip feed_whitespace content) as Hl.
    rewrite length_drop_str in IH.
    destruct (lstrip feed_whitespace content) as [|x s'] eqn:Hc; [congruence|].
    simpl in *. lia.
Qed.

Lemma scans_total (content : string) :
  decoder_progress ->
  exists (answers : list json) (rest : string), scans content answers rest.
Proof.
  intros [Hnil Hpos].
  remember (String.length content) as n eqn:Hn.
  revert content Hn. induction n as [n IH] using lt_wf_ind. intros content ->.
  destruct (raw_decode (lstrip feed_whitespace content)) as [[answer index]|] eqn:H.
  - pose proof (Hpos _ _ _ H) as Hi.
    pose proof (length_lstrip feed_whitespace content) as Hl.
    destruct (lstrip feed_whitespace content) as [|x s'] eqn:Hc; [congruence|].
    destruct (IH (String.length (drop_str index (String x s')))) with
      (content := drop_str index (String x s')) as (answers & rest & Hs).
    { rewrite length_drop_str. simpl in *. lia. }
    { reflexivity. }
    exists (answer :: answers), rest. apply scans_step with index; rewrite Hc; auto.
  - exists [], (lstrip feed_whitespace content). now apply scans_stop.
Qed.

(** The events of the answers of a decode pass. *)
Definition answered (callback : string) (srv : server) (ctx : context)
    (answers : list json) : list event :=
  map (fun answer => DownloadCallback callback (inl answer) srv ctx) answers.

Lemma downloads_app (t1 t2 : list event) :
  downloads (t1 ++ t2) = downloads t1 ++ downloads t2.
Proof.
  induction t1 as [|e t1 IH]; [reflexivity|].
  destruct e; simpl; rewrite ?IH; reflexivity.
Qed.

Lemma downloads_answered (callback : string) (srv : server) (ctx : context)
    (answers : list json) :
  downloads (answered callback srv ctx answers) = map inl answers.
Proof. induction answers as [|a l IH]; simpl; [reflexivity | now rewrite IH]. Qed.

(** With fuel for its answers the loop is the decode pass. *)
Lemma decode_loop_scans (callback : string) (srv : server) (ctx : context)
    (content : string) (answers : list json) (rest : string) :
  scans content answers rest ->
  forall (fuel : nat) (c : HTTPClient),
    (length answers <= fuel)%nat ->
    decode_loop fuel callback srv ctx content c
    = (Ok rest, c, answered callback srv ctx answers).
Proof.
  induction 1 as [content H|content answer index answers rest H Hs IH];
    intros fuel c Hfuel.
  - destruct fuel; simpl; rewrite H; reflexivity.
  - destruct fuel as [|fuel]; [simpl in Hfuel; lia|].
    simpl. rewrite H. run_M. rewrite IH by (simpl in Hfuel; lia). reflexivity.
Qed.

(** A chunk of a reply that the decoder takes as JSON. *)
Definition decodes (response : QNetworkReply) (text : string) : Prop :=
  error response = NoError
  /\ HttpStatusCodeAttribute response < 300
  /\ is_json (ContentTypeHeader response) = true
  /\ utf8_decode (readAll response) = Some text.

(** The step of the decoder on such a chunk: the decode pass over the
    buffered fragment and the chunk, whose remainder is stored. *)
Lemma _processDownloadProgress_decodes (response : QNetworkReply)
    (text : string) (callback : string) (ctx : context) (srv : server)
    (c : HTTPClient) (query_id : string) (answers : list json) (rest : string) :
  decoder_progress ->
  decodes response text ->
  ctx !! "query_id" = Some query_id ->
  scans (default "" (_buffer c !! query_id) +:+ text) answers rest ->
  exists t : list event,
    _processDownloadProgress response callback ctx srv c
    = (Ok tt, set_buffer (<[query_id := rest]> (_buffer c)) c, t)
    /\ downloads t = map inl answers.
Proof.
  intros Hprog (Herr & Hstatus & Hjson & Htext) Hq Hs.
  pose proof (scans_length _ _ _ Hprog Hs) as Hlen.
  unfold _processDownloadProgress.
  rewrite bool_decide_eq_false_2 by (intros H; now apply H).
  rewrite bool_decide_eq_false_2 by lia.
  rewrite Hjson, Htext, Hq. run_M.
  assert (Hcontent :
    match _buffer c !! query_id with
    | Some buffered => buffered +:+ text
    | None => text
    end = default "" (_buffer c !! query_id) +:+ text).
  { destruct (_buffer c !! query_id); reflexivity. }
  rewrite Hcontent.
  rewrite (decode_loop_scans _ _ _ _ _ _ Hs) by lia.
  simpl. destruct (bool_decide (_progress_callback c = Some true)); simpl;
    eexists; (split; [reflexivity|]);
    rewrite ?List.app_nil_r, ?downloads_app, downloads_answered;
    simpl; now rewrite ?List.app_nil_r.
Qed.

(** The fragments that a decode pass leaves: the decoder finds no value
    in them and they do not start with whitespace.  The empty text is
    one. *)
Definition undecoded (fragment : string) : Prop :=
  raw_decode fragment = None /\ lstrip feed_whitespace fragment = fragment.

(** C8: a step of the streaming decoder on a chunk returns or raises, and
    never deletes an entry of the buffer.  On a chunk that it decodes it
    stores, under the query id, what the decode pass over the buffered
    fragment and the chunk leaves undecoded, the empty text when nothing
    is left; on any other chunk it leaves the buffer as it is.  So a
    buffer that holds undecoded fragments holds undecoded fragments after
    the step. *)
Theorem C8_buffer_entry_is_written_and_kept (response : QNetworkReply)
    (callback : string) (ctx : context) (srv : server) (c : HTTPClient) :
  decoder_progress ->
  exists (r : res unit) (c' : HTTPClient) (t : list event),
    _processDownloadProgress response callback ctx srv c = (r, c', t)
    /\ is_Exception (match r with Raise e => e | Ok _ => TypeError end) = true
    /\ (forall k : string, is_Some (_buffer c !! k) -> is_Some (_buffer c' !! k))
    /\ (forall (text query_id : string),
          decodes response text -> ctx !! "query_id" = Some query_id ->
          r = Ok tt
          /\ exists (answers : list json) (rest : string),
               scans (default "" (_buffer c !! query_id) +:+ text) answers rest
               /\ downloads t = map inl answers
               /\ undecoded rest
               /\ _buffer c' = <[query_id := rest]> (_buffer c))
    /\ ((forall text : string, ~ decodes response text) -> _buffer c' = _buffer c)
    /\ ((forall k fragment, _buffer c !! k = Some fragment -> undecoded fragment) ->
        forall k fragment, _buffer c' !! k = Some fragment -> undecoded fragment).
Proof.
  intros Hprog.
  destruct (decide (error response = NoError)) as [Herr|Herr].
  2: { exists (Ok tt), c, []. unfold _processDownloadProgress.
       rewrite (bool_decide_eq_true_2 _ Herr).
       split; [reflexivity|]. split; [reflexivity|]. split; [auto|].
       split; [intros text q (H & _); contradiction|]. split; auto. }
  destruct (decide (300 ≤ HttpStatusCodeAttribute response)) as [Hst|Hst].
  { exists (Ok tt), c, []. unfold _processDownloadProgress.
    rewrite bool_decide_eq_false_2 by (intros H; now apply H).
    rewrite (bool_decide_eq_true_2 _ Hst).
    split; [reflexivity|]. split; [reflexivity|]. split; [auto|].
    split; [intros text q (_ & H & _); lia|]. split; auto. }
  destruct (is_json (ContentTypeHeader response)) eqn:Hjson.
  2: { unfold _processDownloadProgress.
       rewrite bool_decide_eq_false_2 by (intros H; now apply H).
       rewrite (bool_decide_eq_false_2 _ Hst), Hjson. run_M. simpl.
       destruct (bool_decide (_progress_callback c = Some true));
         eexists (Ok tt), c, _; (split; [reflexivity|]);
         (split; [reflexivity|]); (split; [auto|]);
         (split; [intros text q (_ & _ & H & _); congruence|]); split; auto. }
  destruct (utf8_decode (readAll response)) as [text|] eqn:Htext.
  2: { exists (Raise UnicodeDecodeError), c, []. unfold _processDownloadProgress.
       rewrite bool_decide_eq_false_2 by (intros H; now apply H).
       rewrite (bool_decide_eq_false_2 _ Hst), Hjson, Htext.
       split; [reflexivity|]. split; [reflexivity|]. split; [auto|].
       split; [intros text q (_ & _ & _ & H); congruence|]. split; auto. }
  destruct (ctx !! "query_id") as [query_id|] eqn:Hq.
  2: { exists (Raise (KeyError "query_id")), c, []. unfold _processDownloadProgress.
       rewrite bool_decide_eq_false_2 by (intros H; now apply H).
       rewrite (bool_decide_eq_false_2 _ Hst), Hjson, Htext, Hq.
       split; [reflexivity|]. split; [reflexivity|]. split; [auto|].
       split; [intros text' q _ H; discriminate|]. split; [|auto].
       intros H. exfalso. apply (H text). repeat split; auto. lia. }
  assert (Hdec : decodes response text) by (repeat split; auto; lia).
  destruct (scans_total (default "" (_buffer c !! query_id) +:+ text) Hprog)
    as (answers & rest & Hs).
  destruct (_processDownloadProgress_decodes response text callback ctx srv c
              query_id answers rest Hprog Hdec Hq Hs) as (t & Hrun & Ht).
  exists (Ok tt), (set_buffer (<[query_id := rest]> (_buffer c)) c), t.
  split; [exact Hrun|]. split; [reflexivity|]. simpl.
  split; [|split; [|split]].
  - intros k Hk. destruct (decide (query_id = k)) as [->|Hne].
    + rewrite lookup_insert_eq. eauto.
    + now rewrite lookup_insert_ne.
  - intros text' q' (_ & _ & _ & Ht') Hq'. simplify_eq.
    split; [reflexivity|]. exists answers, rest.
    split; [exact Hs|]. split; [exact Ht|].
    split; [exact (scans_rest _ _ _ Hs) | reflexivity].
  - intros H. exfalso. exact (H text Hdec).
  - intros Hinv k fragment. destruct (decide (query_id = k)) as [->|Hne].
    + rewrite lookup_insert_eq. intros [= <-]. exact (scans_rest _ _ _ Hs).
    + rewrite lookup_insert_ne by exact Hne. apply Hinv.
Qed.

(** ** Fragmentation *)

(** A text that the decoder reads as [value] whatever follows it, and in
    no proper prefix of which it finds a value. *)
Definition self_delimiting (text : string) (value : json) : Prop :=
  starts_value feed_whitespace text
  /\ (forall rest : string,
        raw_decode (text +:+ rest) = Some (value, String.length text))
  /\ (forall p q : string, text = p +:+ q -> q ≠ "" -> raw_decode p = None).

(** A value of the feed: the whitespace before it, its text, the value. *)
Abbreviation item := (string * string * json)%type.
Definition item_value (it : item) : json := snd it.

Definition item_ok (it : item) : Prop :=
  blank feed_whitespace (fst (fst it))
  /\ self_delimiting (snd (fst it)) (snd it).

(** The text of a feed: its values, then [tail]. *)
Fixpoint stream (items : list item) (tail : string) : string :=
  match items with
  | [] => tail
  | (w, text, _) :: items' => w +:+ text +:+ stream items' tail
  end.

Lemma stream_app (l1 l2 : list item) (tail : string) :
  stream (l1 ++ l2) tail = stream l1 (stream l2 tail).
Proof.
  induction l1 as [|[[w text] v] l1 IH]; [reflexivity|].
  simpl. now rewrite IH.
Qed.

Lemma stream_tail_app (l : list item) (tail s : string) :
  stream l tail +:+ s = stream l (tail +:+ s).
Proof.
  induction l as [|[[w text] v] l IH]; [reflexivity|].
  simpl. now rewrite !app_assoc, IH.
Qed.

Lemma stream_inj (l : list item) (x y : string) :
  stream l x = stream l y -> x = y.
Proof.
  induction l as [|[[w text] v] l IH]; [auto|].
  simpl. intros H. apply IH.
  apply (inj (String.append text)). now apply (inj (String.append w)).
Qed.

(** Where a decode pass stands in a feed of which it has read [read]:
    behind [n] values with nothing kept, or inside the text of the value
    after them, of which it keeps the part [rest] read so far. *)
Definition stands (items : list item) (read : string) (n : nat)
    (rest : string) : Prop :=
  (rest = "" /\ exists w : string,
      blank feed_whitespace w /\ read = stream (take n items) w)
  \/ (rest ≠ "" /\ exists (w text more : string) (v : json),
        items !! n = Some (w, text, v)
        /\ text = rest +:+ more /\ more ≠ ""
        /\ read = stream (take n items) (w +:+ rest)).

(** A decode pass over a part of a feed, behind whitespace [w]. *)
Lemma scans_prefix (items : list item) (tail : string) :
  decoder_progress ->
  Forall item_ok items -> blank feed_whitespace tail ->
  forall w content more : string,
    blank feed_whitespace w ->
    w +:+ content +:+ more = stream items tail ->
    exists (n : nat) (rest : string),
      scans content (map item_value (take n items)) rest
      /\ stands items (w +:+ content) n rest.
Proof.
  intros [Hnil Hpos] Hitems Htail.
  induction Hitems as [|[[w0 text0] v0] items [Hw0 (Hstart & Hfull & Hpre)] Hitems IH];
    intros w content more Hw Heq.
  - (* behind the last value *)
    simpl in Heq.
    assert (Hc : blank feed_whitespace content).
    { rewrite <- Heq in Htail. apply blank_app in Htail as [_ H].
      now apply blank_app in H as [H _]. }
    exists 0%nat, "". split.
    + rewrite <- Hc. apply scans_stop. unfold blank in Hc. now rewrite Hc.
    + left. split; [reflexivity|]. exists (w +:+ content).
      split; [apply blank_app; auto | reflexivity].
  - simpl in Heq. simpl in Hw0.
    destruct (lstrip_split feed_whitespace content) as (wc & Hwc & Hcontent).
    destruct (lstrip feed_whitespace content) as [|x c'] eqn:Hc.
    + (* nothing but whitespace *)
      exists 0%nat, "". split.
      * rewrite <- Hc. apply scans_stop. now rewrite Hc.
      * left. split; [reflexivity|]. exists (w +:+ content).
        split; [|reflexivity]. apply blank_app. split; [exact Hw|].
        exact Hc.
    + assert (Hsv : starts_value feed_whitespace (String x c')).
      { rewrite <- Hc. apply lstrip_starts_value. rewrite Hc. discriminate. }
      rewrite Hcontent in Heq. rewrite !app_assoc in Heq.
      rewrite <- (app_assoc w wc) in Heq.
      destruct (blank_prefix_unique feed_whitespace (w +:+ wc) (String x c') more
                  w0 text0 (stream items tail)) as [Hw' Hrest]; auto.
      { apply blank_app. auto. }
      destruct (app_eq_app _ _ _ _ Hrest) as [(m & Hm & Htext) | (m & Hcm & Hmore)].
      * (* inside the first value *)
        exists 0%nat, (String x c'). split.
        -- rewrite <- Hc. apply scans_stop. rewrite Hc. now apply (Hpre _ m).
        -- right. split; [discriminate|]. exists w0, text0, m, v0.
           split; [reflexivity|]. split; [exact Htext|]. split; [exact Hm|].
           simpl. rewrite <- Hw', Hcontent. now rewrite app_assoc.
      * (* behind the first value *)
        destruct (IH "" m more (blank_nil _)) as (n & rest & Hs & Hst).
        { rewrite app_nil_l. now symmetry. }
        exists (S n), rest. split.
        -- simpl. apply scans_step with (String.length text0).
           ++ rewrite Hc, Hcm. apply Hfull.
           ++ rewrite Hc, Hcm, drop_str_app. exact Hs.
        -- assert (Hread : w +:+ content = w0 +:+ text0 +:+ m).
           { rewrite Hcontent, <- Hcm, <- Hw'. now rewrite app_assoc. }
           rewrite Hread. rewrite app_nil_l in Hst.
           destruct Hst as [(-> & w' & Hw'b & Hm') | (Hne & w' & t' & more' & v' & Hl & Ht' & Hmo & Hm')].
           ++ left. split; [reflexivity|]. exists w'. split; [exact Hw'b|].
              simpl. now rewrite Hm'.
           ++ right. split; [exact Hne|]. exists w', t', more', v'.
              split; [exact Hl|]. split; [exact Ht'|]. split; [exact Hmo|].
              simpl. now rewrite Hm'.
Qed.

Lemma stands_read (items : list item) (read : string) (n : nat) (rest : string) :
  Forall item_ok items ->
  stands items read n rest ->
  exists w : string,
    blank feed_whitespace w /\ read = stream (take n items) (w +:+ rest).
Proof.
  intros Hitems [(-> & w & Hw & ->) | (_ & w & text & more & v & Hl & _ & _ & ->)].
  - exists w. now rewrite app_nil_r.
  - exists w. split; [|reflexivity].
    rewrite Forall_forall in Hitems.
    apply (Hitems (w, text, v)). now apply list_elem_of_lookup_2 with n.
Qed.

Lemma stands_shift (items : list item) (n n2 : nat) (read rest : string) :
  stands (drop n items) read n2 rest ->
  stands items (stream (take n items) read) (n + n2) rest.
Proof.
  intros [(-> & w & Hw & ->) | (Hne & w & text & more & v & Hl & Ht & Hm & ->)].
  - left. split; [reflexivity|]. exists w. split; [exact Hw|].
    now rewrite <- stream_app, take_take_drop.
  - right. split; [exact Hne|]. exists w, text, more, v.
    rewrite lookup_drop in Hl. split; [exact Hl|]. split; [exact Ht|].
    split; [exact Hm|]. now rewrite <- stream_app, take_take_drop.
Qed.

(** A decode pass that has read a whole feed stands behind its last
    value. *)
Lemma stands_end (items : list item) (tail : string) (n : nat) (rest : string) :
  Forall item_ok items -> blank feed_whitespace tail ->
  stands items (stream items tail) n rest ->
  drop n items = [].
Proof.
  intros Hitems Htail Hst.
  assert (Hsplit : stream items tail = stream (take n items) (stream (drop n items) tail)).
  { now rewrite <- stream_app, take_drop. }
  destruct Hst as [(-> & w & Hw & Hread) | (Hne & w & text & more & v & Hl & Ht & Hm & Hread)].
  - rewrite Hsplit in Hread. apply stream_inj in Hread.
    destruct (drop n items) as [|[[w1 t1] v1] l] eqn:Hd; [reflexivity|].
    exfalso. simpl in Hread. rewrite <- Hread in Hw.
    apply blank_app in Hw as [_ Hw]. apply blank_app in Hw as [Hw _].
    assert (Hin : item_ok (w1, t1, v1)).
    { rewrite Forall_forall in Hitems. apply Hitems.
      apply (list_elem_of_lookup_2 _ n).
      rewrite <- (Nat.add_0_r n), <- lookup_drop, Hd. reflexivity. }
    destruct Hin as [_ (Hsv & _)]. exact (starts_value_not_blank _ _ Hsv Hw).
  - exfalso. rewrite Hsplit in Hread. apply stream_inj in Hread.
    rewrite (drop_S _ _ _ Hl) in Hread. simpl in Hread.
    apply (inj (String.append w)) in Hread.
    apply (f_equal String.length) in Hread.
    rewrite Ht, !length_app in Hread.
    destruct more; [contradiction|]. simpl in Hread. lia.
Qed.

(** The texts of the chunks, one after the other. *)
Fixpoint joined (texts : list string) : string :=
  match texts with
  | [] => ""
  | text :: texts' => text +:+ joined texts'
  end.

(** The steps of the decoder on the chunks of a reply, in order. *)
Fixpoint deliver (chunks : list QNetworkReply) (callback : string)
    (ctx : context) (srv : server) : M unit :=
  match chunks with
  | [] => ret tt
  | chunk :: chunks' =>
      _processDownloadProgress chunk callback ctx srv ;;
      deliver chunks' callback ctx srv
  end.

Lemma deliver_stands (items : list item) (tail : string) (callback : string)
    (ctx : context) (srv : server) (query_id : string) :
  decoder_progress ->
  Forall item_ok items -> blank feed_whitespace tail ->
  ctx !! "query_id" = Some query_id ->
  forall (chunks : list QNetworkReply) (texts : list string),
    Forall2 decodes chunks texts ->
    forall (read : string) (n : nat) (rest : string) (c : HTTPClient),
      stands items read n rest ->
      read +:+ joined texts = stream items tail ->
      default "" (_buffer c !! query_id) = rest ->
      exists (c' : HTTPClient) (t : list event),
        deliver chunks callback ctx srv c = (Ok tt, c', t)
        /\ downloads t = map inl (map item_value (drop n items)).
Proof.
  intros Hprog Hitems Htail Hq chunks texts Hchunks.
  induction Hchunks as [|chunk text chunks texts Hdec Hchunks IH];
    intros read n rest c Hst Hread Hbuf.
  - simpl in Hread. rewrite app_nil_r in Hread. subst read.
    rewrite (stands_end _ _ _ _ Hitems Htail Hst).
    exists c, []. split; reflexivity.
  - simpl in Hread.
    destruct (stands_read _ _ _ _ Hitems Hst) as (w & Hw & Hr).
    assert (Hsub : w +:+ (rest +:+ text) +:+ joined texts
                   = stream (drop n items) tail).
    { apply (stream_inj (take n items)).
      rewrite <- stream_app, take_drop, <- Hread, Hr, stream_tail_app.
      now rewrite !app_assoc. }
    destruct (scans_prefix (drop n items) tail Hprog
                (Forall_drop _ n _ Hitems) Htail w (rest +:+ text)
                (joined texts) Hw Hsub) as (n2 & rest2 & Hs & Hst2).
    apply stands_shift in Hst2.
    rewrite <- Hbuf in Hs.
    destruct (_processDownloadProgress_decodes chunk text callback ctx srv c
                query_id _ rest2 Hprog Hdec Hq Hs) as (t1 & Hrun & Ht1).
    destruct (IH (stream (take n items) (w +:+ rest +:+ text)) (n + n2)%nat
                rest2 (set_buffer (<[query_id := rest2]> (_buffer c)) c))
      as (c' & t2 & Hrest & Ht2).
    { exact Hst2. }
    { rewrite <- Hread, Hr, <- !stream_tail_app. now rewrite !app_assoc. }
    { simpl. now rewrite lookup_insert_eq. }
    exists c', (t1 ++ t2). split.
    + simpl. rewrite (run_bind _ _ _ _ _ _ Hrun), Hrest. reflexivity.
    + rewrite downloads_app, Ht1, Ht2, <- !map_app. do 2 f_equal.
      rewrite <- drop_drop. apply take_drop.
Qed.

(** C5: a feed of values whose texts are self-delimiting, between
    whitespace, comes as one chunk or cut anywhere into chunks that each
    decode as UTF-8: the decoder, starting without buffered fragment,
    passes the same values to the download callback, each once and in
    the order of the feed. *)
Theorem C5_fragmentation_of_self_delimiting_values (items : list item)
    (tail : string) (whole : QNetworkReply) (chunks : list QNetworkReply)
    (texts : list string) (callback : string) (ctx : context) (srv : server)
    (query_id : string) (c : HTTPClient) :
  decoder_progress ->
  Forall item_ok items -> blank feed_whitespace tail ->
  decodes whole (stream items tail) ->
  Forall2 decodes chunks texts -> joined texts = stream items tail ->
  ctx !! "query_id" = Some query_id -> _buffer c !! query_id = None ->
  exists (c1 c2 : HTTPClient) (t1 t2 : list event),
    deliver [whole] callback ctx srv c = (Ok tt, c1, t1)
    /\ deliver chunks callback ctx srv c = (Ok tt, c2, t2)
    /\ downloads t1 = map inl (map item_value items)
    /\ downloads t2 = downloads t1.
Proof.
  intros Hprog Hitems Htail Hwhole Hchunks Hjoined Hq Hbuf.
  assert (Hstart : stands items "" 0 "").
  { left. split; [reflexivity|]. exists "". split; reflexivity. }
  assert (Hone : Forall2 decodes [whole] [stream items tail]).
  { constructor; [exact Hwhole | constructor]. }
  destruct (deliver_stands items tail callback ctx srv query_id Hprog Hitems
              Htail Hq [whole] [stream items tail] Hone "" 0%nat "" c Hstart)
    as (c1 & t1 & Hrun1 & Ht1).
  { simpl. now rewrite app_nil_r. }
  { now rewrite Hbuf. }
  destruct (deliver_stands items tail callback ctx srv query_id Hprog Hitems
              Htail Hq chunks texts Hchunks "" 0%nat "" c Hstart)
    as (c2 & t2 & Hrun2 & Ht2).
  { exact Hjoined. }
  { now rewrite Hbuf. }
  exists c1, c2, t1, t2. rewrite drop_0 in Ht1, Ht2.
  split; [exact Hrun1|]. split; [exact Hrun2|]. split; [exact Ht1|].
  now rewrite Ht1, Ht2.
Qed.
End Streaming.

(** * The reference decoder

    Each scanner of the reference decoder takes a part of its input, which
    is not empty, and gives back what follows it. *)

Module PyRefFacts.
Import PyRef.

Ltac no_read := let H := fresh in intros ? ? H; discriminate H.

(** [f] reads a part that is not empty from the front of [s]. *)
Definition reads {A} (r : option (A * string)) (s : string) : Prop :=
  forall (a : A) (rest : string),
    r = Some (a, rest) -> exists used : string, used ≠ "" /\ s = used +:+ rest.

Lemma after_prefix_app (lit s rest : string) :
  after_prefix lit s = Some rest -> s = lit +:+ rest.
Proof.
  revert s. induction lit as [|a lit IH]; intros s H.
  - simpl in H. now injection H as ->.
  - destruct s as [|x s]; [discriminate|]. simpl in H.
    destruct (Ascii.eqb a x) eqn:Hx; [|discriminate].
    apply Ascii.eqb_eq in Hx as ->. rewrite app_cons. f_equal. now apply IH.
Qed.

Lemma span_digits_app (s : string) :
  s = fst (span_digits s) +:+ snd (span_digits s).
Proof.
  induction s as [|x s IH]; [reflexivity|]. simpl.
  destruct (is_digit x); [|reflexivity].
  destruct (span_digits s) as [ds r]. simpl in *. rewrite app_cons. now f_equal.
Qed.

Lemma scan_sign_app (s : string) :
  s = fst (scan_sign s) +:+ snd (scan_sign s).
Proof.
  destruct s as [|x s]; [reflexivity|]. unfold scan_sign.
  destruct (Ascii.eqb x "-") eqn:Hx; [|reflexivity].
  apply Ascii.eqb_eq in Hx as ->. reflexivity.
Qed.

Lemma scan_int_reads (s : string) : reads (scan_int s) s.
Proof.
  intros ds rest H. destruct s as [|x s]; [discriminate|].
  unfold scan_int in H. destruct (Ascii.eqb x "0") eqn:Hx.
  - apply Ascii.eqb_eq in Hx as ->. injection H as <- <-.
    exists "0". split; [discriminate | reflexivity].
  - destruct (is_digit x); [|discriminate].
    pose proof (span_digits_app s) as Hs.
    destruct (span_digits s) as [ds' r']. injection H as <- <-.
    exists (String x ds'). split; [discriminate|].
    rewrite app_cons. now f_equal.
Qed.

Lemma reads_intro {A} (r : option (A * string)) (s : string) :
  (forall a rest, r = Some (a, rest) ->
     (String.length rest < String.length s)%nat
     /\ exists used, s = used +:+ rest) ->
  reads r s.
Proof.
  intros H a rest Hr. destruct (H a rest Hr) as (Hlen & used & ->).
  exists used. split; [|reflexivity]. intros ->. rewrite app_nil_l in Hlen. lia.
Qed.

Lemma reads_length {A} (r : option (A * string)) (s : string) (a : A)
    (rest : string) :
  reads r s -> r = Some (a, rest) ->
  (String.length rest < String.length s)%nat.
Proof.
  intros H Hr. destruct (H a rest Hr) as (used & Hne & ->).
  rewrite length_app. destruct used; [contradiction | simpl; lia].
Qed.

(** Reading on behind a part already read. *)
Lemma reads_after {A} (r : option (A * string)) (before s : string) :
  reads r s -> reads r (before +:+ s).
Proof.
  intros H a rest Hr. destruct (H a rest Hr) as (used & Hne & ->).
  exists (before +:+ used). split; [|now rewrite app_assoc].
  destruct before; [exact Hne | discriminate].
Qed.

Lemma skip_ws_after {A} (r : option (A * string)) (s : string) :
  reads r (skip_ws s) -> reads r s.
Proof.
  intros H. destruct (lstrip_split WHITESPACE s) as (w & _ & Hs).
  rewrite Hs. now apply reads_after.
Qed.

Lemma reads_cons {A} (r : option (A * string)) (c : ascii) (s : string) :
  reads r s -> reads r (String c s).
Proof. intros H. now apply (reads_after r (String c "")). Qed.

(** A scanner that takes nothing more gives back its whole input. *)
Lemma reads_here {A} (a : A) (c : ascii) (s : string) :
  reads (Some (a, s)) (String c s).
Proof.
  intros a' rest H. injection H as <- <-.
  exists (String c ""). split; [discriminate | reflexivity].
Qed.

Lemma scan_frac_app (s : string) :
  s = fst (scan_frac s) +:+ snd (scan_frac s).
Proof.
  destruct s as [|x s]; [reflexivity|]. unfold scan_frac.
  destruct (Ascii.eqb x ".") eqn:Hx; [|reflexivity].
  apply Ascii.eqb_eq in Hx as ->.
  pose proof (span_digits_app s) as Hs.
  destruct (span_digits s) as [[|d ds] r]; [reflexivity|].
  simpl in *. rewrite app_cons. now f_equal.
Qed.

Lemma scan_exp_app (s : string) :
  s = fst (scan_exp s) +:+ snd (scan_exp s).
Proof.
  destruct s as [|e s]; [reflexivity|]. unfold scan_exp.
  destruct (mem_ascii e "eE"); [|reflexivity].
  destruct s as [|g s1].
  - reflexivity.
  - destruct (mem_ascii g "-+").
    + pose proof (span_digits_app s1) as Hs.
      destruct (span_digits s1) as [[|d ds] r]; [reflexivity|].
      simpl in *. rewrite !app_cons, app_nil_l. now do 2 f_equal.
    + pose proof (span_digits_app (String g s1)) as Hs.
      destruct (span_digits (String g s1)) as [[|d ds] r]; [reflexivity|].
      simpl fst in *. simpl snd in *. rewrite app_cons, app_nil_l. now f_equal.
Qed.

Lemma scan_number_reads (s : string) : reads (scan_number s) s.
Proof.
  intros v rest H. unfold scan_number in H.
  pose proof (scan_sign_app s) as Hsign.
  destruct (scan_sign s) as [sign s1]. simpl in Hsign.
  pose proof (scan_int_reads s1) as Hint.
  destruct (scan_int s1) as [[ds s2]|]; [|discriminate].
  destruct (Hint ds s2 eq_refl) as (used & Hne & Hs1).
  pose proof (scan_frac_app s2) as Hfrac.
  destruct (scan_frac s2) as [frac s3]. simpl in Hfrac.
  pose proof (scan_exp_app s3) as Hexp.
  destruct (scan_exp s3) as [exp s4]. simpl in Hexp.
  assert (Hrest : rest = s4).
  { destruct frac, exp; now injection H. }
  exists (sign +:+ used +:+ frac +:+ exp). split.
  - destruct sign; [|discriminate]. destruct used; [contradiction | discriminate].
  - rewrite Hsign, Hs1, Hfrac, Hexp, Hrest. now rewrite !app_assoc.
Qed.

Lemma cons_str_reads (c : ascii) (r : option (string * string)) (s : string) :
  reads r s -> reads (cons_str c r) s.
Proof.
  intros H str rest Hr. destruct r as [[str' rest']|]; [|discriminate].
  injection Hr as <- <-. now apply (H str').
Qed.

Lemma scanstring_reads (s : string) : reads (scanstring s) s.
Proof.
  remember (String.length s) as n eqn:Hn. revert s Hn.
  induction n as [n IH] using lt_wf_ind. intros s ->.
  assert (IH' : forall s', (String.length s' < String.length s)%nat ->
                           reads (scanstring s') s') by eauto.
  clear IH. destruct s as [|c r]; [no_read|].
  simpl. destruct (Ascii.eqb c dquote); [apply reads_here|].
  destruct (Ascii.eqb c "\").
  - destruct r as [|e r']; [no_read|].
    destruct (Ascii.eqb e "u").
    + destruct r' as [|h1 [|h2 [|h3 [|h4 r'']]]]; try (no_read).
      destruct (hex4 h1 h2 h3 h4) as [n|]; [|no_read].
      destruct (n <? 256)%N; [|no_read].
      apply cons_str_reads. do 6 apply reads_cons. apply IH'. simpl. lia.
    + destruct (unescape e); [|no_read].
      apply cons_str_reads. do 2 apply reads_cons. apply IH'. simpl. lia.
  - destruct (N_of_ascii c <? 32)%N; [no_read|].
    apply cons_str_reads, reads_cons, IH'. simpl. lia.
Qed.

Lemma after_prefix_reads {A} (lit s : string) (v : A) :
  lit ≠ "" ->
  reads (match after_prefix lit s with Some rest => Some (v, rest) | None => None end) s.
Proof.
  intros Hlit v' rest H.
  destruct (after_prefix lit s) as [rest'|] eqn:Hp; [|discriminate].
  injection H as <- <-. exists lit. split; [exact Hlit|].
  now apply after_prefix_app.
Qed.

Lemma scan_atom_reads (s : string) : reads (scan_atom s) s.
Proof.
  unfold scan_atom.
  pose proof (after_prefix_reads "null" s JNull) as H1.
  pose proof (after_prefix_reads "true" s (JBool true)) as H2.
  pose proof (after_prefix_reads "false" s (JBool false)) as H3.
  pose proof (after_prefix_reads "NaN" s (JReal "NaN")) as H4.
  pose proof (after_prefix_reads "Infinity" s (JReal "Infinity")) as H5.
  pose proof (after_prefix_reads "-Infinity" s (JReal "-Infinity")) as H6.
  pose proof (scan_number_reads s) as H7.
  destruct (after_prefix "null" s); [now apply H1|].
  destruct (after_prefix "true" s); [now apply H2|].
  destruct (after_prefix "false" s); [now apply H3|].
  destruct (scan_number s) as [[v r]|]; [exact H7|].
  destruct (after_prefix "NaN" s); [now apply H4|].
  destruct (after_prefix "Infinity" s); [now apply H5|].
  destruct (after_prefix "-Infinity" s); [now apply H6|].
  no_read.
Qed.

Lemma reads_map {A B} (r : option (A * string)) (f : A -> B) (s : string) :
  reads r s ->
  reads (match r with Some (a, rest) => Some (f a, rest) | None => None end) s.
Proof.
  intros H b rest Hr. destruct r as [[a rest']|]; [|discriminate].
  injection Hr as <- <-. now apply (H a).
Qed.

(** What a scanner reads and then another: read by the two. *)
Lemma reads_then {A B} (r : option (A * string)) (s : string)
    (k : A -> string -> option (B * string)) :
  reads r s ->
  (forall a rest, r = Some (a, rest) ->
     forall b rest', k a rest = Some (b, rest') ->
       exists used, rest = used +:+ rest') ->
  reads (match r with Some (a, rest) => k a rest | None => None end) s.
Proof.
  intros H Hk b rest' Hr. destruct r as [[a rest]|]; [|discriminate].
  destruct (H a rest eq_refl) as (used & Hne & ->).
  destruct (Hk a rest eq_refl b rest' Hr) as (used' & ->).
  exists (used +:+ used'). split; [|now rewrite app_assoc].
  destruct used; [contradiction | discriminate].
Qed.

Lemma reads_weaken {A} (r : option (A * string)) (s : string) (a : A)
    (rest : string) :
  reads r s -> r = Some (a, rest) -> exists used, s = used +:+ rest.
Proof. intros H Hr. destruct (H a rest Hr) as (used & _ & ->). eauto. Qed.

Lemma skip_ws_weaken (s rest : string) :
  (exists used, skip_ws s = used +:+ rest) -> exists used, s = used +:+ rest.
Proof.
  intros (used & H). destruct (lstrip_split WHITESPACE s) as (w & _ & Hs).
  exists (w +:+ used). unfold skip_ws in H. rewrite Hs, H. now rewrite app_assoc.
Qed.

Lemma cons_weaken (c : ascii) (s rest : string) :
  (exists used, s = used +:+ rest) -> exists used, String c s = used +:+ rest.
Proof. intros (used & ->). now exists (String c used). Qed.

Lemma scan_once_reads (fuel : nat) :
  (forall s, reads (scan_once fuel s) s)
  /\ (forall s values, reads (JSONArray fuel s values) s)
  /\ (forall s pairs, reads (JSONObject fuel s pairs) s).
Proof.
  induction fuel as [|fuel (IHv & IHa & IHo)];
    [repeat split; intros; no_read|].
  split; [|split].
  - intros [|c r]; [no_read|]. simpl.
    destruct (Ascii.eqb c dquote).
    { apply reads_cons. apply (reads_map _ JStr). apply scanstring_reads. }
    destruct (Ascii.eqb c "{").
    { apply reads_cons, skip_ws_after.
      destruct (skip_ws r) as [|c' r']; [no_read|].
      destruct (Ascii.eqb c' "}"); [apply reads_here|].
      destruct (Ascii.eqb c' dquote); [|no_read].
      apply reads_cons, IHo. }
    destruct (Ascii.eqb c "[").
    { apply reads_cons, skip_ws_after.
      destruct (skip_ws r) as [|c' r']; [no_read|].
      destruct (Ascii.eqb c' "]"); [apply reads_here|]. apply IHa. }
    apply scan_atom_reads.
  - intros s values. simpl.
    apply (reads_then (scan_once fuel s) s
             (fun value rest =>
                match skip_ws rest with
                | String c rest' =>
                    if Ascii.eqb c "]" then Some (JArr (values ++ [value]), rest')
                    else if Ascii.eqb c ","
                         then JSONArray fuel (skip_ws rest') (values ++ [value])
                         else None
                | "" => None
                end)); [apply IHv|].
    intros value rest _ v rest' H. apply skip_ws_weaken.
    destruct (skip_ws rest) as [|c r1]; [discriminate|].
    destruct (Ascii.eqb c "]").
    { injection H as <- <-. now exists (String c ""). }
    destruct (Ascii.eqb c ","); [|discriminate].
    apply cons_weaken, skip_ws_weaken.
    exact (reads_weaken _ _ _ _ (IHa _ _) H).
  - intros s pairs. simpl.
    apply (reads_then (scanstring s) s
             (fun key rest =>
                match skip_ws rest with
                | String c rest1 =>
                    if Ascii.eqb c ":" then
                      match scan_once fuel (skip_ws rest1) with
                      | None => None
                      | Some (value, rest2) =>
                          match skip_ws rest2 with
                          | String c2 rest3 =>
                              if Ascii.eqb c2 "}"
                              then Some (JObj (dict_set key value pairs), rest3)
                              else if Ascii.eqb c2 "," then
                                match skip_ws rest3 with
                                | String c3 r =>
                                    if Ascii.eqb c3 dquote
                                    then JSONObject fuel r (dict_set key value pairs)
                                    else None
                                | "" => None
                                end
                              else None
                          | "" => None
                          end
                      end
                    else None
                | "" => None
                end)); [apply scanstring_reads|].
    intros key rest _ v rest' H. apply skip_ws_weaken.
    destruct (skip_ws rest) as [|c rest1]; [discriminate|].
    destruct (Ascii.eqb c ":"); [|discriminate].
    apply cons_weaken, skip_ws_weaken.
    destruct (scan_once fuel (skip_ws rest1)) as [[value rest2]|] eqn:Hv;
      [|discriminate].
    destruct (reads_weaken _ _ _ _ (IHv _) Hv) as (u1 & ->).
    assert (Hgoal : exists used, rest2 = used +:+ rest').
    { apply skip_ws_weaken.
      destruct (skip_ws rest2) as [|c2 rest3]; [discriminate|].
      destruct (Ascii.eqb c2 "}").
      { injection H as <- <-. now exists (String c2 ""). }
      destruct (Ascii.eqb c2 ","); [|discriminate].
      apply cons_weaken, skip_ws_weaken.
      destruct (skip_ws rest3) as [|c3 r]; [discriminate|].
      destruct (Ascii.eqb c3 dquote); [|discriminate].
      apply cons_weaken. exact (reads_weaken _ _ _ _ (IHo _ _) H). }
    destruct Hgoal as (u2 & ->). exists (u1 +:+ u2). now rewrite app_assoc.
Qed.

(** The reference decoder finds no value in the empty text, and a value
    it finds takes at least one character. *)
Lemma raw_decode_progress (version : string) (version_info : list Z) :
  @decoder_progress (py_env version version_info).
Proof.
  split; [reflexivity|]. intros s v i H. simpl in H. unfold raw_decode in H.
  destruct (scan_once (2 * String.length s + 2) s) as [[obj rest]|] eqn:Hs;
    [|discriminate].
  injection H as <- <-.
  pose proof (reads_length _ _ _ _
                (proj1 (scan_once_reads (2 * String.length s + 2)) s) Hs).
  lia.
Qed.

(** * The reference encoder and decoder, one after the other *)

(** ** Values without floats *)

Section json_induction.
Variable P : json -> Prop.
Hypothesis Hnull : P JNull.
Hypothesis Hbool : forall b0, P (JBool b0).
Hypothesis Hint : forall n, P (JInt n).
Hypothesis Hreal : forall lit, P (JReal lit).
Hypothesis Hstr : forall s, P (JStr s).
Hypothesis Harr : forall items, Forall P items -> P (JArr items).
Hypothesis Hobj : forall fields, Forall (fun kv => P (snd kv)) fields -> P (JObj fields).

Fixpoint json_induction (v : json) : P v :=
  match v with
  | JNull => Hnull
  | JBool b0 => Hbool b0
  | JInt n => Hint n
  | JReal lit => Hreal lit
  | JStr s => Hstr s
  | JArr items =>
      Harr items
        ((fix go (l : list json) : Forall P l :=
            match l with
            | [] => List.Forall_nil _
            | x :: l' => List.Forall_cons _ _ _ (json_induction x) (go l')
            end) items)
  | JObj fields =>
      Hobj fields
        ((fix go (l : list (string * json)) : Forall (fun kv => P (snd kv)) l :=
            match l with
            | [] => List.Forall_nil _
            | kv :: l' => List.Forall_cons _ _ _ (json_induction (snd kv)) (go l')
            end) fields)
  end.
End json_induction.

(** A value made of [null], booleans, integers, strings, arrays and
    objects whose keys differ. *)
Fixpoint plain (v : json) : Prop :=
  match v with
  | JReal _ => False
  | JArr items =>
      (fix all (l : list json) : Prop :=
         match l with
         | [] => True
         | x :: l' => plain x /\ all l'
         end) items
  | JObj fields =>
      (fix all (l : list (string * json)) : Prop :=
         match l with
         | [] => True
         | kv :: l' => plain (snd kv) /\ all l'
         end) fields
      /\ NoDup (map fst fields)
  | _ => True
  end.

Lemma plain_arr (items : list json) : plain (JArr items) <-> Forall plain items.
Proof.
  simpl. induction items as [|x l IH]; [split; [constructor | trivial]|].
  rewrite Forall_cons, <- IH. reflexivity.
Qed.

Lemma plain_obj (fields : list (string * json)) :
  plain (JObj fields)
  <-> Forall (fun kv => plain (snd kv)) fields /\ NoDup (map fst fields).
Proof.
  simpl. assert (H : (fix all (l : list (string * json)) : Prop :=
                        match l with
                        | [] => True
                        | kv :: l' => plain (snd kv) /\ all l'
                        end) fields
                     <-> Forall (fun kv => plain (snd kv)) fields).
  { induction fields as [|x l IH]; [split; [constructor | trivial]|].
    rewrite Forall_cons, <- IH. reflexivity. }
  now rewrite H.
Qed.

(** [plain] as a test. *)
Fixpoint plainb (v : json) : bool :=
  match v with
  | JReal _ => false
  | JArr items => forallb plainb items
  | JObj fields =>
      forallb (fun kv => plainb (snd kv)) fields
      && bool_decide (NoDup (map fst fields))
  | _ => true
  end.

Lemma plainb_plain (v : json) : plainb v = true -> plain v.
Proof.
  induction v as [|b0|n|lit|s|items IH|fields IH] using json_induction;
    intros H; try exact I; try discriminate H.
  - apply plain_arr. simpl in H. induction IH as [|x l Hx _ IHl]; [constructor|].
    simpl in H. apply andb_true_iff in H as [H1 H2]. constructor; auto.
  - apply plain_obj. simpl in H. apply andb_true_iff in H as [H Hkeys].
    split; [|now apply bool_decide_eq_true in Hkeys]. clear Hkeys.
    induction IH as [|x l Hx _ IHl]; [constructor|].
    simpl in H. apply andb_true_iff in H as [H1 H2]. constructor; auto.
Qed.

(** A value that is not a number. *)
Definition closed (v : json) : Prop :=
  match v with
  | JInt _ | JReal _ => False
  | _ => True
  end.

(** ** The steps of the scanner *)

Definition array_next (fuel : nat) (values : list json) (value : json)
    (rest : string) : option (json * string) :=
  match skip_ws rest with
  | String c rest' =>
      if Ascii.eqb c "]" then Some (JArr (values ++ [value]), rest')
      else if Ascii.eqb c ","
           then JSONArray fuel (skip_ws rest') (values ++ [value])
           else None
  | "" => None
  end.

Definition object_next (fuel : nat) (pairs : dict) (key : string)
    (value : json) (rest : string) : option (json * string) :=
  match skip_ws rest with
  | String c2 rest3 =>
      if Ascii.eqb c2 "}" then Some (JObj (dict_set key value pairs), rest3)
      else if Ascii.eqb c2 "," then
        match skip_ws rest3 with
        | String c3 r =>
            if Ascii.eqb c3 dquote
            then JSONObject fuel r (dict_set key value pairs)
            else None
        | "" => None
        end
      else None
  | "" => None
  end.

Definition object_value (fuel : nat) (pairs : dict) (key : string)
    (rest : string) : option (json * string) :=
  match skip_ws rest with
  | String c rest1 =>
      if Ascii.eqb c ":" then
        match scan_once fuel (skip_ws rest1) with
        | None => None
        | Some (value, rest2) => object_next fuel pairs key value rest2
        end
      else None
  | "" => None
  end.

Definition object_open (fuel : nat) (r : string) : option (json * string) :=
  match skip_ws r with
  | String c' r' =>
      if Ascii.eqb c' "}" then Some (JObj [], r')
      else if Ascii.eqb c' dquote then JSONObject fuel r' []
      else None
  | "" => None
  end.

Definition array_open (fuel : nat) (r : string) : option (json * string) :=
  match skip_ws r with
  | String c' r' =>
      if Ascii.eqb c' "]" then Some (JArr [], r')
      else JSONArray fuel (String c' r') []
  | "" => None
  end.

Definition string_value (r : string) : option (json * string) :=
  match scanstring r with
  | Some (str, rest) => Some (JStr str, rest)
  | None => None
  end.

Lemma scan_once_S (fuel : nat) (c : ascii) (r : string) :
  scan_once (S fuel) (String c r)
  = if Ascii.eqb c dquote then string_value r
    else if Ascii.eqb c "{" then object_open fuel r
    else if Ascii.eqb c "[" then array_open fuel r
    else scan_atom (String c r).
Proof. reflexivity. Qed.

Lemma scan_once_nil (fuel : nat) : scan_once fuel "" = None.
Proof. destruct fuel; reflexivity. Qed.

Lemma JSONArray_S (fuel : nat) (s : string) (values : list json) :
  JSONArray (S fuel) s values
  = match scan_once fuel s with
    | None => None
    | Some (value, rest) => array_next fuel values value rest
    end.
Proof. reflexivity. Qed.

Lemma JSONObject_S (fuel : nat) (s : string) (pairs : dict) :
  JSONObject (S fuel) s pairs
  = match scanstring s with
    | None => None
    | Some (key, rest) => object_value fuel pairs key rest
    end.
Proof. reflexivity. Qed.

#[local] Opaque scan_once JSONArray JSONObject.

(** More fuel gives the same result. *)
Lemma scan_once_S_mono (fuel : nat) :
  (forall s r, scan_once fuel s = Some r -> scan_once (S fuel) s = Some r)
  /\ (forall s values r,
       JSONArray fuel s values = Some r -> JSONArray (S fuel) s values = Some r)
  /\ (forall s pairs r,
       JSONObject fuel s pairs = Some r -> JSONObject (S fuel) s pairs = Some r).
Proof.
  induction fuel as [|fuel (IHv & IHa & IHo)].
  - repeat split; intros; discriminate.
  - split; [|split].
    + intros [|c r] res H; [now rewrite scan_once_nil in H|].
      rewrite scan_once_S in *.
      destruct (Ascii.eqb c dquote); [exact H|].
      destruct (Ascii.eqb c "{").
      { unfold object_open in *. destruct (skip_ws r) as [|c' r']; [exact H|].
        destruct (Ascii.eqb c' "}"); [exact H|].
        destruct (Ascii.eqb c' dquote); [now apply IHo | exact H]. }
      destruct (Ascii.eqb c "[").
      { unfold array_open in *. destruct (skip_ws r) as [|c' r']; [exact H|].
        destruct (Ascii.eqb c' "]"); [exact H | now apply IHa]. }
      exact H.
    + intros s values res H. rewrite JSONArray_S in *.
      destruct (scan_once fuel s) as [[value rest]|] eqn:Hv; [|discriminate].
      rewrite (IHv _ _ Hv). unfold array_next in *.
      destruct (skip_ws rest) as [|c rest']; [exact H|].
      destruct (Ascii.eqb c "]"); [exact H|].
      destruct (Ascii.eqb c ","); [now apply IHa | exact H].
    + intros s pairs res H. rewrite JSONObject_S in *.
      destruct (scanstring s) as [[key rest]|]; [|discriminate].
      unfold object_value in *.
      destruct (skip_ws rest) as [|c rest1]; [exact H|].
      destruct (Ascii.eqb c ":"); [|exact H].
      destruct (scan_once fuel (skip_ws rest1)) as [[value rest2]|] eqn:Hv;
        [|discriminate].
      rewrite (IHv _ _ Hv). unfold object_next in *.
      destruct (skip_ws rest2) as [|c2 rest3]; [exact H|].
      destruct (Ascii.eqb c2 "}"); [exact H|].
      destruct (Ascii.eqb c2 ","); [|exact H].
      destruct (skip_ws rest3) as [|c3 r]; [exact H|].
      destruct (Ascii.eqb c3 dquote); [now apply IHo | exact H].
Qed.

Lemma scan_once_mono (fuel fuel' : nat) (s : string) (r : json * string) :
  (fuel <= fuel')%nat -> scan_once fuel s = Some r -> scan_once fuel' s = Some r.
Proof.
  induction 1 as [|fuel' _ IH]; [auto|].
  intros H. apply scan_once_S_mono. auto.
Qed.

Lemma JSONArray_mono (fuel fuel' : nat) (s : string) (values : list json)
    (r : json * string) :
  (fuel <= fuel')%nat ->
  JSONArray fuel s values = Some r -> JSONArray fuel' s values = Some r.
Proof.
  induction 1 as [|fuel' _ IH]; [auto|].
  intros H. apply scan_once_S_mono. auto.
Qed.

Lemma JSONObject_mono (fuel fuel' : nat) (s : string) (pairs : dict)
    (r : json * string) :
  (fuel <= fuel')%nat ->
  JSONObject fuel s pairs = Some r -> JSONObject fuel' s pairs = Some r.
Proof.
  induction 1 as [|fuel' _ IH]; [auto|].
  intros H. apply scan_once_S_mono. auto.
Qed.

(** ** Strings *)

Lemma scanstring_escape_char (c : ascii) (t : string) :
  scanstring (escape_char c +:+ t) = cons_str c (scanstring t).
Proof. destruct c as [[] [] [] [] [] [] [] []]; reflexivity. Qed.

Lemma scanstring_encode (s rest : string) :
  scanstring (encode_basestring_ascii s +:+ String dquote rest) = Some (s, rest).
Proof.
  induction s as [|c s IH]; [reflexivity|].
  simpl. rewrite app_assoc, scanstring_escape_char, IH. reflexivity.
Qed.

(** The proper prefixes of a text. *)
Fixpoint proper_prefixes (s : string) : list string :=
  match s with
  | "" => []
  | String c s' => "" :: map (String c) (proper_prefixes s')
  end.

Lemma proper_prefixes_spec (s p m : string) :
  s = p +:+ m -> m ≠ "" -> In p (proper_prefixes s).
Proof.
  revert s. induction p as [|c p IH]; intros s -> Hm.
  - rewrite app_nil_l. destruct m; [contradiction | now left].
  - rewrite app_cons. simpl. right. apply in_map. now apply IH.
Qed.

Definition all_fail {A} (f : string -> option A) (ps : list string) : bool :=
  forallb (fun p => match f p with None => true | Some _ => false end) ps.

Lemma all_fail_spec {A} (f : string -> option A) (s p m : string) :
  all_fail f (proper_prefixes s) = true ->
  s = p +:+ m -> m ≠ "" -> f p = None.
Proof.
  intros H Hs Hm. unfold all_fail in H. rewrite forallb_forall in H.
  specialize (H p (proper_prefixes_spec _ _ _ Hs Hm)).
  destruct (f p); [discriminate | reflexivity].
Qed.

Lemma scanstring_escape_char_prefix (c : ascii) (p m : string) :
  escape_char c = p +:+ m -> m ≠ "" -> scanstring p = None.
Proof.
  apply all_fail_spec.
  destruct c as [[] [] [] [] [] [] [] []]; vm_compute; reflexivity.
Qed.

Lemma cons_str_None (c : ascii) : cons_str c None = None.
Proof. reflexivity. Qed.

(** The scanner finds no string in a proper prefix of the text of one. *)
Lemma scanstring_prefix (s p q : string) :
  encode_basestring_ascii s +:+ String dquote "" = p +:+ q -> q ≠ "" ->
  scanstring p = None.
Proof.
  revert p. induction s as [|c s IH]; intros p Heq Hq.
  - simpl in Heq. rewrite app_nil_l in Heq.
    destruct p as [|x p]; [reflexivity|].
    rewrite app_cons in Heq. injection Heq as _ Heq.
    destruct p; [rewrite app_nil_l in Heq; congruence | discriminate].
  - simpl in Heq. rewrite app_assoc in Heq. symmetry in Heq.
    destruct (app_eq_app _ _ _ _ Heq) as [(m & Hm & He) | (m & Hp & Hr)].
    + now apply (scanstring_escape_char_prefix c p m).
    + rewrite Hp, scanstring_escape_char, (IH m); [reflexivity | | exact Hq].
      now rewrite Hr.
Qed.

(** ** Integers *)

(** What follows an integer does not go on as a number. *)
Definition stops (rest : string) : bool :=
  match rest with
  | "" => true
  | String c _ =>
      negb (is_digit c) && negb (Ascii.eqb c ".") && negb (mem_ascii c "eE")
  end.

(** [0], or a digit from 1 to 9 and digits. *)
Definition digits_ok (t : string) : bool :=
  match t with
  | String c ds =>
      is_digit c && all_chars is_digit ds
      && (negb (Ascii.eqb c "0") || is_empty ds)
  | "" => false
  end.

Definition numeral (t : string) : bool :=
  match t with
  | String c r => if Ascii.eqb c "-" then digits_ok r else digits_ok t
  | "" => false
  end.

Definition num_value (t : string) : Z :=
  match t with
  | String c r =>
      if Ascii.eqb c "-" then - int_of_digits 0 r else int_of_digits 0 t
  | "" => 0
  end.

Lemma span_digits_stop (ds rest : string) :
  all_chars is_digit ds = true -> stops rest = true ->
  span_digits (ds +:+ rest) = (ds, rest).
Proof.
  intros Hds Hrest. induction ds as [|c ds IH].
  - rewrite app_nil_l. destruct rest as [|x rest]; [reflexivity|].
    simpl in *. destruct (is_digit x); [discriminate | reflexivity].
  - simpl in Hds. apply andb_true_iff in Hds as [Hc Hds].
    rewrite app_cons. simpl. rewrite Hc, (IH Hds). reflexivity.
Qed.

Lemma scan_frac_stop (rest : string) :
  stops rest = true -> scan_frac rest = ("", rest).
Proof.
  destruct rest as [|x rest]; [reflexivity|]. simpl. intros H.
  destruct (Ascii.eqb x "."); [|reflexivity].
  rewrite andb_false_r in H. discriminate.
Qed.

Lemma scan_exp_stop (rest : string) :
  stops rest = true -> scan_exp rest = ("", rest).
Proof.
  destruct rest as [|x rest]; [reflexivity|]. unfold stops, scan_exp. intros H.
  destruct (mem_ascii x "eE"); [|reflexivity].
  rewrite andb_false_r in H. discriminate.
Qed.

Lemma scan_int_digits (t rest : string) :
  digits_ok t = true -> stops rest = true ->
  scan_int (t +:+ rest) = Some (t, rest).
Proof.
  destruct t as [|c ds]; [discriminate|]. intros Ht Hrest.
  unfold digits_ok in Ht. rewrite !andb_true_iff, orb_true_iff in Ht.
  destruct Ht as [[Hc Hds] Hz]. rewrite app_cons. unfold scan_int.
  destruct (Ascii.eqb c "0") eqn:H0.
  - destruct Hz as [Hz | Hz]; [discriminate|].
    destruct ds; [|discriminate]. apply Ascii.eqb_eq in H0 as ->.
    now rewrite app_nil_l.
  - rewrite Hc, (span_digits_stop _ _ Hds Hrest). reflexivity.
Qed.

Lemma digit_not_sign (c : ascii) :
  is_digit c = true -> Ascii.eqb c "-" = false.
Proof.
  destruct (Ascii.eqb c "-") eqn:H; [|reflexivity].
  apply Ascii.eqb_eq in H as ->. discriminate.
Qed.

Lemma digits_ok_head (t : string) :
  digits_ok t = true ->
  exists c ds, t = String c ds /\ is_digit c = true.
Proof.
  destruct t as [|c ds]; [discriminate|]. intros H. exists c, ds.
  unfold digits_ok in H. rewrite !andb_true_iff in H. now destruct H as [[? ?] ?].
Qed.

Lemma scan_number_digits (t rest : string) :
  digits_ok t = true -> stops rest = true ->
  scan_number (t +:+ rest) = Some (JInt (int_of_digits 0 t), rest).
Proof.
  intros Ht Hrest. destruct (digits_ok_head t Ht) as (c & ds & -> & Hc).
  unfold scan_number.
  assert (Hs : scan_sign (String c ds +:+ rest) = ("", String c ds +:+ rest)).
  { rewrite app_cons. unfold scan_sign. now rewrite (digit_not_sign c Hc). }
  rewrite Hs, (scan_int_digits _ _ Ht Hrest), (scan_frac_stop _ Hrest),
    (scan_exp_stop _ Hrest). reflexivity.
Qed.

Lemma scan_number_minus (t rest : string) :
  digits_ok t = true -> stops rest = true ->
  scan_number (String "-" (t +:+ rest)) = Some (JInt (- int_of_digits 0 t), rest).
Proof.
  intros Ht Hrest. unfold scan_number.
  change (scan_sign (String "-" (t +:+ rest))) with ("-", t +:+ rest).
  cbv beta iota.
  rewrite (scan_int_digits _ _ Ht Hrest), (scan_frac_stop _ Hrest),
    (scan_exp_stop _ Hrest). reflexivity.
Qed.

Lemma scan_number_numeral (t rest : string) :
  numeral t = true -> stops rest = true ->
  scan_number (t +:+ rest) = Some (JInt (num_value t), rest).
Proof.
  destruct t as [|c r]; [discriminate|]. unfold numeral, num_value.
  destruct (Ascii.eqb c "-") eqn:Hc; intros Ht Hrest.
  - apply Ascii.eqb_eq in Hc as ->. rewrite app_cons.
    now apply scan_number_minus.
  - now apply scan_number_digits.
Qed.

(** A text that starts like a number is read as a number, or not at all. *)
Lemma scan_once_number (fuel : nat) (c : ascii) (r : string) (v : json)
    (rest : string) :
  is_digit c || Ascii.eqb c "-" = true ->
  scan_number (String c r) = Some (v, rest) ->
  scan_once (S fuel) (String c r) = Some (v, rest).
Proof.
  intros Hc Hn. rewrite scan_once_S.
  assert (H : (if Ascii.eqb c dquote then string_value r
               else if Ascii.eqb c "{" then object_open fuel r
               else if Ascii.eqb c "[" then array_open fuel r
               else scan_atom (String c r))
              = match scan_number (String c r) with
                | Some v => Some v
                | None => None
                end
              \/ scan_number (String c r) = None).
  { destruct c as [[] [] [] [] [] [] [] []]; try discriminate Hc;
      unfold scan_atom; simpl after_prefix; cbv iota;
      destruct (scan_number _) as [[]|]; auto. }
  destruct H as [H | H]; [|congruence]. rewrite H, Hn. reflexivity.
Qed.

Lemma numeral_head (t : string) :
  numeral t = true ->
  exists c r, t = String c r /\ is_digit c || Ascii.eqb c "-" = true.
Proof.
  destruct t as [|c r]; [discriminate|]. intros H. exists c, r.
  split; [reflexivity|]. unfold numeral in H.
  destruct (Ascii.eqb c "-"); [apply orb_true_r|].
  destruct (digits_ok_head _ H) as (c' & ds & [= <- <-] & Hc). now rewrite Hc.
Qed.

Lemma scan_once_numeral (fuel : nat) (t rest : string) :
  numeral t = true -> stops rest = true ->
  scan_once (S fuel) (t +:+ rest) = Some (JInt (num_value t), rest).
Proof.
  intros Ht Hrest. pose proof (scan_number_numeral t rest Ht Hrest) as Hn.
  destruct (numeral_head t Ht) as (c & r & -> & Hc). rewrite app_cons in *.
  now apply scan_once_number.
Qed.

(** *** The decimal text of an integer *)

Lemma pretty_N_char_digit (d : N) : is_digit (pretty_N_char d) = true.
Proof. destruct d as [|[[[|[]|]|[[]|[]|]|]|[[|[]|]|[[]|[]|]|]|]]; reflexivity. Qed.

Lemma pretty_N_char_val (d : N) :
  (d < 10)%N -> digit_val (pretty_N_char d) = Z.of_N d.
Proof.
  intros H.
  assert (d = 0 \/ d = 1 \/ d = 2 \/ d = 3 \/ d = 4 \/ d = 5 \/ d = 6 \/ d = 7
          \/ d = 8 \/ d = 9)%N as Hd by lia.
  repeat (destruct Hd as [-> | Hd]; [reflexivity|]). now subst.
Qed.

Lemma pretty_N_char_nonzero (d : N) :
  (0 < d)%N -> Ascii.eqb (pretty_N_char d) "0" = false.
Proof. destruct d as [|[[[|[]|]|[[]|[]|]|]|[[|[]|]|[[]|[]|]|]|]]; (lia || reflexivity). Qed.

Lemma all_chars_app (p : ascii -> bool) (s t : string) :
  all_chars p (s +:+ t) = all_chars p s && all_chars p t.
Proof.
  induction s as [|c s IH]; [reflexivity|].
  rewrite app_cons. simpl. now rewrite IH, andb_assoc.
Qed.

Lemma pretty_N_go_shape (x : N) (s : string) :
  (0 < x)%N ->
  exists c ds,
    pretty_N_go x s = String c (ds +:+ s)
    /\ is_digit c = true /\ Ascii.eqb c "0" = false
    /\ all_chars is_digit ds = true.
Proof.
  revert s. induction (N.lt_wf_0 x) as [x _ IH]. intros s Hx.
  rewrite pretty_N_go_step by exact Hx.
  assert (x < 10 \/ 10 <= x)%N as [Hlt | Hge] by lia.
  - rewrite N.div_small, pretty_N_go_0, N.mod_small by exact Hlt.
    exists (pretty_N_char x), "". rewrite app_nil_l.
    split; [reflexivity|]. split; [apply pretty_N_char_digit|].
    split; [now apply pretty_N_char_nonzero | reflexivity].
  - destruct (IH (x / 10)%N) with (s := String (pretty_N_char (x mod 10)) s)
      as (c & ds & Heq & Hc & Hz & Hds).
    { apply N.div_lt; lia. }
    { apply N.div_str_pos. lia. }
    exists c, (ds +:+ String (pretty_N_char (x mod 10)) "").
    rewrite Heq, app_assoc, app_cons, app_nil_l.
    split; [reflexivity|]. split; [exact Hc|]. split; [exact Hz|].
    rewrite all_chars_app, Hds. simpl. now rewrite pretty_N_char_digit.
Qed.

Lemma pretty_N_go_val (x : N) (s : string) :
  int_of_digits 0 (pretty_N_go x s) = int_of_digits (Z.of_N x) s.
Proof.
  revert s. induction (N.lt_wf_0 x) as [x _ IH]. intros s.
  assert (x = 0 \/ 0 < x)%N as [-> | Hx] by lia; [now rewrite pretty_N_go_0|].
  rewrite pretty_N_go_step by exact Hx.
  rewrite IH by (apply N.div_lt; lia). simpl.
  rewrite pretty_N_char_val by (apply N.mod_lt; lia). f_equal.
  pose proof (N.div_mod x 10). lia.
Qed.

Lemma pretty_positive_go (p : positive) :
  pretty (Z.pos p) = pretty_N_go (N.pos p) "".
Proof. reflexivity. Qed.

Lemma pretty_negative_go (p : positive) :
  pretty (Z.neg p) = String "-" (pretty_N_go (N.pos p) "").
Proof. reflexivity. Qed.

Lemma digits_ok_pretty (p : positive) :
  digits_ok (pretty_N_go (N.pos p) "") = true.
Proof.
  destruct (pretty_N_go_shape (N.pos p) "") as (c & ds & -> & Hc & Hz & Hds);
    [lia|].
  rewrite app_nil_r. unfold digits_ok. now rewrite Hc, Hds, Hz.
Qed.

Lemma numeral_digits_ok (t : string) : digits_ok t = true -> numeral t = true.
Proof.
  intros H. destruct (digits_ok_head t H) as (c & ds & -> & Hc).
  unfold numeral. now rewrite (digit_not_sign c Hc).
Qed.

Lemma num_value_digits_ok (t : string) :
  digits_ok t = true -> num_value t = int_of_digits 0 t.
Proof.
  intros H. destruct (digits_ok_head t H) as (c & ds & -> & Hc).
  unfold num_value. now rewrite (digit_not_sign c Hc).
Qed.

Lemma numeral_pretty (n : Z) : numeral (pretty n) = true.
Proof.
  destruct n as [|p|p]; [reflexivity| |].
  - rewrite pretty_positive_go. apply numeral_digits_ok, digits_ok_pretty.
  - rewrite pretty_negative_go. apply digits_ok_pretty.
Qed.

Lemma num_value_pretty (n : Z) : num_value (pretty n) = n.
Proof.
  destruct n as [|p|p]; [reflexivity| |].
  - rewrite pretty_positive_go, num_value_digits_ok by apply digits_ok_pretty.
    now rewrite pretty_N_go_val.
  - rewrite pretty_negative_go. unfold num_value. simpl Ascii.eqb. cbv iota.
    now rewrite pretty_N_go_val.
Qed.

(** *** The prefixes of a numeral *)

Lemma digits_ok_prefix (t p q : string) :
  digits_ok t = true -> t = p +:+ q -> p = "" \/ digits_ok p = true.
Proof.
  intros Ht ->. destruct p as [|c p]; [now left|]. right.
  rewrite app_cons in Ht. unfold digits_ok in *.
  rewrite all_chars_app in Ht. rewrite !andb_true_iff, orb_true_iff in *.
  destruct Ht as [[Hc [Hp _]] Hz]. split; [split; assumption|].
  destruct Hz as [Hz | Hz]; [now left | right].
  destruct p; [reflexivity | discriminate].
Qed.

Lemma numeral_prefix (t p q : string) :
  numeral t = true -> t = p +:+ q ->
  p = "" \/ p = "-" \/ numeral p = true.
Proof.
  intros Ht ->. destruct p as [|c p]; [now left|]. right.
  rewrite app_cons in Ht. unfold numeral in *.
  destruct (Ascii.eqb c "-") eqn:Hc.
  - apply Ascii.eqb_eq in Hc as ->.
    destruct (digits_ok_prefix _ p q Ht eq_refl) as [-> | H]; [now left | now right].
  - right. rewrite <- app_cons in Ht.
    destruct (digits_ok_prefix _ (String c p) q Ht eq_refl) as [H | H];
      [discriminate | exact H].
Qed.

Lemma scan_once_minus (fuel : nat) : scan_once fuel "-" = None.
Proof. destruct fuel as [|fuel]; [reflexivity | now rewrite scan_once_S]. Qed.

(** In a prefix of a numeral the scanner finds nothing, or a number that
    ends with the prefix. *)
Lemma scan_once_numeral_prefix (fuel : nat) (t p q : string) :
  numeral t = true -> t = p +:+ q ->
  scan_once fuel p = None \/ exists w, scan_once fuel p = Some (w, "").
Proof.
  intros Ht Heq. destruct fuel as [|fuel]; [now left|].
  destruct (numeral_prefix t p q Ht Heq) as [-> | [-> | Hp]].
  - left. apply scan_once_nil.
  - left. apply scan_once_minus.
  - right. exists (JInt (num_value p)).
    rewrite <- (app_nil_r p) at 1. now apply scan_once_numeral.
Qed.

(** ** The text of a value, read back *)

Definition weight {A} (f : A -> nat) (l : list A) : nat :=
  fold_right (fun x n => S (f x + n)) 0%nat l.

(** The fuel that reading a value takes. *)
Fixpoint json_size (v : json) : nat :=
  match v with
  | JArr items => S (weight json_size items)
  | JObj fields => S (weight (fun kv => json_size (snd kv)) fields)
  | _ => 1
  end.

(** What may follow the text of [v]: anything, but after an integer no
    character that goes on as a number. *)
Definition follows (v : json) (rest : string) : Prop :=
  match v with
  | JInt _ => stops rest = true
  | _ => True
  end.

Lemma stops_follows (v : json) (rest : string) :
  stops rest = true -> follows v rest.
Proof. intros H. now destruct v. Qed.

Definition field_text (kv : string * json) : string :=
  quoted (encode_basestring_ascii (fst kv)) +:+ ": " +:+ json_dumps (snd kv).

(** What follows a value of an array, before [rest]. *)
Definition array_rest (l : list json) (rest : string) : string :=
  match l with
  | [] => "]" +:+ rest
  | _ :: _ => ", " +:+ join ", " (map json_dumps l) +:+ "]" +:+ rest
  end.

(** What follows a value of an object, before [rest]. *)
Definition object_rest (l : list (string * json)) (rest : string) : string :=
  match l with
  | [] => "}" +:+ rest
  | _ :: _ => ", " +:+ join ", " (map field_text l) +:+ "}" +:+ rest
  end.

(** A field from behind the quote that opens its key. *)
Definition field_body (kv : string * json) (tail : string) : string :=
  encode_basestring_ascii (fst kv)
  +:+ String dquote (": " +:+ json_dumps (snd kv) +:+ tail).

Lemma join_text {A} (f : A -> string) (x : A) (l : list A) (close rest : string) :
  (join ", " (map f (x :: l)) +:+ close) +:+ rest
  = f x +:+ match l with
            | [] => close +:+ rest
            | _ :: _ => ", " +:+ join ", " (map f l) +:+ close +:+ rest
            end.
Proof.
  destruct l as [|y l]; [apply app_assoc|].
  change (join ", " (map f (x :: y :: l)))
    with (f x +:+ ", " +:+ join ", " (map f (y :: l))).
  now rewrite !app_assoc.
Qed.

Lemma array_text (items : list json) (rest : string) :
  json_dumps (JArr items) +:+ rest
  = String "[" match items with
               | [] => "]" +:+ rest
               | x :: l => json_dumps x +:+ array_rest l rest
               end.
Proof.
  change (json_dumps (JArr items))
    with (String "[" (join ", " (map json_dumps items) +:+ "]")).
  rewrite app_cons. f_equal. destruct items as [|x l]; [reflexivity|].
  apply join_text.
Qed.

Lemma object_text (fields : list (string * json)) (rest : string) :
  json_dumps (JObj fields) +:+ rest
  = String "{" match fields with
               | [] => "}" +:+ rest
               | kv :: l => String dquote (field_body kv (object_rest l rest))
               end.
Proof.
  change (json_dumps (JObj fields))
    with (String "{" (join ", " (map field_text fields) +:+ "}")).
  rewrite app_cons. f_equal. destruct fields as [|kv l]; [reflexivity|].
  rewrite join_text. unfold field_text, quoted, field_body.
  rewrite !app_cons, !app_assoc, !app_cons, !app_nil_l. reflexivity.
Qed.

Lemma stops_array_rest (l : list json) (rest : string) :
  stops (array_rest l rest) = true.
Proof. destruct l; reflexivity. Qed.

Lemma stops_object_rest (l : list (string * json)) (rest : string) :
  stops (object_rest l rest) = true.
Proof. destruct l; reflexivity. Qed.

(** *** The first character of a value *)

Definition opens (c : ascii) : Prop :=
  mem_ascii c WHITESPACE = false /\ Ascii.eqb c "]" = false.

Lemma opens_number (c : ascii) :
  is_digit c || Ascii.eqb c "-" = true -> opens c.
Proof.
  destruct c as [[] [] [] [] [] [] [] []]; try discriminate; intros _;
    split; reflexivity.
Qed.

Lemma json_dumps_head (v : json) :
  plain v -> exists c t, json_dumps v = String c t /\ opens c.
Proof.
  destruct v as [|[]|n|lit|s|items|fields]; intros Hv; try contradiction;
    try (eexists _, _; split; [reflexivity | split; reflexivity]).
  destruct (numeral_head _ (numeral_pretty n)) as (c & r & Heq & Hc).
  exists c, r. split; [exact Heq | now apply opens_number].
Qed.

Lemma skip_ws_head (c : ascii) (t : string) :
  mem_ascii c WHITESPACE = false -> skip_ws (String c t) = String c t.
Proof.
  intros H. unfold skip_ws.
  change (lstrip WHITESPACE (String c t))
    with (if mem_ascii c WHITESPACE then lstrip WHITESPACE t else String c t).
  now rewrite H.
Qed.

Lemma skip_ws_dumps (v : json) (rest : string) :
  plain v -> skip_ws (json_dumps v +:+ rest) = json_dumps v +:+ rest.
Proof.
  intros Hv. destruct (json_dumps_head v Hv) as (c & t & -> & Hc & _).
  rewrite app_cons. now apply skip_ws_head.
Qed.

(** *** Fresh keys *)

Lemma dict_set_fresh (k : string) (v : json) (d : dict) :
  k ∉ map fst d -> dict_set k v d = d ++ [(k, v)].
Proof.
  induction d as [|[k' v'] d IH]; intros Hk; [reflexivity|].
  simpl in *. rewrite not_elem_of_cons in Hk. destruct Hk as [Hne Hk].
  destruct (String.eqb k k') eqn:Heq.
  - apply String.eqb_eq in Heq. contradiction.
  - now rewrite IH.
Qed.

(** *** Arrays and objects *)

(** [v] is read back from its text with enough fuel. *)
Definition reads_back (v : json) : Prop :=
  forall (fuel : nat) (rest : string),
    (json_size v <= fuel)%nat -> follows v rest ->
    scan_once fuel (json_dumps v +:+ rest) = Some (v, rest).

Lemma JSONArray_dumps (l : list json) :
  forall (x : json) (values : list json) (fuel : nat) (rest : string),
    Forall reads_back (x :: l) -> Forall plain (x :: l) ->
    (weight json_size (x :: l) <= fuel)%nat ->
    JSONArray fuel (json_dumps x +:+ array_rest l rest) values
    = Some (JArr (values ++ x :: l), rest).
Proof.
  induction l as [|y l IH]; intros x values fuel rest Hback Hplain Hfuel;
    apply Forall_cons in Hback as [Hx Hback];
    apply Forall_cons in Hplain as [Hpx Hplain];
    (destruct fuel as [|fuel]; [simpl in Hfuel; lia|]);
    rewrite JSONArray_S, Hx;
    [ | simpl in Hfuel; lia | apply stops_follows, stops_array_rest
      | | simpl in Hfuel; lia | apply stops_follows, stops_array_rest].
  - reflexivity.
  - unfold array_next, array_rest.
    change (", " +:+ join ", " (map json_dumps (y :: l)) +:+ "]" +:+ rest)
      with (String "," (String " "
              ((join ", " (map json_dumps (y :: l)) +:+ "]" +:+ rest)))).
    rewrite skip_ws_head by reflexivity. simpl Ascii.eqb. cbv iota.
    change (skip_ws (String " " ?t)) with (skip_ws t).
    rewrite <- app_assoc, join_text.
    fold (array_rest l rest).
    rewrite (skip_ws_dumps _ _ (Forall_inv Hplain)).
    rewrite IH; [now rewrite <- List.app_assoc | exact Hback | exact Hplain|].
    simpl in *. lia.
Qed.

Lemma field_body_text (kv : string * json) (tail : string) :
  field_text kv +:+ tail = String dquote (field_body kv tail).
Proof.
  unfold field_text, quoted, field_body.
  rewrite !app_cons, !app_assoc, !app_cons, !app_nil_l. reflexivity.
Qed.

Lemma skip_ws_space (t : string) : skip_ws (String " " t) = skip_ws t.
Proof. reflexivity. Qed.

Lemma object_value_colon (fuel : nat) (pairs : dict) (key : string) (t : string) :
  object_value fuel pairs key (": " +:+ t)
  = match scan_once fuel (skip_ws t) with
    | None => None
    | Some (value, rest2) => object_next fuel pairs key value rest2
    end.
Proof. reflexivity. Qed.

Lemma object_next_comma (fuel : nat) (pairs : dict) (key : string)
    (value : json) (t : string) :
  object_next fuel pairs key value (", " +:+ String dquote t)
  = JSONObject fuel t (dict_set key value pairs).
Proof. reflexivity. Qed.

Lemma array_next_comma (fuel : nat) (values : list json) (value : json)
    (t : string) :
  array_next fuel values value (", " +:+ t)
  = JSONArray fuel (skip_ws t) (values ++ [value]).
Proof. reflexivity. Qed.

(** One field of an object, from behind the quote that opens its key. *)
Lemma JSONObject_field (fuel : nat) (k : string) (v : json) (tail : string)
    (pairs : dict) :
  plain v -> reads_back v -> (json_size v <= fuel)%nat -> stops tail = true ->
  JSONObject (S fuel) (field_body (k, v) tail) pairs
  = object_next fuel pairs k v tail.
Proof.
  intros Hpv Hv Hfuel Htail. rewrite JSONObject_S. unfold field_body.
  rewrite scanstring_encode. simpl fst. simpl snd.
  rewrite object_value_colon, (skip_ws_dumps _ _ Hpv), Hv;
    [reflexivity | exact Hfuel | now apply stops_follows].
Qed.

Lemma JSONObject_dumps (l : list (string * json)) :
  forall (kv : string * json) (pairs : dict) (fuel : nat) (rest : string),
    Forall (fun kv => reads_back (snd kv)) (kv :: l) ->
    Forall (fun kv => plain (snd kv)) (kv :: l) ->
    NoDup (map fst (pairs ++ kv :: l)) ->
    (weight (fun kv => json_size (snd kv)) (kv :: l) <= fuel)%nat ->
    JSONObject fuel (field_body kv (object_rest l rest)) pairs
    = Some (JObj (pairs ++ kv :: l), rest).
Proof.
  induction l as [|kv' l IH]; intros [k v] pairs fuel rest Hback Hplain Hkeys Hfuel;
    apply Forall_cons in Hback as [Hv Hback];
    apply Forall_cons in Hplain as [Hpv Hplain];
    (destruct fuel as [|fuel]; [simpl in Hfuel; lia|]);
    (assert (Hk : dict_set k v pairs = pairs ++ [(k, v)]);
     [ apply dict_set_fresh; rewrite map_app in Hkeys;
       apply NoDup_app in Hkeys as (_ & Hk & _); intros Hin;
       apply (Hk k Hin); simpl; left
     | ]);
    (rewrite JSONObject_field;
     [ | exact Hpv | exact Hv | simpl in Hfuel; simpl; lia
       | apply stops_object_rest ]).
  - unfold object_next, object_rest. rewrite Hk. reflexivity.
  - unfold object_rest.
    rewrite <- (app_assoc (join ", " (map field_text (kv' :: l))) "}" rest).
    rewrite join_text, field_body_text, object_next_comma.
    fold (object_rest l rest).
    rewrite Hk, IH; [now rewrite <- List.app_assoc | exact Hback | exact Hplain | |].
    + now rewrite <- List.app_assoc.
    + simpl in *. lia.
Qed.

(** The scanner reads every plain value back from its text, whatever
    follows it. *)
Lemma scan_once_dumps (v : json) : plain v -> reads_back v.
Proof.
  induction v as [|b0|n|lit|s|items IH|fields IH] using json_induction;
    intros Hv fuel rest Hfuel Hrest.
  - destruct fuel; [simpl in Hfuel; lia | reflexivity].
  - destruct fuel; [simpl in Hfuel; lia | destruct b0; reflexivity].
  - destruct fuel; [simpl in Hfuel; lia|].
    rewrite <- (num_value_pretty n) at 2.
    apply scan_once_numeral; [apply numeral_pretty | exact Hrest].
  - contradiction.
  - destruct fuel; [simpl in Hfuel; lia|].
    change (json_dumps (JStr s))
      with (String dquote (encode_basestring_ascii s +:+ String dquote "")).
    rewrite app_cons, app_assoc, scan_once_S, Ascii.eqb_refl.
    unfold string_value. rewrite app_cons, app_nil_l, scanstring_encode.
    reflexivity.
  - apply plain_arr in Hv. destruct fuel; [simpl in Hfuel; lia|].
    rewrite array_text, scan_once_S. simpl Ascii.eqb. cbv iota.
    destruct items as [|x l]; [reflexivity|].
    unfold array_open. rewrite (skip_ws_dumps _ _ (Forall_inv Hv)).
    destruct (json_dumps_head x (Forall_inv Hv)) as (c & t & Hx & _ & Hc).
    rewrite Hx, app_cons, Hc, <- app_cons, <- Hx.
    rewrite JSONArray_dumps; [reflexivity | | exact Hv | simpl in *; lia].
    clear - IH Hv. revert Hv. generalize dependent (x :: l).
    induction 1 as [|y l' Hy _ IHl]; intros Hv; [constructor|].
    apply Forall_cons in Hv as [Hpy Hv]. constructor; auto.
  - apply plain_obj in Hv as [Hv Hkeys]. destruct fuel; [simpl in Hfuel; lia|].
    rewrite object_text, scan_once_S. simpl Ascii.eqb. cbv iota.
    destruct fields as [|kv l]; [reflexivity|].
    unfold object_open. rewrite skip_ws_head by reflexivity.
    rewrite Ascii.eqb_refl. simpl Ascii.eqb. cbv iota.
    rewrite JSONObject_dumps;
      [reflexivity | | exact Hv | exact Hkeys | simpl in *; lia].
    clear - IH Hv. revert Hv. generalize dependent (kv :: l).
    induction 1 as [|y l' Hy _ IHl]; intros Hv; [constructor|].
    apply Forall_cons in Hv as [Hpy Hv]. constructor; auto.
Qed.

(** *** The fuel of the decoder is enough *)

Lemma weight_array (l : list json) :
  forall x : json,
    Forall (fun v => (json_size v <= 2 * String.length (json_dumps v))%nat) (x :: l) ->
    (weight json_size (x :: l)
     <= 2 * String.length (json_dumps x +:+ array_rest l ""))%nat.
Proof.
  induction l as [|y l IH]; intros x H; apply Forall_cons in H as [Hx H].
  - rewrite length_app. simpl. lia.
  - specialize (IH y H). unfold array_rest.
    rewrite <- (app_assoc (join ", " (map json_dumps (y :: l))) "]" "").
    rewrite join_text. fold (array_rest l "").
    rewrite !length_app. rewrite length_app in IH.
    change (weight json_size (x :: y :: l)) with (S (json_size x + weight json_size (y :: l))).
    simpl String.length. lia.
Qed.

Lemma length_field_body (kv : string * json) (tail : string) :
  String.length (field_body kv tail)
  = (String.length (encode_basestring_ascii (fst kv)) + 3
     + String.length (json_dumps (snd kv)) + String.length tail)%nat.
Proof.
  unfold field_body. rewrite length_app.
  change (": " +:+ json_dumps (snd kv) +:+ tail)
    with (String ":" (String " " (json_dumps (snd kv) +:+ tail))).
  simpl String.length. rewrite length_app. lia.
Qed.

Lemma weight_object (l : list (string * json)) :
  forall kv : string * json,
    Forall (fun kv => (json_size (snd kv) <= 2 * String.length (json_dumps (snd kv)))%nat)
      (kv :: l) ->
    (weight (fun kv => json_size (snd kv)) (kv :: l)
     <= 2 * String.length (field_body kv (object_rest l "")))%nat.
Proof.
  induction l as [|kv' l IH]; intros kv H; apply Forall_cons in H as [Hx H];
    rewrite length_field_body.
  - simpl. lia.
  - specialize (IH kv' H). unfold object_rest.
    rewrite <- (app_assoc (join ", " (map field_text (kv' :: l))) "}" "").
    rewrite join_text, field_body_text. fold (object_rest l "").
    change (weight (fun kv => json_size (snd kv)) (kv :: kv' :: l))
      with (S (json_size (snd kv) + weight (fun kv => json_size (snd kv)) (kv' :: l))).
    simpl String.length. lia.
Qed.

Lemma size_dumps (v : json) :
  plain v -> (json_size v <= 2 * String.length (json_dumps v))%nat.
Proof.
  induction v as [|b0|n|lit|s|items IH|fields IH] using json_induction;
    intros Hv.
  - simpl. lia.
  - destruct b0; simpl; lia.
  - destruct (numeral_head _ (numeral_pretty n)) as (c & r & Heq & _).
    change (json_dumps (JInt n)) with (pretty n). rewrite Heq. simpl. lia.
  - contradiction.
  - simpl. lia.
  - apply plain_arr in Hv. rewrite <- (app_nil_r (json_dumps (JArr items))).
    rewrite array_text. destruct items as [|x l]; [simpl; lia|].
    assert (H : Forall (fun v => (json_size v <= 2 * String.length (json_dumps v))%nat)
                  (x :: l)).
    { clear - IH Hv. revert Hv. generalize dependent (x :: l).
      induction 1 as [|y l' Hy _ IHl]; intros Hv; [constructor|].
      apply Forall_cons in Hv as [Hpy Hv]. constructor; auto. }
    pose proof (weight_array l x H).
    change (json_size (JArr (x :: l))) with (S (weight json_size (x :: l))).
    simpl String.length. lia.
  - apply plain_obj in Hv as [Hv _].
    rewrite <- (app_nil_r (json_dumps (JObj fields))).
    rewrite object_text. destruct fields as [|kv l]; [simpl; lia|].
    assert (H : Forall (fun kv => (json_size (snd kv)
                                   <= 2 * String.length (json_dumps (snd kv)))%nat)
                  (kv :: l)).
    { clear - IH Hv. revert Hv. generalize dependent (kv :: l).
      induction 1 as [|y l' Hy _ IHl]; intros Hv; [constructor|].
      apply Forall_cons in Hv as [Hpy Hv]. constructor; auto. }
    pose proof (weight_object l kv H).
    change (json_size (JObj (kv :: l)))
      with (S (weight (fun kv => json_size (snd kv)) (kv :: l))).
    simpl String.length. lia.
Qed.

(** [raw_decode] reads a plain value back from its text. *)
Lemma raw_decode_dumps (v : json) (rest : string) :
  plain v -> follows v rest ->
  raw_decode (json_dumps v +:+ rest) = Some (v, String.length (json_dumps v)).
Proof.
  intros Hv Hrest. unfold raw_decode.
  rewrite (scan_once_dumps v Hv); [|  | exact Hrest].
  - rewrite length_app. do 2 f_equal. lia.
  - pose proof (size_dumps v Hv). rewrite length_app. lia.
Qed.

(** [json.loads(json.dumps(v))] is [v]. *)
Lemma json_loads_dumps (v : json) :
  plain v -> json_loads (json_dumps v) = Some v.
Proof.
  intros Hv. unfold json_loads.
  rewrite <- (app_nil_r (json_dumps v)), (skip_ws_dumps v "" Hv).
  rewrite (scan_once_dumps v Hv); [reflexivity | | now apply stops_follows].
  pose proof (size_dumps v Hv). rewrite length_app. lia.
Qed.

(** ** The text of a value, cut short *)

Lemma prefix_cons (c : ascii) (t p q : string) :
  String c t = p +:+ q ->
  p = "" \/ exists p', p = String c p' /\ t = p' +:+ q.
Proof.
  destruct p as [|x p]; [now left|]. rewrite app_cons. intros [= -> ->].
  right. now exists p.
Qed.

Lemma string_app_inv_head (s t u : string) : s +:+ t = s +:+ u -> t = u.
Proof.
  induction s as [|c s IH]; [now rewrite !app_nil_l|].
  rewrite !app_cons. intros [= H]. auto.
Qed.

Lemma stops_prefix (tail n q : string) :
  stops tail = true -> tail = n +:+ q -> stops n = true.
Proof.
  intros H ->. destruct n as [|c n]; [reflexivity|]. exact H.
Qed.

(** With any fuel the scanner reads the value, or nothing. *)
Lemma scan_once_dumps_partial (fuel : nat) (v : json) (rest : string) :
  plain v -> follows v rest ->
  scan_once fuel (json_dumps v +:+ rest) = None
  \/ scan_once fuel (json_dumps v +:+ rest) = Some (v, rest).
Proof.
  intros Hv Hrest.
  destruct (scan_once fuel (json_dumps v +:+ rest)) as [r|] eqn:H; [|now left].
  right. apply (scan_once_mono fuel (max fuel (json_size v))) in H; [|lia].
  rewrite (scan_once_dumps v Hv) in H; [now injection H as <- | lia | exact Hrest].
Qed.

Lemma skip_ws_prefix_dumps (v : json) (tail p q : string) :
  plain v -> json_dumps v +:+ tail = p +:+ q -> skip_ws p = p.
Proof.
  intros Hv Heq. destruct (json_dumps_head v Hv) as (c & t & Hc & Hws & _).
  rewrite Hc, app_cons in Heq.
  destruct (prefix_cons _ _ _ _ Heq) as [-> | (p' & -> & _)]; [reflexivity|].
  now apply skip_ws_head.
Qed.

(** In a proper prefix of the text of [v] the scanner finds nothing, or,
    where [v] is an integer, a number that ends with the prefix. *)
Definition no_value_before (v : json) (r : option (json * string)) : Prop :=
  match r with
  | None => True
  | Some (_, rest) => rest = "" /\ match v with JInt _ => True | _ => False end
  end.

Definition cut_short (v : json) : Prop :=
  forall (fuel : nat) (p q : string),
    json_dumps v = p +:+ q -> q ≠ "" -> no_value_before v (scan_once fuel p).

(** A prefix of a value and what follows it: the scanner finds nothing,
    or a value that ends with the prefix, or the value and a part of what
    follows it. *)
Lemma scan_once_value_prefix (fuel : nat) (v : json) (tail p q : string) :
  plain v -> cut_short v -> stops tail = true ->
  json_dumps v +:+ tail = p +:+ q ->
  scan_once fuel p = None
  \/ (exists w, scan_once fuel p = Some (w, ""))
  \/ (exists n, n ≠ "" /\ scan_once fuel p = Some (v, n) /\ tail = n +:+ q).
Proof.
  intros Hv Hcut Htail Heq.
  destruct (app_eq_app _ _ _ _ Heq) as [(m & Hm & ->) | (m & Hx & Hq)].
  - rewrite app_assoc in Heq. apply string_app_inv_head in Heq.
    destruct (scan_once_dumps_partial fuel v m Hv) as [H | H].
    + apply stops_follows. now apply (stops_prefix tail m q).
    + now left.
    + right. right. now exists m.
  - destruct m as [|c m].
    + rewrite app_nil_r in Hx. subst p.
      destruct (scan_once_dumps_partial fuel v "" Hv) as [H | H].
      * now apply stops_follows.
      * left. now rewrite app_nil_r in H.
      * right. left. exists v. now rewrite app_nil_r in H.
    + specialize (Hcut fuel p (String c m) Hx).
      destruct (scan_once fuel p) as [[w r]|]; [|now left].
      right. left. exists w. destruct Hcut as [-> _]; [discriminate | reflexivity].
Qed.

Lemma JSONArray_nil (fuel : nat) (values : list json) :
  JSONArray fuel "" values = None.
Proof.
  destruct fuel as [|fuel]; [reflexivity|]. now rewrite JSONArray_S, scan_once_nil.
Qed.

Lemma array_next_cons_comma (fuel : nat) (values : list json) (value : json)
    (t : string) :
  array_next fuel values value (String "," t)
  = JSONArray fuel (skip_ws t) (values ++ [value]).
Proof. reflexivity. Qed.

Lemma JSONArray_prefix (l : list json) :
  forall (x : json) (values : list json) (fuel : nat) (p q : string),
    Forall plain (x :: l) -> Forall cut_short (x :: l) ->
    json_dumps x +:+ array_rest l "" = p +:+ q -> q ≠ "" ->
    JSONArray fuel p values = None.
Proof.
  induction l as [|y l IH]; intros x values fuel p q Hplain Hcut Heq Hq;
    apply Forall_cons in Hplain as [Hpx Hplain];
    apply Forall_cons in Hcut as [Hcx Hcut];
    (destruct fuel as [|fuel]; [reflexivity|]); rewrite JSONArray_S;
    destruct (scan_once_value_prefix fuel x _ p q Hpx Hcx
                (stops_array_rest _ _) Heq)
      as [-> | [(w & ->) | (n & Hn & -> & Htail)]];
    try reflexivity.
  - unfold array_rest in Htail.
    destruct (prefix_cons _ _ _ _ Htail) as [-> | (n' & -> & Hnil)];
      [contradiction|].
    destruct n'; [|discriminate]. rewrite app_nil_l in Hnil. now subst q.
  - unfold array_rest in Htail.
    change (", " +:+ ?t) with (String "," (String " " t)) in Htail.
    destruct (prefix_cons _ _ _ _ Htail) as [-> | (n1 & -> & Htail1)];
      [contradiction|].
    rewrite array_next_cons_comma.
    destruct (prefix_cons _ _ _ _ Htail1) as [-> | (n2 & -> & Htail2)];
      [apply JSONArray_nil|].
    rewrite skip_ws_space.
    rewrite <- (app_assoc (join ", " (map json_dumps (y :: l))) "]" "") in Htail2.
    rewrite join_text in Htail2. fold (array_rest l "") in Htail2.
    rewrite (skip_ws_prefix_dumps y _ n2 q (Forall_inv Hplain) Htail2).
    now apply (IH y _ fuel n2 q).
Qed.

Lemma object_value_cons_colon (fuel : nat) (pairs : dict) (key : string)
    (t : string) :
  object_value fuel pairs key (String ":" t)
  = match scan_once fuel (skip_ws t) with
    | None => None
    | Some (value, rest2) => object_next fuel pairs key value rest2
    end.
Proof. reflexivity. Qed.

Lemma object_next_cons_comma (fuel : nat) (pairs : dict) (key : string)
    (value : json) (t : string) :
  object_next fuel pairs key value (String "," t)
  = match skip_ws t with
    | String c3 r =>
        if Ascii.eqb c3 dquote
        then JSONObject fuel r (dict_set key value pairs)
        else None
    | "" => None
    end.
Proof. reflexivity. Qed.

Lemma field_body_split (kv : string * json) (tail : string) :
  field_body kv tail
  = (encode_basestring_ascii (fst kv) +:+ String dquote "")
    +:+ String ":" (String " " (json_dumps (snd kv) +:+ tail)).
Proof. unfold field_body. now rewrite app_assoc. Qed.

Lemma JSONObject_prefix (l : list (string * json)) :
  forall (kv : string * json) (pairs : dict) (fuel : nat) (p q : string),
    Forall (fun kv => plain (snd kv)) (kv :: l) ->
    Forall (fun kv => cut_short (snd kv)) (kv :: l) ->
    field_body kv (object_rest l "") = p +:+ q -> q ≠ "" ->
    JSONObject fuel p pairs = None.
Proof.
  induction l as [|kv' l IH]; intros [k v] pairs fuel p q Hplain Hcut Heq Hq;
    apply Forall_cons in Hplain as [Hpv Hplain];
    apply Forall_cons in Hcut as [Hcv Hcut];
    (destruct fuel as [|fuel]; [reflexivity|]); rewrite JSONObject_S;
    rewrite field_body_split in Heq; simpl fst in Heq; simpl snd in Heq;
    (destruct (app_eq_app _ _ _ _ Heq) as [(m & Hm & ->) | (m & Hkey & Hrest)];
     [ rewrite (app_assoc _ m q) in Heq; apply string_app_inv_head in Heq;
       rewrite app_assoc, app_cons, app_nil_l, scanstring_encode;
       destruct (prefix_cons _ _ _ _ Heq) as [-> | (m1 & -> & Heq1)];
       [contradiction|];
       rewrite object_value_cons_colon;
       destruct (prefix_cons _ _ _ _ Heq1) as [-> | (m2 & -> & Heq2)];
       [now rewrite scan_once_nil|];
       rewrite skip_ws_space, (skip_ws_prefix_dumps v _ m2 q Hpv Heq2);
       destruct (scan_once_value_prefix fuel v _ m2 q Hpv Hcv
                   (stops_object_rest _ _) Heq2)
         as [-> | [(w & ->) | (n & Hn & -> & Htail)]];
       try reflexivity
     | destruct m as [|c m];
       [ rewrite app_nil_r in Hkey; subst p;
         rewrite scanstring_encode; reflexivity
       | rewrite (scanstring_prefix k p (String c m)); [reflexivity | | discriminate];
         exact Hkey ] ]).
  - unfold object_rest in Htail.
    destruct (prefix_cons _ _ _ _ Htail) as [-> | (n' & -> & Hnil)];
      [contradiction|].
    destruct n'; [|discriminate]. rewrite app_nil_l in Hnil. now subst q.
  - unfold object_rest in Htail.
    change (", " +:+ ?t) with (String "," (String " " t)) in Htail.
    destruct (prefix_cons _ _ _ _ Htail) as [-> | (n1 & -> & Htail1)];
      [contradiction|].
    rewrite object_next_cons_comma.
    destruct (prefix_cons _ _ _ _ Htail1) as [-> | (n2 & -> & Htail2)];
      [reflexivity|].
    rewrite skip_ws_space.
    rewrite <- (app_assoc (join ", " (map field_text (kv' :: l))) "}" "") in Htail2.
    rewrite join_text, field_body_text in Htail2. fold (object_rest l "") in Htail2.
    destruct (prefix_cons _ _ _ _ Htail2) as [-> | (n3 & -> & Htail3)];
      [reflexivity|].
    rewrite skip_ws_head by reflexivity. rewrite Ascii.eqb_refl.
    now apply (IH kv' _ fuel n3 q).
Qed.

Lemma scan_once_literal (lit : string) (fuel : nat) (p q : string) :
  lit = "null" \/ lit = "true" \/ lit = "false" ->
  lit = p +:+ q -> q ≠ "" -> scan_once fuel p = None.
Proof.
  intros Hlit. apply all_fail_spec.
  destruct fuel; destruct Hlit as [-> | [-> | ->]]; reflexivity.
Qed.

(** In a proper prefix of the text of a plain value the scanner finds no
    value, but for a number that ends with the prefix. *)
Lemma scan_once_prefix (v : json) : plain v -> cut_short v.
Proof.
  induction v as [|b0|n|lit|s|items IH|fields IH] using json_induction;
    intros Hv fuel p q Heq Hq.
  - rewrite (scan_once_literal "null" fuel p q); auto.
  - rewrite (scan_once_literal (json_dumps (JBool b0)) fuel p q); auto.
    destruct b0; auto.
  - destruct (scan_once_numeral_prefix fuel (pretty n) p q (numeral_pretty n) Heq)
      as [-> | (w & ->)]; simpl; auto.
  - contradiction.
  - change (json_dumps (JStr s))
      with (String dquote (encode_basestring_ascii s +:+ String dquote "")) in Heq.
    destruct (prefix_cons _ _ _ _ Heq) as [-> | (p' & -> & Heq')];
      [now rewrite scan_once_nil|].
    destruct fuel; [exact I|]. rewrite scan_once_S, Ascii.eqb_refl.
    unfold string_value. now rewrite (scanstring_prefix s p' q Heq' Hq).
  - apply plain_arr in Hv. rewrite <- (app_nil_r (json_dumps _)), array_text in Heq.
    destruct (prefix_cons _ _ _ _ Heq) as [-> | (p' & -> & Heq')];
      [now rewrite scan_once_nil|].
    destruct fuel; [exact I|]. rewrite scan_once_S. simpl Ascii.eqb. cbv iota.
    destruct items as [|x l].
    + destruct (prefix_cons _ _ _ _ Heq') as [-> | (p'' & -> & Hnil)];
        [exact I|].
      destruct p''; [|discriminate]. rewrite app_nil_l in Hnil. now subst q.
    + unfold array_open.
      rewrite (skip_ws_prefix_dumps x _ p' q (Forall_inv Hv) Heq').
      destruct (json_dumps_head x (Forall_inv Hv)) as (c & t & Hx & _ & Hc).
      pose proof Heq' as Hhead. rewrite Hx, app_cons in Hhead.
      destruct (prefix_cons _ _ _ _ Hhead) as [-> | (p'' & -> & _)];
        [exact I|].
      assert (Hcut : Forall cut_short (x :: l)).
      { clear - IH Hv. revert Hv. generalize dependent (x :: l).
        induction 1 as [|y l' Hy _ IHl]; intros Hv; [constructor|].
        apply Forall_cons in Hv as [Hpy Hv]. constructor; auto. }
      now rewrite Hc, (JSONArray_prefix l x [] fuel _ q Hv Hcut Heq' Hq).
  - apply plain_obj in Hv as [Hv _].
    rewrite <- (app_nil_r (json_dumps _)), object_text in Heq.
    destruct (prefix_cons _ _ _ _ Heq) as [-> | (p' & -> & Heq')];
      [now rewrite scan_once_nil|].
    destruct fuel; [exact I|]. rewrite scan_once_S. simpl Ascii.eqb. cbv iota.
    destruct fields as [|kv l].
    + destruct (prefix_cons _ _ _ _ Heq') as [-> | (p'' & -> & Hnil)];
        [exact I|].
      destruct p''; [|discriminate]. rewrite app_nil_l in Hnil. now subst q.
    + unfold object_open.
      destruct (prefix_cons _ _ _ _ Heq') as [-> | (p'' & -> & Heq'')];
        [exact I|].
      rewrite skip_ws_head by reflexivity. rewrite Ascii.eqb_refl.
      simpl Ascii.eqb. cbv iota.
      assert (Hcut : Forall (fun kv => cut_short (snd kv)) (kv :: l)).
      { clear - IH Hv. revert Hv. generalize dependent (kv :: l).
        induction 1 as [|y l' Hy _ IHl]; intros Hv; [constructor|].
        apply Forall_cons in Hv as [Hpy Hv]. constructor; auto. }
      now rewrite (JSONObject_prefix l kv [] fuel _ q Hv Hcut Heq'' Hq).
Qed.

(** ** UTF-8 and the text of a value *)

Lemma utf8_encode_cons (c : ascii) (r : string) :
  utf8_encode (String c r) = utf8_encode (String c "") ++ utf8_encode r.
Proof.
  simpl. destruct (N_of_ascii c <? 128)%N; now rewrite ?app_nil_r.
Qed.

Lemma utf8_decode_char (c : ascii) (rest : bytes) :
  utf8_decode (utf8_encode (String c "") ++ rest) = String c <$> utf8_decode rest.
Proof. destruct c as [[] [] [] [] [] [] [] []]; reflexivity. Qed.

(** Decoding gives back the text that was encoded. *)
Lemma utf8_decode_encode (t : string) : utf8_decode (utf8_encode t) = Some t.
Proof.
  induction t as [|c t IH]; [reflexivity|].
  now rewrite utf8_encode_cons, utf8_decode_char, IH.
Qed.

Definition is_ascii (c : ascii) : bool := (N_of_ascii c <? 128)%N.

(** A text of ASCII characters has one byte per character. *)
Lemma length_utf8_encode (t : string) :
  all_chars is_ascii t = true -> length (utf8_encode t) = String.length t.
Proof.
  induction t as [|c t IH]; [reflexivity|]. simpl. unfold is_ascii at 1.
  intros H. apply andb_true_iff in H as [Hc Ht]. rewrite Hc. simpl. auto.
Qed.

Lemma escape_char_ascii (c : ascii) : all_chars is_ascii (escape_char c) = true.
Proof. destruct c as [[] [] [] [] [] [] [] []]; reflexivity. Qed.

Lemma encode_basestring_ascii_ascii (s : string) :
  all_chars is_ascii (encode_basestring_ascii s) = true.
Proof.
  induction s as [|c s IH]; [reflexivity|]. simpl.
  now rewrite all_chars_app, escape_char_ascii, IH.
Qed.

Lemma all_chars_impl (p p' : ascii -> bool) (s : string) :
  (forall c, p c = true -> p' c = true) ->
  all_chars p s = true -> all_chars p' s = true.
Proof.
  intros Hp. induction s as [|c s IH]; [reflexivity|]. simpl.
  rewrite !andb_true_iff. intros [Hc Hs]. auto.
Qed.

Lemma is_digit_ascii (c : ascii) : is_digit c = true -> is_ascii c = true.
Proof. destruct c as [[] [] [] [] [] [] [] []]; (discriminate || reflexivity). Qed.

Lemma digits_ok_ascii (t : string) :
  digits_ok t = true -> all_chars is_ascii t = true.
Proof.
  destruct t as [|c ds]; [reflexivity|]. unfold digits_ok.
  rewrite !andb_true_iff. intros [[Hc Hds] _]. simpl.
  rewrite (is_digit_ascii c Hc). simpl.
  apply (all_chars_impl is_digit); [apply is_digit_ascii | exact Hds].
Qed.

Lemma numeral_ascii (t : string) :
  numeral t = true -> all_chars is_ascii t = true.
Proof.
  destruct t as [|c r]; [reflexivity|]. unfold numeral.
  destruct (Ascii.eqb c "-") eqn:Hc.
  - apply Ascii.eqb_eq in Hc as ->. intros H. simpl. now apply digits_ok_ascii.
  - apply digits_ok_ascii.
Qed.

Lemma all_chars_join (p : ascii -> bool) (sep : string) (l : list string) :
  all_chars p sep = true -> Forall (fun s => all_chars p s = true) l ->
  all_chars p (join sep l) = true.
Proof.
  intros Hsep. induction 1 as [|x l Hx Hl IH]; [reflexivity|].
  destruct l as [|y l]; [exact Hx|].
  change (join sep (x :: y :: l)) with (x +:+ sep +:+ join sep (y :: l)).
  now rewrite !all_chars_app, Hx, Hsep, IH.
Qed.

(** [json.dumps] writes ASCII. *)
Lemma json_dumps_ascii (v : json) :
  plain v -> all_chars is_ascii (json_dumps v) = true.
Proof.
  induction v as [|b0|n|lit|s|items IH|fields IH] using json_induction;
    intros Hv.
  - reflexivity.
  - now destruct b0.
  - apply numeral_ascii, numeral_pretty.
  - contradiction.
  - change (json_dumps (JStr s))
      with (String dquote (encode_basestring_ascii s +:+ String dquote "")).
    simpl. now rewrite all_chars_app, encode_basestring_ascii_ascii.
  - apply plain_arr in Hv.
    change (json_dumps (JArr items))
      with (String "[" (join ", " (map json_dumps items) +:+ "]")).
    simpl. rewrite all_chars_app, all_chars_join; [reflexivity..|].
    apply Forall_map. clear - IH Hv. revert Hv.
    induction IH as [|y l' Hy _ IHl]; intros Hv; [constructor|].
    apply Forall_cons in Hv as [Hpy Hv]. constructor; auto.
  - apply plain_obj in Hv as [Hv _].
    change (json_dumps (JObj fields))
      with (String "{" (join ", " (map field_text fields) +:+ "}")).
    simpl. rewrite all_chars_app, all_chars_join; [reflexivity..|].
    apply Forall_map. clear - IH Hv. revert Hv.
    induction IH as [|y l' Hy _ IHl]; intros Hv; [constructor|].
    apply Forall_cons in Hv as [Hpy Hv]. constructor; [|auto].
    unfold field_text, quoted. simpl.
    rewrite !all_chars_app, encode_basestring_ascii_ascii. simpl. auto.
Qed.

(** ** The contracts of the client, in the reference environment *)

Lemma mem_ascii_feed_whitespace (c : ascii) :
  mem_ascii c WHITESPACE = false -> mem_ascii c feed_whitespace = false.
Proof.
  unfold WHITESPACE, feed_whitespace. simpl.
  destruct (Ascii.eqb c " "), (Ascii.eqb c TAB), (Ascii.eqb c LF),
    (Ascii.eqb c CR); (discriminate || reflexivity).
Qed.

Lemma starts_value_dumps (v : json) :
  plain v -> starts_value feed_whitespace (json_dumps v).
Proof.
  intros Hv. destruct (json_dumps_head v Hv) as (c & t & -> & Hc & _).
  split; [discriminate|].
  change (lstrip feed_whitespace (String c t))
    with (if mem_ascii c feed_whitespace then lstrip feed_whitespace t
          else String c t).
  now rewrite (mem_ascii_feed_whitespace c Hc).
Qed.

(** The text that [json.dumps] writes for a plain value that is not a
    number is self-delimiting: null, booleans, strings, arrays, objects. *)
Lemma json_dumps_self_delimiting (version : string) (version_info : list Z)
    (v : json) :
  plain v -> closed v ->
  @self_delimiting (py_env version version_info) (json_dumps v) v.
Proof.
  intros Hv Hc. split; [now apply starts_value_dumps|]. split.
  - intros rest. apply raw_decode_dumps; [exact Hv | now destruct v].
  - intros p q Heq Hq. change (raw_decode p = None). unfold raw_decode.
    pose proof (scan_once_prefix v Hv (2 * String.length p + 2)%nat p q Heq Hq) as H.
    destruct (scan_once _ p) as [[w r]|]; [|reflexivity].
    destruct H as [_ H]. now destruct v.
Qed.

(** What [_addBodyToRequest] needs of [json] and of the UTF-8 codec holds
    in the reference environment for every plain mapping. *)
Lemma json_dumps_round_trip (d : dict) :
  plain (JObj d) ->
  json_loads (json_dumps (JObj d)) = Some (JObj d)
  /\ utf8_decode (utf8_encode (json_dumps (JObj d))) = Some (json_dumps (JObj d))
  /\ length (utf8_encode (json_dumps (JObj d)))
     = String.length (json_dumps (JObj d)).
Proof.
  intros Hd. split; [now apply json_loads_dumps|].
  split; [apply utf8_decode_encode|].
  now apply length_utf8_encode, json_dumps_ascii.
Qed.

#[local] Transparent scan_once JSONArray JSONObject.
End PyRefFacts.

(** What [_addBodyToRequest] needs of [json] and of the UTF-8 codec, for
    the client of any version in the reference environment and every
    plain mapping. *)
Lemma py_env_mapping_body (version : string) (version_info : list Z)
    (d : dict) :
  PyRefFacts.plain (JObj d) ->
  @json_loads (py_env version version_info)
    (@json_dumps (py_env version version_info) (JObj d)) = Some (JObj d)
  /\ @utf8_decode (py_env version version_info)
       (@utf8_encode (py_env version version_info)
          (@json_dumps (py_env version version_info) (JObj d)))
     = Some (@json_dumps (py_env version version_info) (JObj d))
  /\ length (@utf8_encode (py_env version version_info)
               (@json_dumps (py_env version version_info) (JObj d)))
     = String.length (@json_dumps (py_env version version_info) (JObj d)).
Proof. apply PyRefFacts.json_dumps_round_trip. Qed.

(** * Mappings that come back from their JSON text *)

Section pyobj_induction.
Variable P : pyobj -> Prop.
Hypothesis Hnone : P PNone.
Hypothesis Hbool : forall b0, P (PBool b0).
Hypothesis Hint : forall n, P (PInt n).
Hypothesis Hfloat : forall lit, P (PFloat lit).
Hypothesis Hstr : forall s, P (PStr s).
Hypothesis Hlist : forall items, Forall P items -> P (PList items).
Hypothesis Htuple : forall items, Forall P items -> P (PTuple items).
Hypothesis Hdict :
  forall fields, Forall (fun kv => P (snd kv)) fields -> P (PDict fields).

Fixpoint pyobj_induction (o : pyobj) : P o :=
  match o with
  | PNone => Hnone
  | PBool b0 => Hbool b0
  | PInt n => Hint n
  | PFloat lit => Hfloat lit
  | PStr s => Hstr s
  | PList items =>
      Hlist items
        ((fix go (l : list pyobj) : Forall P l :=
            match l with
            | [] => List.Forall_nil _
            | x :: l' => List.Forall_cons _ _ _ (pyobj_induction x) (go l')
            end) items)
  | PTuple items =>
      Htuple items
        ((fix go (l : list pyobj) : Forall P l :=
            match l with
            | [] => List.Forall_nil _
            | x :: l' => List.Forall_cons _ _ _ (pyobj_induction x) (go l')
            end) items)
  | PDict fields =>
      Hdict fields
        ((fix go (l : list (pykey * pyobj)) : Forall (fun kv => P (snd kv)) l :=
            match l with
            | [] => List.Forall_nil _
            | kv :: l' => List.Forall_cons _ _ _ (pyobj_induction (snd kv)) (go l')
            end) fields)
  end.
End pyobj_induction.

(** The keys of a dictionary of strings are written as they are. *)
Lemma key_text_str_keys (fields : list (pykey * pyobj)) :
  forallb (fun kv => match fst kv with
                     | KStr _ => is_json_value (snd kv)
                     | KInt _ => false
                     end) fields = true ->
  map fst fields
  = map KStr (map fst (map (fun kv => (key_text (fst kv), as_json (snd kv)))
                         fields)).
Proof.
  induction fields as [|[k o] l IH]; [reflexivity|]. simpl.
  intros H. apply andb_true_iff in H as [Hk Hl].
  destruct k as [s|n]; [|discriminate Hk]. simpl. now rewrite <- IH.
Qed.

(** [json.dumps] writes a JSON value as itself: what it writes is a plain
    value, and reads back as the object. *)
Lemma as_json_of_json_value (o : pyobj) :
  is_json_value o = true ->
  PyRefFacts.plain (as_json o) /\ py_of_json (as_json o) = o.
Proof.
  induction o as [|b0|n|lit|s|items IH|items IH|fields IH]
    using pyobj_induction; intros H; try discriminate H;
    try (split; [exact I | reflexivity]).
  - simpl in H.
    assert (Hall : Forall PyRefFacts.plain (map as_json items)
                   /\ map py_of_json (map as_json items) = items).
    { induction IH as [|x l Hx _ IHl]; [split; [constructor | reflexivity]|].
      simpl in H. apply andb_true_iff in H as [H1 H2].
      destruct (Hx H1) as [Hp Hr], (IHl H2) as [Hps Hrs].
      split; [now constructor|]. simpl. now rewrite Hr, Hrs. }
    destruct Hall as [Hp Hr]. split.
    + now apply PyRefFacts.plain_arr.
    + simpl. now rewrite Hr.
  - simpl in H. apply andb_true_iff in H as [H Hkeys].
    apply bool_decide_eq_true in Hkeys.
    pose proof (key_text_str_keys fields H) as Hstr.
    assert (Hall :
      Forall (fun kv => PyRefFacts.plain (snd kv))
        (map (fun kv => (key_text (fst kv), as_json (snd kv))) fields)
      /\ map (fun kv => (KStr (fst kv), py_of_json (snd kv)))
           (map (fun kv => (key_text (fst kv), as_json (snd kv))) fields)
         = fields).
    { clear Hkeys Hstr.
      induction IH as [|[k x] l Hx _ IHl]; [split; [constructor | reflexivity]|].
      simpl in H. apply andb_true_iff in H as [H1 H2].
      destruct k as [s|n]; [|discriminate H1].
      destruct (Hx H1) as [Hp Hr], (IHl H2) as [Hps Hrs].
      split; [now constructor|]. simpl in *. now rewrite Hr, Hrs. }
    destruct Hall as [Hp Hr]. split.
    + apply PyRefFacts.plain_obj. split; [exact Hp|].
      rewrite Hstr in Hkeys. revert Hkeys. apply NoDup_fmap_1.
    + simpl. now rewrite Hr.
Qed.


(** * Examples *)

Definition dev_env : Env := py_env "2.1.0dev1" [2; 1; 0; -99].
Definition stable_env : Env := py_env "2.1.0" [2; 1; 0; 0].

Definition a_client : HTTPClient :=
  {| _protocol := "http"; _host := "127.0.0.1"; _port := 3080;
     _user := None; _password := None; _connected := true;
     _accept_insecure_certificate := None; _buffer := ∅;
     _progress_callback := None; uuid_calls := 1 |}.

Definition a_context : context := {["query_id" := PyRef.uuid4 0]}.

(** ConnectionRefusedError *)
Definition connection_refused : QNetworkReply :=
  {| error := 1; errorString := "Connection refused";
     HttpStatusCodeAttribute := 0; readAll := [];
     ContentTypeHeader := None |}.

(** 400, reported by Qt as ProtocolInvalidOperationError *)
Definition bad_request_reply : QNetworkReply :=
  {| error := 302; errorString := "Error transferring - server replied: Bad Request";
     HttpStatusCodeAttribute := 400; readAll := b fingerprint_body;
     ContentTypeHeader := Some "application/json" |}.

(** 200 with a page that is not JSON under the JSON content type *)
Definition intercepted_reply : QNetworkReply :=
  {| error := NoError; errorString := "Unknown error";
     HttpStatusCodeAttribute := 200; readAll := b "<html>blocked</html>";
     ContentTypeHeader := Some "application/json" |}.

Lemma C4_witness :
  exists (c' : HTTPClient) (t : list event) (msg : string),
    @_processResponse dev_env connection_refused None
      (Some (UserCallback "callback")) a_context None false a_client
    = (Ok tt, c', t)
    /\ _connected c' = false
    /\ callbacks t
       = [Callback "callback" (JObj [("message", JStr msg)]) true None
            (Some a_context) None]
    /\ msg = "Connection refused"
    /\ msg ≠ "".
Proof.
  apply (@C4_transport_failure_closes_and_reports dev_env connection_refused).
  - discriminate.
  - reflexivity.
  - discriminate.
  - reflexivity.
Defined.

Lemma intercepted_reply_garbled : @garbled_success dev_env intercepted_reply.
Proof. repeat split. Qed.

(** C1: a reply without error, of status 200, whose body is labelled
    [application/json] and is not JSON: [_processResponse] raises the
    decoding error of [json.loads] and the callback is not called. *)
Theorem C1_decode_error_escapes_without_callback :
  exists t : list event,
    @_processResponse dev_env intercepted_reply None
      (Some (UserCallback "callback")) a_context None false a_client
    = (Raise JSONDecodeError, a_client, t)
    /\ callbacks t = [].
Proof.
  apply (@_processResponse_garbled_success dev_env).
  exact intercepted_reply_garbled.
Qed.

(** 400 under a content type that is not [application/json] itself *)
Definition charset_bad_request_reply : QNetworkReply :=
  {| error := 302; errorString := "Error transferring - server replied: Bad Request";
     HttpStatusCodeAttribute := 400; readAll := b fingerprint_body;
     ContentTypeHeader := Some "application/json; charset=utf-8" |}.

(** C3, as the specification states it: the reply has the status 400 and
    the body [{"path": "/some/fingerprint"}], and the callback does not
    receive the parsed body: under another content type than
    [application/json] it is called with the error string of the reply,
    and [HttpBadRequest] is raised with the fingerprint all the same. *)
Lemma C3_counterexample :
  HttpStatusCodeAttribute charset_bad_request_reply = 400
  /\ @decoded_body dev_env charset_bad_request_reply = Some fingerprint_body
  /\ (exists t : list event,
        @_processResponse dev_env charset_bad_request_reply None
          (Some (UserCallback "callback")) a_context None false a_client
        = (Raise (HttpBadRequest (Some fingerprint_body)
                    (Some (JStr "/some/fingerprint"))), a_client, t)
        /\ callbacks t
           = [Callback "callback"
                (message "Error transferring - server replied: Bad Request")
                true None (Some a_context) None])
  /\ ~ In (Callback "callback" (JObj [("path", JStr "/some/fingerprint")]) true
             None (Some a_context) None)
          (snd (@_processResponse dev_env charset_bad_request_reply None
                  (Some (UserCallback "callback")) a_context None false
                  a_client)).
Proof.
  split; [reflexivity|]. split; [reflexivity|]. split.
  - eexists. split; reflexivity.
  - vm_compute. intros H.
    repeat (destruct H as [H|H]; [discriminate H|]). destruct H.
Qed.

Lemma C3_witness :
  exists t : list event,
    @_processResponse dev_env bad_request_reply None
      (Some (UserCallback "callback")) a_context None false a_client
    = (Raise (HttpBadRequest (Some fingerprint_body)
                (Some (JStr "/some/fingerprint"))), a_client, t)
    /\ callbacks t
       = [Callback "callback" (JObj [("path", JStr "/some/fingerprint")]) true
            None (Some a_context) None].
Proof.
  apply (@C3_bad_request_raised_after_callback dev_env bad_request_reply None
           "callback" a_context None false a_client).
  - reflexivity.
  - right. vm_compute. discriminate.
  - reflexivity.
  - reflexivity.
Defined.

Definition a_query : query :=
  {| q_method := "GET"; q_path := "/projects"; q_callback := Some "callback";
     q_body := BodyDict []; q_context := ∅; q_options := default_options;
     q_server := None |}.

Definition disconnected : HTTPClient := set_connected false a_client.

(** The decoded body of an answer to [/version]. *)
Definition version_body (v : string) : dict :=
  [("version", JStr v); ("local", JBool true)].

Lemma C2_witness :
  (* the same version *)
  (@connects dev_env a_query None disconnected
     (@_callbackConnect dev_env a_query (JObj (version_body "2.1.0dev1")) false
        None disconnected)
   /\ callbacks
        (snd (@_callbackConnect dev_env a_query
                (JObj (version_body "2.1.0dev1")) false None disconnected)) = [])
  (* a stable client and another patch version *)
  /\ @_callbackConnect stable_env a_query (JObj (version_body "2.1.1")) false
       None disconnected
     = (Ok tt, disconnected,
        [@version_mismatch stable_env "callback" (JStr "2.1.1") None])
  (* a development client and another minor version *)
  /\ @_callbackConnect dev_env a_query (JObj (version_body "2.2.0dev1")) false
       None disconnected
     = (Ok tt, disconnected,
        [@version_mismatch dev_env "callback" (JStr "2.2.0dev1") None])
  (* a development client and another patch version *)
  /\ (@connects dev_env a_query None disconnected
        (@_callbackConnect dev_env a_query (JObj (version_body "2.1.3")) false
           None disconnected)
      /\ callbacks
           (snd (@_callbackConnect dev_env a_query (JObj (version_body "2.1.3"))
                   false None disconnected)) = []).
Proof.
  pose proof (@C2_version_comparison dev_env a_query
                (version_body "2.1.0dev1") "2.1.0dev1" "callback" None
                disconnected eq_refl eq_refl eq_refl) as (Hsame & _).
  pose proof (@C2_version_comparison stable_env a_query
                (version_body "2.1.1") "2.1.1" "callback" None
                disconnected eq_refl eq_refl eq_refl) as (_ & Hstable & _).
  pose proof (@C2_version_comparison dev_env a_query
                (version_body "2.2.0dev1") "2.2.0dev1" "callback" None
                disconnected eq_refl eq_refl eq_refl) as (_ & _ & Hminor & _).
  pose proof (@C2_version_comparison dev_env a_query
                (version_body "2.1.3") "2.1.3" "callback" None
                disconnected eq_refl eq_refl eq_refl) as (_ & _ & _ & Hpatch).
  split; [|split; [|split]].
  - apply Hsame. reflexivity.
  - apply Hstable; [reflexivity | vm_compute; discriminate].
  - apply Hminor; [eexists; reflexivity | vm_compute; discriminate].
  - apply (Hpatch (-99)); try reflexivity; vm_compute; discriminate.
Defined.

(** C7, as the specification states it: a decoded body with the field
    [version] and without the field [local] is answered by the protocol
    mismatch; it does not reach the version test. *)
Lemma C7_counterexample :
  dict_has "version" [("version", JStr "2.1.0dev1")] = true
  /\ dict_has "local" [("version", JStr "2.1.0dev1")] = false
  /\ @_callbackConnect dev_env a_query (JObj [("version", JStr "2.1.0dev1")])
       false None disconnected
     = (Ok tt, disconnected,
        [Callback "callback"
           (message "The remote server http://127.0.0.1:3080 is not a GNS3 server")
           true None None None]).
Proof. repeat split. Qed.

Lemma C7_witness :
  @_callbackConnect dev_env a_query (JObj [("local", JBool true)]) false None
    disconnected
  = (Ok tt, disconnected, [protocol_mismatch disconnected "callback" None])
  <-> dict_has "version" [("local", JBool true)] = false
      \/ dict_has "local" [("local", JBool true)] = false.
Proof.
  apply (@C7_protocol_mismatch_iff_a_field_is_missing dev_env a_query
           [("local", JBool true)] "callback" None disconnected).
  reflexivity.
Defined.



(** A client whose host is an IPv6 address with a zone id. *)
Definition link_local_client : HTTPClient :=
  {| _protocol := "http"; _host := "fe80::1%eth0"; _port := 3080;
     _user := None; _password := None; _connected := true;
     _accept_insecure_certificate := None; _buffer := ∅;
     _progress_callback := None; uuid_calls := 0 |}.

Lemma C9_witness :
  exists (request : QNetworkRequest) (body' : option QIODevice)
         (c' : HTTPClient) (t : list event),
    @_executeHTTPQuery dev_env "GET" "/projects"
      (Some (UserCallback "callback")) BodyNone ∅ default_options None
      link_local_client
    = (Ok tt, c', SendCustomRequest "GET" request body' :: t)
    /\ req_url request = "http://[fe80::1]:3080/v2/projects".
Proof.
  destruct (@C9_ipv6_host_is_bracketed dev_env "GET" "/projects"
              (Some (UserCallback "callback")) BodyNone ∅ default_options None
              link_local_client)
    as (request & body' & c' & t & host & Hrun & _ & Hurl & _ & _ & _ & Hhost).
  exists request, body', c', t. split; [exact Hrun|].
  rewrite Hurl, (Hhost eq_refl eq_refl). reflexivity.
Defined.

Lemma C10_witness :
  (exists (request : QNetworkRequest) (body : option QIODevice)
          (c' : HTTPClient) (t : list event),
     @createHTTPQuery dev_env "POST" "/projects" (Some "callback") None None
       default_options None a_client
     = (Ok tt, c', SendCustomRequest "POST" request body :: t)
     /\ body = Some (QBuffer (b "{}"))
     /\ rawHeader "Content-Type" (rawHeaders request) = Some (b "application/json")
     /\ rawHeader "Content-Length" (rawHeaders request) = Some (b "2"))
  /\ (exists (q : query) (p : pending) (bootstrap : event) (c' : HTTPClient)
             (t : list event),
        @createHTTPQuery dev_env "POST" "/projects" (Some "callback") None None
          default_options None disconnected
        = (Ok tt, c', bootstrap :: FinishedConnect p :: t)
        /\ p_callback p = Some (ConnectCallback q)
        /\ q_body q = BodyDict []).
Proof.
  destruct (@C10_omitted_body_is_the_empty_mapping dev_env "POST" "/projects"
              (Some "callback") None default_options None a_client
              eq_refl eq_refl eq_refl) as [Hconnected _].
  destruct (@C10_omitted_body_is_the_empty_mapping dev_env "POST" "/projects"
              (Some "callback") None default_options None disconnected
              eq_refl eq_refl eq_refl) as [_ Hdisconnected].
  split.
  - destruct (Hconnected eq_refl) as (request & body & c' & t & Hrun & _ & Hsent).
    exists request, body, c', t. split; [exact Hrun | exact Hsent].
  - destruct (Hdisconnected eq_refl)
      as (q & p & bootstrap & c' & t & Hrun & _ & _ & Hp & _ & _ & Hq & _).
    exists q, p, bootstrap, c', t. auto.
Defined.

(** The answer of a server of the version of the client to [/version]. *)
Definition version_reply : QNetworkReply :=
  {| error := NoError; errorString := "Unknown error";
     HttpStatusCodeAttribute := 200;
     readAll := b ("{" +:+ quoted "version" +:+ ": " +:+ quoted "2.1.0dev1"
                   +:+ ", " +:+ quoted "local" +:+ ": true}");
     ContentTypeHeader := Some "application/json" |}.

(** A query without body on a client that is not connected, and the answer
    to [/version]: both requests carry the empty mapping. *)
Example handshake_then_query :
  forall (c1 : HTTPClient) (p : pending) (e : event) (t : list event),
    @createHTTPQuery dev_env "POST" "/projects" (Some "callback") None None
      default_options None disconnected
    = (Ok tt, c1, e :: FinishedConnect p :: t) ->
    let out := @_processResponse dev_env version_reply (p_server p)
                 (p_callback p) (p_context p) (p_body p) (p_ignore_errors p) c1 in
    fst out = (Ok tt, set_uuid_calls 3 a_client)
    /\ requests (e :: snd out)
       = [SendCustomRequest "GET"
            {| req_url := "http://127.0.0.1:3080/v2/version";
               rawHeaders := [("User-Agent", b "GNS3 QT Client v2.1.0dev1");
                              ("Content-Type", b "application/json");
                              ("Content-Length", b "2")] |}
            (Some (QBuffer (b "{}")));
          SendCustomRequest "POST"
            {| req_url := "http://127.0.0.1:3080/v2/projects";
               rawHeaders := [("User-Agent", b "GNS3 QT Client v2.1.0dev1");
                              ("Content-Type", b "application/json");
                              ("Content-Length", b "2")] |}
            (Some (QBuffer (b "{}")))].
Proof.
  intros c1 p e t H. vm_compute in H. injection H as <- <- <- _.
  vm_compute. split; reflexivity.
Qed.

(** A chunk of a JSON feed. *)
Definition json_chunk (data : bytes) : QNetworkReply :=
  {| error := NoError; errorString := "Unknown error";
     HttpStatusCodeAttribute := 200; readAll := data;
     ContentTypeHeader := Some "application/json" |}.

(** C8, as the specification states it: the chunk [{}] is complete; the
    step creates the entry of the query all the same, and the entry holds
    the empty fragment instead of being deleted. *)
Lemma C8_counterexample :
  _buffer a_client !! PyRef.uuid4 0 = None
  /\ @_processDownloadProgress dev_env (json_chunk (b "{}")) "download"
       a_context None a_client
     = (Ok tt, set_buffer {[PyRef.uuid4 0 := ""]} a_client,
        [DownloadCallback "download" (inl (JObj [])) None a_context])
  /\ _buffer (set_buffer {[PyRef.uuid4 0 := ""]} a_client) !! PyRef.uuid4 0
     = Some "".
Proof. repeat split. Qed.

Lemma C8_witness :
  exists (r : res unit) (c' : HTTPClient) (t : list event),
    @_processDownloadProgress dev_env (json_chunk (b "{} [1")) "download"
      a_context None a_client = (r, c', t)
    /\ r = Ok tt
    /\ exists (answers : list json) (rest : string),
         downloads t = map inl answers
         /\ @undecoded dev_env rest
         /\ _buffer c' = <[PyRef.uuid4 0 := rest]> (_buffer a_client).
Proof.
  destruct (@C8_buffer_entry_is_written_and_kept dev_env
              (json_chunk (b "{} [1")) "download" a_context None a_client
              (PyRefFacts.raw_decode_progress _ _))
    as (r & c' & t & Hrun & _ & _ & Hstep & _).
  exists r, c', t. split; [exact Hrun|].
  destruct (Hstep "{} [1" (PyRef.uuid4 0)) as (Hr & answers & rest & _ & Hd & Hu & Hb).
  - repeat split.
  - reflexivity.
  - split; [exact Hr|]. exists answers, rest. auto.
Defined.

(** C5, as the specification states it: the value 1234, whose text is
    [1234], comes whole or cut into [12] and [34]; whole, the callback
    receives 1234; cut, it receives 12 and then 34. *)
Lemma C5_counterexample :
  PyRef.json_dumps (JInt 1234) = "1234"
  /\ b "12" ++ b "34" = PyRef.utf8_encode "1234"
  /\ @deliver dev_env [json_chunk (b "1234")] "download" a_context None a_client
     = (Ok tt, set_buffer {[PyRef.uuid4 0 := ""]} a_client,
        [DownloadCallback "download" (inl (JInt 1234)) None a_context])
  /\ @deliver dev_env [json_chunk (b "12"); json_chunk (b "34")] "download"
       a_context None a_client
     = (Ok tt, set_buffer {[PyRef.uuid4 0 := ""]} a_client,
        [DownloadCallback "download" (inl (JInt 12)) None a_context;
         DownloadCallback "download" (inl (JInt 34)) None a_context]).
Proof. repeat split. Qed.

(** A chunk that ends inside a character: the string of the one
    character U+00E9, whole and cut between the two bytes of the
    character.  Cut, the first step raises [UnicodeDecodeError]. *)
Example fragment_inside_a_character :
  @deliver dev_env
    [json_chunk [Byte.x22; Byte.xc3; Byte.xa9; Byte.x22]] "download"
    a_context None a_client
  = (Ok tt, set_buffer {[PyRef.uuid4 0 := ""]} a_client,
     [DownloadCallback "download" (inl (JStr (String "233"%char ""))) None
        a_context])
  /\ @deliver dev_env
       [json_chunk [Byte.x22; Byte.xc3]; json_chunk [Byte.xa9; Byte.x22]]
       "download" a_context None a_client
     = (Raise UnicodeDecodeError, a_client, []).
Proof. repeat split. Qed.

(** Two notifications of a controller. *)
Definition ping : json := JObj [("action", JStr "ping")].
Definition node_updated : json :=
  JObj [("action", JStr "node.updated");
        ("event", JObj [("node_id", JInt 7); ("ports", JArr [JInt 1; JNull])])].

(** The feed of the two notifications, a line feed after each. *)
Definition notifications : list (string * string * json) :=
  [("", PyRef.json_dumps ping, ping);
   (String LF "", PyRef.json_dumps node_updated, node_updated)].

Definition feed : string := stream notifications (String LF "").

(** The feed cut inside a key of the first notification and inside a
    string of the second. *)
Definition cuts : list string :=
  [String.substring 0 5 feed; String.substring 5 30 feed;
   String.substring 35 (String.length feed - 35) feed].

Lemma C5_witness :
  exists (c1 c2 : HTTPClient) (t1 t2 : list event),
    @deliver dev_env [json_chunk (PyRef.utf8_encode feed)] "download"
      a_context None a_client = (Ok tt, c1, t1)
    /\ @deliver dev_env
         (map (fun text => json_chunk (PyRef.utf8_encode text)) cuts)
         "download" a_context None a_client = (Ok tt, c2, t2)
    /\ downloads t1 = [inl ping; inl node_updated]
    /\ downloads t2 = downloads t1.
Proof.
  apply (@C5_fragmentation_of_self_delimiting_values dev_env notifications
           (String LF "") (json_chunk (PyRef.utf8_encode feed))
           (map (fun text => json_chunk (PyRef.utf8_encode text)) cuts)
           cuts "download" a_context None (PyRef.uuid4 0) a_client).
  - apply PyRefFacts.raw_decode_progress.
  - constructor; [|constructor; [|constructor]];
      (split; [reflexivity|]);
      (apply PyRefFacts.json_dumps_self_delimiting;
       [apply PyRefFacts.plainb_plain; reflexivity | exact I]).
  - reflexivity.
  - repeat split.
  - repeat constructor.
  - reflexivity.
  - reflexivity.
  - reflexivity.
Defined.

(** * The accessors of the client *)

Definition set_host (h : string) (c : HTTPClient) : HTTPClient :=
  {| _protocol := _protocol c; _host := h; _port := _port c;
     _user := _user c; _password := _password c; _connected := _connected c;
     _accept_insecure_certificate := _accept_insecure_certificate c;
     _buffer := _buffer c; _progress_callback := _progress_callback c;
     uuid_calls := uuid_calls c |}.

Definition set_port (p : Z) (c : HTTPClient) : HTTPClient :=
  {| _protocol := _protocol c; _host := _host c; _port := p;
     _user := _user c; _password := _password c; _connected := _connected c;
     _accept_insecure_certificate := _accept_insecure_certificate c;
     _buffer := _buffer c; _progress_callback := _progress_callback c;
     uuid_calls := uuid_calls c |}.

Definition set_password (pw : option string) (c : HTTPClient) : HTTPClient :=
  {| _protocol := _protocol c; _host := _host c; _port := _port c;
     _user := _user c; _password := pw; _connected := _connected c;
     _accept_insecure_certificate := _accept_insecure_certificate c;
     _buffer := _buffer c; _progress_callback := _progress_callback c;
     uuid_calls := uuid_calls c |}.

Definition set_accept_insecure_certificate (certificate : option string)
    (c : HTTPClient) : HTTPClient :=
  {| _protocol := _protocol c; _host := _host c; _port := _port c;
     _user := _user c; _password := _password c; _connected := _connected c;
     _accept_insecure_certificate := certificate;
     _buffer := _buffer c; _progress_callback := _progress_callback c;
     uuid_calls := uuid_calls c |}.

Definition set_progress_callback (cb : option bool) (c : HTTPClient)
  : HTTPClient :=
  {| _protocol := _protocol c; _host := _host c; _port := _port c;
     _user := _user c; _password := _password c; _connected := _connected c;
     _accept_insecure_certificate := _accept_insecure_certificate c;
     _buffer := _buffer c; _progress_callback := cb;
     uuid_calls := uuid_calls c |}.

(** [self.host()], [self.setHost(host)] and the like *)
Definition host : M string := c ← get_self; ret (_host c).
Definition setHost (h : string) : M unit := modify (set_host h).
Definition port : M Z := c ← get_self; ret (_port c).
Definition setPort (p : Z) : M unit := modify (set_port p).
Definition protocol : M string := c ← get_self; ret (_protocol c).
Definition setAcceptInsecureCertificate (certificate : option string) : M unit :=
  modify (set_accept_insecure_certificate certificate).
Definition user : M (option string) := c ← get_self; ret (_user c).
Definition password : M (option string) := c ← get_self; ret (_password c).
Definition setPassword (pw : option string) : M unit := modify (set_password pw).
Definition connected : M bool := c ← get_self; ret (_connected c).

(** [HTTPClient.setProgressCallback(progress_callback)]: the class
    attribute, kept with the client. *)
Definition setProgressCallback (progress_callback : option bool) : M unit :=
  modify (set_progress_callback progress_callback).

(** * Invariants of the methods *)

(** [m] leaves the client within [R] of where it started and emits events
    of [P] only, whether it returns or raises. *)
Definition within (R : relation HTTPClient) (P : event -> Prop) {A} (m : M A)
  : Prop :=
  forall c : HTTPClient, R c (snd (fst (m c))) /\ Forall P (snd (m c)).

Section Within.
Context (R : relation HTTPClient) `{!PreOrder R} (P : event -> Prop).

Lemma within_ret {A} (a : A) : within R P (ret a).
Proof. intros c. split; [reflexivity | constructor]. Qed.

Lemma within_raise {A} (e : exn) : within R P (@raise A e).
Proof. intros c. split; [reflexivity | constructor]. Qed.

Lemma within_get_self : within R P get_self.
Proof. intros c. split; [reflexivity | constructor]. Qed.

Lemma within_emit (e : event) : P e -> within R P (emit e).
Proof. intros He c. split; [reflexivity | repeat constructor; exact He]. Qed.

Lemma within_modify (f : HTTPClient -> HTTPClient) :
  (forall c, R c (f c)) -> within R P (modify f).
Proof. intros Hf c. split; [apply Hf | constructor]. Qed.

Lemma within_bind {A B} (m : M A) (f : A -> M B) :
  within R P m -> (forall a, within R P (f a)) -> within R P (m ≫= f).
Proof.
  intros Hm Hf c. unfold mbind, M_bind, bind.
  destruct (Hm c) as [Hc Ht]. destruct (m c) as [[[a|e] c1] t1]; simpl in *.
  - destruct (Hf a c1) as [Hc1 Ht1].
    destruct (f a c1) as [[r c2] t2]; simpl in *.
    split; [now transitivity c1 | now apply Forall_app].
  - split; assumption.
Qed.

Lemma within_try_except {A} (m : M A) (handles : exn -> bool) (h : M A) :
  within R P m -> within R P h -> within R P (try_except m handles h).
Proof.
  intros Hm Hh c. unfold try_except.
  destruct (Hm c) as [Hc Ht]. destruct (m c) as [[[a|e] c1] t1]; simpl in *.
  - split; assumption.
  - destruct (handles e); [|split; assumption].
    destruct (Hh c1) as [Hc1 Ht1].
    destruct (h c1) as [[r c2] t2]; simpl in *.
    split; [now transitivity c1 | now apply Forall_app].
Qed.

Lemma within_when (b0 : bool) (m : M unit) :
  within R P m -> within R P (when b0 m).
Proof. intros Hm. destruct b0; [exact Hm | apply within_ret]. Qed.
End Within.

Lemma within_weaken (R : relation HTTPClient) (P Q : event -> Prop) {A}
    (m : M A) :
  (forall e, P e -> Q e) -> within R P m -> within R Q m.
Proof.
  intros HPQ Hm c. destruct (Hm c) as [Hc Ht]. split; [exact Hc|].
  eapply Forall_impl; eauto.
Qed.

(** The client [c'] has the settings, the buffer and the progress
    callback of [c]: it differs at most in the connected flag (and in the
    count of UUIDs drawn). *)
Definition same_settings (c c' : HTTPClient) : Prop :=
  _protocol c' = _protocol c /\ _host c' = _host c /\ _port c' = _port c
  /\ _user c' = _user c /\ _password c' = _password c
  /\ _accept_insecure_certificate c' = _accept_insecure_certificate c
  /\ _buffer c' = _buffer c /\ _progress_callback c' = _progress_callback c.

#[global] Instance same_settings_preorder : PreOrder same_settings.
Proof.
  split.
  - intros c. repeat split.
  - intros c1 c2 c3 H12 H23. unfold same_settings in *.
    destruct H12 as (?&?&?&?&?&?&?&?), H23 as (?&?&?&?&?&?&?&?).
    repeat split; congruence.
Qed.

(** The events of the dispatcher, the handshake and the classifier: calls
    of response callbacks, requests, and the registrations that go with a
    request. *)
Definition dispatch_event (e : event) : Prop :=
  match e with
  | Callback _ _ _ _ _ _ | SendCustomRequest _ _ _ | FinishedConnect _
  | DownloadProgressConnect _ _ _ | ProgressForward _ | AddQuery _ _
  | SingleShot _ | ConnectionConnected => True
  | DownloadCallback _ _ _ _ | RemoveQuery _ | CanceledConnect _
  | CloseRequestBody => False
  end.

Create HintDb within discriminated.

Ltac within_step :=
  lazymatch goal with
  | |- within _ _ (mbind _ _) => apply within_bind; [exact _ | | intros ?]
  | |- within _ _ (ret _) => apply within_ret; exact _
  | |- within _ _ (mret _) => apply within_ret; exact _
  | |- within _ _ (raise _) => apply within_raise; exact _
  | |- within _ _ get_self => apply within_get_self; exact _
  | |- within _ _ (emit _) => apply within_emit; [exact _ | exact I]
  | |- within _ _ (modify _) =>
      apply within_modify; intros ?; repeat split
  | |- within _ _ (when _ _) => apply within_when; [exact _ |]
  | |- within _ _ (try_except _ _ _) => apply within_try_except; [exact _ | |]
  | |- within _ _ (if ?b then _ else _) => destruct b
  | |- within _ _ (match ?x with _ => _ end) => destruct x
  end.

Ltac within_tac := cbv zeta; repeat first [solve [auto with within] | within_step].

Section Frame.
Context {E : Env}.

Abbreviation kept := (within same_settings dispatch_event).

Lemma kept_notify_progress_start_query (query_id : string)
    (progress_text : option string) :
  kept (_notify_progress_start_query query_id progress_text).
Proof.
  unfold _notify_progress_start_query. within_tac.
Qed.

Lemma kept_connectionError (callback : option string) (msg : string)
    (srv : server) :
  kept (_connectionError callback msg srv).
Proof. unfold _connectionError. within_tac. Qed.

Lemma kept_executeHTTPQuery (method path : string) (callback : option callback)
    (body : pybody) (ctx : context) (opts : options) (srv : server) :
  kept (_executeHTTPQuery method path callback body ctx opts srv).
Proof.
  unfold _executeHTTPQuery. pose proof kept_notify_progress_start_query.
  within_tac.
Qed.

Lemma kept_createHTTPQuery (method path : string) (callback : option string)
    (body : option pybody) (ctx : option context) (opts : options)
    (srv : server) :
  kept (createHTTPQuery method path callback body ctx opts srv).
Proof.
  unfold createHTTPQuery, _connect. pose proof kept_executeHTTPQuery.
  within_tac.
Qed.

Lemma kept_py_contains (k : string) (params : json) :
  kept (py_contains k params).
Proof. unfold py_contains. within_tac. Qed.

Lemma kept_py_getitem (params : json) (k : string) :
  kept (py_getitem params k).
Proof. unfold py_getitem. within_tac. Qed.

Lemma kept_py_json_loads (body : option string) : kept (py_json_loads body).
Proof. unfold py_json_loads. within_tac. Qed.

Lemma kept_callbackConnect (q : query) (params : json) (err : bool)
    (srv : server) :
  kept (_callbackConnect q params err srv).
Proof.
  unfold _callbackConnect.
  pose proof kept_connectionError. pose proof kept_executeHTTPQuery.
  pose proof kept_py_contains. pose proof kept_py_getitem.
  within_tac.
Qed.

Lemma kept_call (cb : callback) (params : json) (err : bool) (srv : server)
    (ctx : option context) (raw_body : option (option string)) :
  kept (call cb params err srv ctx raw_body).
Proof. unfold call. pose proof kept_callbackConnect. within_tac. Qed.

Lemma kept_processResponse_error (response : QNetworkReply) (srv : server)
    (callback : option callback) (ctx : context) (ignore_errors : bool) :
  within (fun c c' => same_settings c c') dispatch_event
    (_processResponse_error response srv callback ctx ignore_errors).
Proof.
  unfold _processResponse_error, close.
  pose proof kept_call. pose proof kept_py_json_loads. pose proof kept_py_getitem.
  within_tac.
Qed.

Lemma kept_processResponse_success (response : QNetworkReply) (srv : server)
    (callback : option callback) (ctx : context) :
  kept (_processResponse_success response srv callback ctx).
Proof.
  unfold _processResponse_success.
  pose proof kept_call. pose proof kept_py_json_loads.
  within_tac.
Qed.

Lemma kept_processResponse_bad_request (status : Z) (body : option string) :
  kept (_processResponse_bad_request status body).
Proof.
  unfold _processResponse_bad_request.
  pose proof kept_py_json_loads. pose proof kept_py_getitem.
  within_tac.
Qed.

(** The events of [_processResponse]: those of the dispatcher, and the two
    it starts with. *)
Definition completion_event (e : event) : Prop :=
  match e with
  | CloseRequestBody | RemoveQuery _ => True
  | _ => dispatch_event e
  end.

Lemma kept_processResponse (response : QNetworkReply) (srv : server)
    (callback : option callback) (ctx : context)
    (request_body : option QIODevice) (ignore_errors : bool) :
  within same_settings completion_event
    (_processResponse response srv callback ctx request_body ignore_errors).
Proof.
  unfold _processResponse, _notify_progress_end_query.
  assert (Hd : forall e, dispatch_event e -> completion_event e)
    by (intros []; simpl; tauto).
  pose proof (fun r s c x i =>
    within_weaken same_settings _ _ _ Hd (kept_processResponse_error r s c x i)).
  pose proof (fun r s c x =>
    within_weaken same_settings _ _ _ Hd (kept_processResponse_success r s c x)).
  pose proof (fun s b0 =>
    within_weaken same_settings _ _ _ Hd (kept_processResponse_bad_request s b0)).
  within_tac.
Qed.

(** X1: whatever the reply and the callback, the completion handler
    changes nothing of the client but the connected flag: protocol, host,
    port, credentials, certificate and progress callback stay, and so does
    the stream buffer, whose fragments outlive the query they belong
    to. *)
Theorem _processResponse_keeps_settings_and_buffer
    (response : QNetworkReply) (srv : server) (callback : option callback)
    (ctx : context) (request_body : option QIODevice) (ignore_errors : bool)
    (c : HTTPClient) :
  same_settings c
    (snd (fst (_processResponse response srv callback ctx request_body
                 ignore_errors c)))
  /\ forall (query_id fragment : string),
       _buffer c !! query_id = Some fragment ->
       _buffer (snd (fst (_processResponse response srv callback ctx
                            request_body ignore_errors c))) !! query_id
       = Some fragment.
Proof.
  destruct (kept_processResponse response srv callback ctx request_body
              ignore_errors c) as [Hc _].
  split; [exact Hc|]. intros query_id fragment Hq.
  destruct Hc as (_ & _ & _ & _ & _ & _ & Hb & _). now rewrite Hb.
Qed.
End Frame.

(** * The progress of a query *)

Definition is_started (e : event) : bool :=
  match e with AddQuery _ _ => true | _ => false end.
Definition is_ended (e : event) : bool :=
  match e with RemoveQuery _ => true | _ => false end.

(** The notifications of the start and of the end of a query in a
    trace. *)
Definition started (t : list event) : list event := List.filter is_started t.
Definition ended (t : list event) : list event := List.filter is_ended t.

Section Progress.
Context {E : Env}.

(** What [_processResponse] starts with. *)
Definition prelude_events (ctx : context) (request_body : option QIODevice)
    (c : HTTPClient) : list event :=
  match request_body with Some _ => [CloseRequestBody] | None => [] end
  ++ match ctx !! "query_id", _progress_callback c with
     | Some query_id, Some _ => [RemoveQuery query_id]
     | _, _ => []
     end.

Lemma _processResponse_prelude_events (ctx : context)
    (request_body : option QIODevice) (c : HTTPClient) :
  _processResponse_prelude ctx request_body c
  = (Ok tt, c, prelude_events ctx request_body c).
Proof.
  unfold _processResponse_prelude, _notify_progress_end_query, prelude_events.
  run_M.
  destruct request_body, (ctx !! "query_id"); simpl;
    destruct (_progress_callback c); reflexivity.
Qed.

(** [_processResponse] is its prelude, then events of the dispatcher. *)
Lemma _processResponse_events (response : QNetworkReply) (srv : server)
    (callback : option callback) (ctx : context)
    (request_body : option QIODevice) (ignore_errors : bool) (c : HTTPClient) :
  exists t : list event,
    snd (_processResponse response srv callback ctx request_body
           ignore_errors c)
    = prelude_events ctx request_body c ++ t
    /\ Forall dispatch_event t.
Proof.
  pose proof (_processResponse_prelude_events ctx request_body c) as Hpre.
  unfold _processResponse. rewrite <- bind_assoc.
  unfold _processResponse_prelude in Hpre.
  rewrite (run_bind _ _ _ _ _ _ Hpre).
  match goal with |- context [mbind ?f ?m c] =>
    assert (Hmain : within same_settings dispatch_event (mbind f m));
      [|destruct (Hmain c) as [_ Ht]; destruct (mbind f m c) as [[r c2] t2]]
  end.
  - pose proof (kept_processResponse_error response srv callback ctx).
    pose proof (kept_processResponse_success response srv callback ctx).
    pose proof kept_processResponse_bad_request.
    within_tac.
  - exists t2. split; [reflexivity | exact Ht].
Qed.

Lemma ended_dispatch (t : list event) : Forall dispatch_event t -> ended t = [].
Proof.
  induction 1 as [|e t He _ IH]; [reflexivity|].
  destruct e; simpl in *; try contradiction; exact IH.
Qed.

Lemma ended_app (t1 t2 : list event) : ended (t1 ++ t2) = ended t1 ++ ended t2.
Proof. apply List.filter_app. Qed.

Lemma started_app (t1 t2 : list event) :
  started (t1 ++ t2) = started t1 ++ started t2.
Proof. apply List.filter_app. Qed.

(** The text under which a query is shown: the progress text of the
    caller, or the one that names the server. *)
Definition progress_text_of (c : HTTPClient) (opts : options) : string :=
  match progressText opts with
  | Some (String x text) => String x text
  | _ => "Waiting for " +:+ url c
  end.

(** What [_executeHTTPQuery] registers behind the completion handler of
    the query [query_id]. *)
Definition registrations (c : HTTPClient) (query_id : string) (ctx : context)
    (opts : options) (srv : server) : list event :=
  match downloadProgressCallback opts with
  | Some d => [DownloadProgressConnect d ctx srv]
  | None => []
  end
  ++ (if showProgress opts
      then ProgressForward query_id
           :: match _progress_callback c with
              | Some _ => [AddQuery query_id (progress_text_of c opts)]
              | None => []
              end
      else [])
  ++ match timeout opts with
     | Some seconds => [SingleShot (seconds * 1000)]
     | None => []
     end.

(** All that [_executeHTTPQuery] does, in order. *)
Lemma _executeHTTPQuery_events (method path : string)
    (callback : option callback) (body : pybody) (ctx : context)
    (opts : options) (srv : server) (c : HTTPClient) :
  _executeHTTPQuery method path callback body ctx opts srv c
  = (Ok tt, set_uuid_calls (S (uuid_calls c)) c,
     SendCustomRequest method (fst (request_of c path body))
       (snd (request_of c path body))
     :: FinishedConnect
          {| p_server := srv; p_callback := callback;
             p_context := <["query_id" := uuid4 (uuid_calls c)]> ctx;
             p_body := snd (request_of c path body);
             p_ignore_errors := ignoreErrors opts |}
     :: registrations c (uuid4 (uuid_calls c))
          (<["query_id" := uuid4 (uuid_calls c)]> ctx) opts srv).
Proof.
  destruct (_executeHTTPQuery_run method path callback body ctx opts srv c)
    as (t & Hrun & _).
  assert (Ht : drop 2 (snd (_executeHTTPQuery method path callback body ctx
                              opts srv c))
               = registrations c (uuid4 (uuid_calls c))
                   (<["query_id" := uuid4 (uuid_calls c)]> ctx) opts srv).
  { unfold _executeHTTPQuery, _notify_progress_start_query, registrations,
      progress_text_of.
    run_M. destruct (_addBodyToRequest _ _) as [request body'].
    destruct opts as [dl show ign text tmo]; simpl.
    destruct dl, show, tmo; simpl;
      destruct (_progress_callback c); simpl;
      destruct text as [[|x text]|]; reflexivity. }
  rewrite Hrun in Ht. simpl in Ht. rewrite drop_0 in Ht. now rewrite Hrun, Ht.
Qed.

(** X2: once a progress callback is set, a query shown to the user is
    started in the progress display under its query id, with the progress
    text of the caller or, without one, the text that names the server;
    when its reply completes, whatever it is, [_processResponse] ends
    that query id in the progress display, once. *)
Theorem progress_query_is_started_and_ended (method path : string)
    (callback : option callback) (body : pybody) (ctx : context)
    (opts : options) (srv : server) (c : HTTPClient) (dialog : bool) :
  showProgress opts = true ->
  exists (c1 : HTTPClient) (sent : event) (p : pending) (t1 : list event),
    (setProgressCallback (Some dialog) ;;
     _executeHTTPQuery method path callback body ctx opts srv) c
    = (Ok tt, c1, sent :: FinishedConnect p :: t1)
    /\ started t1
       = [AddQuery (uuid4 (uuid_calls c))
            (match progressText opts with
             | Some (String x text) => String x text
             | _ => "Waiting for " +:+ url c
             end)]
    /\ forall (response : QNetworkReply) (c2 : HTTPClient),
         is_Some (_progress_callback c2) ->
         ended (snd (_processResponse response (p_server p) (p_callback p)
                       (p_context p) (p_body p) (p_ignore_errors p) c2))
         = [RemoveQuery (uuid4 (uuid_calls c))].
Proof.
  intros Hshow.
  assert (Hset : setProgressCallback (Some dialog) c
                 = (Ok tt, set_progress_callback (Some dialog) c, []))
    by reflexivity.
  rewrite (run_bind _ _ _ _ _ _ Hset), _executeHTTPQuery_events.
  eexists _, _, _, _. split; [reflexivity|]. split.
  - unfold registrations, progress_text_of. rewrite Hshow. simpl.
    destruct (downloadProgressCallback opts), (timeout opts); reflexivity.
  - intros response c2 [d Hc2]. simpl.
    destruct (_processResponse_events response srv callback
                (<["query_id" := uuid4 (uuid_calls c)]> ctx)
                (snd (request_of (set_progress_callback (Some dialog) c) path
                        body))
                (ignoreErrors opts) c2)
      as (t & -> & Ht).
    rewrite ended_app, (ended_dispatch t Ht), List.app_nil_r.
    unfold prelude_events. rewrite lookup_insert_eq, Hc2.
    destruct (snd (request_of _ path body)); reflexivity.
Qed.
End Progress.

(** * The headers and the body of a request *)

Section Requests.
Context {E : Env}.

(** [_addBodyToRequest] sets no header but the two of the content. *)
Lemma rawHeader_addBody (name : string) (body : pybody)
    (request : QNetworkRequest) :
  name ≠ "Content-Type" -> name ≠ "Content-Length" ->
  rawHeader name (rawHeaders (fst (_addBodyToRequest body request)))
  = rawHeader name (rawHeaders request).
Proof.
  intros Htype Hlength. destruct body; simpl; try reflexivity;
    rewrite ?rawHeader_set_header_other by congruence; reflexivity.
Qed.

(** The headers of a request before the body is added. *)
Lemma rawHeader_before_body (c : HTTPClient) (u name : string) :
  name ≠ "User-Agent" -> name ≠ "Authorization" ->
  rawHeader name
    (rawHeaders
       (setRawHeader "User-Agent"
          (utf8_encode ("GNS3 QT Client v" +:+ __version__))
          (_addAuth c (_request u)))) = None.
Proof.
  intros Hagent Hauth. simpl.
  rewrite rawHeader_set_header_other by congruence.
  unfold _addAuth. destruct (truthy (_user c)); [|reflexivity].
  unfold setRawHeader, rawHeaders.
  now rewrite rawHeader_set_header_other by congruence.
Qed.

(** The text that [_addAuth] encodes. *)
Definition credentials (c : HTTPClient) : option string :=
  match _user c with
  | Some (String x name) =>
      Some (String x name +:+ ":" +:+ default "None" (_password c))
  | _ => None
  end.

Lemma authorization_of_request (c : HTTPClient) (path : string)
    (body : pybody) :
  rawHeader "Authorization" (rawHeaders (fst (request_of c path body)))
  = (fun text => utf8_encode ("Basic " +:+ b64encode (utf8_encode text)))
    <$> credentials c.
Proof.
  unfold request_of. rewrite rawHeader_addBody by discriminate.
  simpl. rewrite rawHeader_set_header_other by discriminate.
  unfold _addAuth, credentials, truthy, format_opt.
  destruct (_user c) as [[|x name]|]; reflexivity.
Qed.

(** X3: every request carries the [User-Agent] of the client version; it
    carries an [Authorization] header exactly when a user name that is
    not empty is configured, and then the header is [Basic] and the
    base64 text of [user:password], a password that is missing being sent
    as the text [None]. *)
Theorem request_names_the_client_and_the_user (method path : string)
    (callback : option callback) (body : pybody) (ctx : context)
    (opts : options) (srv : server) (c : HTTPClient) :
  exists (request : QNetworkRequest) (body' : option QIODevice)
         (c' : HTTPClient) (t : list event),
    _executeHTTPQuery method path callback body ctx opts srv c
    = (Ok tt, c', SendCustomRequest method request body' :: t)
    /\ rawHeader "User-Agent" (rawHeaders request)
       = Some (utf8_encode ("GNS3 QT Client v" +:+ __version__))
    /\ rawHeader "Authorization" (rawHeaders request)
       = (fun text => utf8_encode ("Basic " +:+ b64encode (utf8_encode text)))
         <$> credentials c.
Proof.
  rewrite _executeHTTPQuery_events. eexists _, _, _, _.
  split; [reflexivity|]. split; [|apply authorization_of_request].
  unfold request_of. rewrite rawHeader_addBody by discriminate.
  apply rawHeader_set_header.
Qed.

(** The payload and the content headers by the kind of body. *)
Definition payload_by_kind (body : pybody) (request : QNetworkRequest)
    (body' : option QIODevice) : Prop :=
  let content_type := rawHeader "Content-Type" (rawHeaders request) in
  let content_length := rawHeader "Content-Length" (rawHeaders request) in
  match body with
  | BodyNone | BodyOther =>
      body' = None /\ content_type = None /\ content_length = None
  | BodyStr s =>
      body' = Some (QBuffer (utf8_encode s))
      /\ content_type = Some (b "application/octet-stream")
      /\ content_length = None
  | BodyPath file =>
      body' = Some (QFile file)
      /\ content_type = Some (b "application/octet-stream")
      /\ content_length = None
  | BodyDict d =>
      body' = Some (QBuffer (utf8_encode (json_dumps (JObj d))))
      /\ content_type = Some (b "application/json")
      /\ content_length
         = Some (utf8_encode (pretty (String.length (json_dumps (JObj d)))))
  end.

Lemma _addBodyToRequest_by_kind (body : pybody) (request : QNetworkRequest) :
  rawHeader "Content-Type" (rawHeaders request) = None ->
  rawHeader "Content-Length" (rawHeaders request) = None ->
  payload_by_kind body (fst (_addBodyToRequest body request))
    (snd (_addBodyToRequest body request)).
Proof.
  intros Htype Hlen. unfold payload_by_kind.
  destruct body; simpl; (split; [reflexivity|]);
    rewrite ?rawHeader_set_header, ?rawHeader_set_header_other by discriminate;
    rewrite ?rawHeader_set_header; auto.
Qed.

(** X4: the payload of a request by the kind of body.  A body that is
    [None], or of a type other than [dict], [pathlib.Path] and [str], is
    left out: the request goes without payload and without
    [Content-Type] and [Content-Length].  A [str] goes as its UTF-8
    bytes and a path as the file, both as [application/octet-stream] and
    without a [Content-Length] of the client; a [dict] goes as the bytes
    of its JSON text, as [application/json]. *)
Theorem request_payload_by_kind_of_body (method path : string)
    (callback : option callback) (body : pybody) (ctx : context)
    (opts : options) (srv : server) (c : HTTPClient) :
  exists (request : QNetworkRequest) (body' : option QIODevice)
         (c' : HTTPClient) (t : list event),
    _executeHTTPQuery method path callback body ctx opts srv c
    = (Ok tt, c', SendCustomRequest method request body' :: t)
    /\ let content_type := rawHeader "Content-Type" (rawHeaders request) in
       let content_length := rawHeader "Content-Length" (rawHeaders request) in
       match body with
       | BodyNone | BodyOther =>
           body' = None /\ content_type = None /\ content_length = None
       | BodyStr s =>
           body' = Some (QBuffer (utf8_encode s))
           /\ content_type = Some (b "application/octet-stream")
           /\ content_length = None
       | BodyPath file =>
           body' = Some (QFile file)
           /\ content_type = Some (b "application/octet-stream")
           /\ content_length = None
       | BodyDict d =>
           body' = Some (QBuffer (utf8_encode (json_dumps (JObj d))))
           /\ content_type = Some (b "application/json")
           /\ content_length
              = Some (utf8_encode (pretty (String.length (json_dumps (JObj d)))))
       end.
Proof.
  rewrite _executeHTTPQuery_events. eexists _, _, _, _.
  split; [reflexivity|]. unfold request_of.
  apply (_addBodyToRequest_by_kind body);
    apply rawHeader_before_body; discriminate.
Qed.

(** X5: the context bound to the completion handler of a query is the
    context of the caller with the entry [query_id] set to a UUID drawn
    for this query: an entry [query_id] of the caller is replaced, every
    other entry is passed on, and the download progress handler, when
    there is one, is bound to the same context. *)
Theorem query_context_carries_a_query_id (method path : string)
    (callback : option callback) (body : pybody) (ctx : context)
    (opts : options) (srv : server) (c : HTTPClient) :
  exists (sent : event) (p : pending) (c' : HTTPClient) (t : list event),
    _executeHTTPQuery method path callback body ctx opts srv c
    = (Ok tt, c', sent :: FinishedConnect p :: t)
    /\ p_callback p = callback /\ p_server p = srv
    /\ p_ignore_errors p = ignoreErrors opts
    /\ p_context p !! "query_id" = Some (uuid4 (uuid_calls c))
    /\ (forall k : string, k ≠ "query_id" -> p_context p !! k = ctx !! k)
    /\ uuid_calls c' = S (uuid_calls c)
    /\ (forall (d : string) (ctx' : context) (srv' : server),
          In (DownloadProgressConnect d ctx' srv') t <->
          downloadProgressCallback opts = Some d
          /\ ctx' = p_context p /\ srv' = srv).
Proof.
  rewrite _executeHTTPQuery_events. eexists _, _, _, _.
  split; [reflexivity|]. simpl.
  split; [reflexivity|]. split; [reflexivity|]. split; [reflexivity|].
  split; [apply lookup_insert_eq|].
  split; [intros k Hk; now apply lookup_insert_ne|].
  split; [reflexivity|].
  intros d ctx' srv'. unfold registrations. rewrite !List.in_app_iff. split.
  - intros [H | [H | H]].
    + destruct (downloadProgressCallback opts) as [d0|]; [|contradiction].
      destruct H as [[= -> -> ->]|[]]. auto.
    + destruct (showProgress opts); [|contradiction].
      destruct H as [H|H]; [discriminate H|].
      destruct (_progress_callback c); [|contradiction].
      destruct H as [H|[]]. discriminate H.
    + destruct (timeout opts); [|contradiction].
      destruct H as [H|[]]. discriminate H.
  - intros (Hd & -> & ->). left. rewrite Hd. now left.
Qed.
End Requests.

(** * The completion of a request *)

Section Completion.
Context {E : Env}.

Lemma callbacks_prelude_events (ctx : context)
    (request_body : option QIODevice) (c : HTTPClient) :
  callbacks (prelude_events ctx request_body c) = [].
Proof.
  unfold prelude_events.
  destruct request_body, (ctx !! "query_id"), (_progress_callback c);
    reflexivity.
Qed.

(** [_processResponse] is its prelude, then the classification, then the
    bad request. *)
Lemma _processResponse_split
    (response : QNetworkReply) (srv : server) (callback : option callback)
    (ctx : context) (request_body : option QIODevice) (ignore_errors : bool)
    (c : HTTPClient) :
  _processResponse response srv callback ctx request_body ignore_errors c
  = let '(r, c2, t2) :=
      ((if bool_decide (error response ≠ NoError)
        then _processResponse_error response srv callback ctx ignore_errors
        else _processResponse_success response srv callback ctx)
       ≫= (fun r => match r with
                    | None => ret tt
                    | Some (status, body) =>
                        _processResponse_bad_request status body
                    end)) c in
    (r, c2, prelude_events ctx request_body c ++ t2).
Proof.
  pose proof (_processResponse_prelude_events ctx request_body c) as Hpre.
  unfold _processResponse. rewrite <- bind_assoc.
  exact (run_bind _ _ _ _ _ _ Hpre).
Qed.

(** The result of [_processResponse] behind the classification: the bad
    request for the status 400. *)
Definition bad_request_or_return (response : QNetworkReply) : res unit :=
  if bool_decide (HttpStatusCodeAttribute response = 400)
  then Raise (HttpBadRequest (decoded_body response)
                (fingerprint_of (decoded_body response)))
  else Ok tt.

(** X6: a reply that failed at the transport level (an error code below
    200) ends the method without exception, even when the reply carries
    the status 400.  Unless [ignore_errors] is set the client is closed
    and the callback, when there is one, is called once with the error
    string of the transport; with [ignore_errors] set the failure is
    swallowed: the client is left as it is and nothing is called. *)
Theorem transport_failure_closes_unless_ignored
    (response : QNetworkReply) (srv : server) (callback : option string)
    (ctx : context) (request_body : option QIODevice) (ignore_errors : bool)
    (c : HTTPClient) :
  error response ≠ NoError ->
  error response < 200 ->
  exists t : list event,
    _processResponse response srv (UserCallback <$> callback) ctx request_body
      ignore_errors c
    = (Ok tt, if ignore_errors then c else set_connected false c, t)
    /\ callbacks t
       = match callback with
         | Some cb =>
             if ignore_errors then []
             else [Callback cb (message (errorString response)) true srv
                     (Some ctx) None]
         | None => []
         end.
Proof.
  intros Herr Hlow. rewrite _processResponse_split.
  rewrite (bool_decide_eq_true_2 _ Herr).
  assert (Hrun : _processResponse_error response srv (UserCallback <$> callback)
                   ctx ignore_errors c
                 = (Ok None, if ignore_errors then c else set_connected false c,
                    match callback with
                    | Some cb =>
                        if ignore_errors then []
                        else [Callback cb (message (errorString response)) true
                                srv (Some ctx) None]
                    | None => []
                    end)).
  { unfold _processResponse_error. rewrite (bool_decide_eq_true_2 _ Hlow).
    destruct ignore_errors, callback; reflexivity. }
  rewrite (run_bind _ _ _ _ _ _ Hrun). eexists. split; [reflexivity|].
  rewrite callbacks_app, callbacks_prelude_events.
  destruct callback, ignore_errors; reflexivity.
Qed.

(** X7: a reply with an HTTP-level error (an error code of 200 or more)
    never closes the client.  The callback is called once, with the error
    flag: with the decoded JSON body when the body is there, labelled
    [application/json] and JSON, and with the error string of the reply
    as message otherwise, also when a body labelled as JSON is not JSON.
    Then the method returns, or raises the bad request for the status
    400. *)
Theorem http_error_is_reported_and_keeps_the_connection
    (response : QNetworkReply) (srv : server) (cb : string) (ctx : context)
    (request_body : option QIODevice) (ignore_errors : bool) (c : HTTPClient) :
  200 <= error response ->
  exists (t : list event) (params : json),
    _processResponse response srv (Some (UserCallback cb)) ctx request_body
      ignore_errors c
    = (bad_request_or_return response, c, t)
    /\ callbacks t = [Callback cb params true srv (Some ctx) None]
    /\ (forall (x : ascii) (text : string) (v : json),
          decoded_body response = Some (String x text) ->
          is_json (ContentTypeHeader response) = true ->
          json_loads (String x text) = Some v -> params = v)
    /\ (decoded_body response = None \/ decoded_body response = Some ""
        \/ is_json (ContentTypeHeader response) = false
        \/ (exists text, decoded_body response = Some text
                         /\ json_loads text = None) ->
        params = message (errorString response)).
Proof.
  intros Hhigh. rewrite _processResponse_split.
  rewrite bool_decide_eq_true_2 by (unfold NoError; lia).
  rewrite (run_bind _ _ _ _ _ _
             (_processResponse_error_http response srv cb ctx ignore_errors c
                Hhigh)).
  rewrite _processResponse_bad_request_run.
  exists (prelude_events ctx request_body c
          ++ [Callback cb (error_params response) true srv (Some ctx) None] ++ []),
    (error_params response).
  split; [reflexivity|].
  split; [now rewrite callbacks_app, callbacks_prelude_events|].
  unfold error_params. split.
  - intros x text v Hbody Hjson Hloads. rewrite Hbody, Hjson. simpl.
    now rewrite Hloads.
  - intros [Hnone | [Hempty | [Hjson | (text & Hbody & Hloads)]]].
    + now rewrite Hnone.
    + now rewrite Hempty.
    + rewrite Hjson. now rewrite orb_true_r.
    + rewrite Hbody. simpl. rewrite Hloads.
      match goal with |- (if ?test then _ else _) = _ => destruct test end;
        reflexivity.
Qed.

(** X8: a reply with an HTTP-level error and no callback.  The method
    looks for the [message] of the JSON body to log it: it raises
    [TypeError] when the body is not UTF-8 text and when the body is JSON
    other than an object; a body that is not JSON and an object without
    [message] are passed over.  Nothing is called and the client is left
    as it is. *)
Theorem http_error_without_callback
    (response : QNetworkReply) (srv : server) (ctx : context)
    (request_body : option QIODevice) (ignore_errors : bool) (c : HTTPClient) :
  200 <= error response ->
  exists t : list event,
    _processResponse response srv None ctx request_body ignore_errors c
    = (match decoded_body response with
       | None => Raise TypeError
       | Some text =>
           match json_loads text with
           | Some (JObj _) | None => bad_request_or_return response
           | Some _ => Raise TypeError
           end
       end, c, t)
    /\ callbacks t = [].
Proof.
  intros Hhigh. rewrite _processResponse_split.
  rewrite bool_decide_eq_true_2 by (unfold NoError; lia).
  exists (prelude_events ctx request_body c ++ []).
  split; [|now rewrite callbacks_app, callbacks_prelude_events].
  unfold _processResponse_error. rewrite bool_decide_eq_false_2 by lia.
  fold (decoded_body response). unfold bad_request_or_return.
  pose proof (_processResponse_bad_request_run
                (HttpStatusCodeAttribute response) (decoded_body response) c)
    as Hbad.
  destruct (decoded_body response) as [text|]; [|reflexivity].
  unfold py_json_loads, py_getitem. run_M.
  destruct (json_loads text) as [[| | | | | |d]|]; try reflexivity.
  - destruct (dict_get "message" d); simpl; rewrite Hbad; reflexivity.
  - simpl. rewrite Hbad. reflexivity.
Qed.

(** X9: a reply without error whose body is not to be read as JSON (it
    is not UTF-8 text, or empty or blank, or not labelled
    [application/json]): the callback is called once with the empty
    mapping; below the status 400 without error flag and with the decoded
    body as [raw_body], which is [None] for a body that is not UTF-8
    text; from 400 on with the error flag.  The client is left as it
    is. *)
Theorem reply_without_json_gives_the_empty_mapping
    (response : QNetworkReply) (srv : server) (cb : string) (ctx : context)
    (request_body : option QIODevice) (ignore_errors : bool) (c : HTTPClient) :
  error response = NoError ->
  utf8_decode (readAll response) = None
  \/ is_json (ContentTypeHeader response) = false
  \/ (exists text, decoded_body response = Some text
                   /\ strip (String " " (String LF (String TAB ""))) text = "") ->
  exists t : list event,
    _processResponse response srv (Some (UserCallback cb)) ctx request_body
      ignore_errors c
    = (bad_request_or_return response, c, t)
    /\ callbacks t
       = [if bool_decide (400 ≤ HttpStatusCodeAttribute response)
          then Callback cb (JObj []) true srv (Some ctx) None
          else Callback cb (JObj []) false srv (Some ctx)
                 (Some (decoded_body response))]
    /\ (utf8_decode (readAll response) = None -> decoded_body response = None).
Proof.
  intros Herr Hwhy.
  assert (Hexp : json_expected response = false).
  { unfold json_expected.
    destruct Hwhy as [Hnone | [Hjson | (text & Hbody & Hblank)]].
    - unfold decoded_body. now rewrite Hnone.
    - rewrite Hjson. apply andb_false_r.
    - rewrite Hbody. simpl default. rewrite Hblank. simpl.
      now rewrite andb_false_r. }
  rewrite _processResponse_split.
  rewrite bool_decide_eq_false_2 by (intros H; now apply H).
  assert (Hok : ~ garbled_success response).
  { intros (_ & H & _). congruence. }
  rewrite (run_bind _ _ _ _ _ _
             (_processResponse_success_run response srv cb ctx c Hok Herr)).
  rewrite _processResponse_bad_request_run.
  eexists. split; [reflexivity|].
  rewrite callbacks_app, callbacks_prelude_events.
  unfold success_params. rewrite Hexp. split.
  - destruct (bool_decide (400 ≤ HttpStatusCodeAttribute response)); reflexivity.
  - intros Hnone. unfold decoded_body. now rewrite Hnone.
Qed.
End Completion.

Section Handshakes.
Context {E : Env}.

(** An answer to [/version] that the handshake accepts. *)
Definition accepted_answer (params : json) : Prop :=
  exists (d : dict) (sv : string),
    params = JObj d
    /\ dict_get "version" d = Some (JStr sv)
    /\ dict_has "local" d = true
    /\ (sv = __version__
        \/ exists stable : Z,
             __version_info__ !! 3%nat = Some stable /\ stable ≠ 0
             /\ take 2 (parse_version __version__) = take 2 (parse_version sv)).

(** X10: the handshake connects a client only on an answer without error
    flag that is an object with the fields [version] and [local], whose
    version is a string, and is the version of the client or, on a build
    that is not stable, has its first two parsed components.  On any
    other answer (an error, a value that is not an object, a missing
    field, a refused version) the client stays not connected, whether the
    method returns or raises. *)
Theorem handshake_connects_only_on_an_accepted_answer (q : query)
    (params : json) (err : bool) (srv : server) (c : HTTPClient) :
  _connected c = false ->
  _connected (snd (fst (_callbackConnect q params err srv c))) = true ->
  err = false /\ accepted_answer params.
Proof.
  intros Hc. unfold _callbackConnect, _connectionError, py_contains, py_getitem.
  run_M.
  destruct err; [destruct (q_callback q); simpl; congruence|].
  destruct params as [| | | |s|l|d]; simpl; try congruence.
  - destruct (contains "version" s); simpl;
      [|destruct (q_callback q); simpl; congruence].
    destruct (contains "local" s); simpl;
      destruct (q_callback q); simpl; congruence.
  - destruct (existsb _ l); simpl;
      [|destruct (q_callback q); simpl; congruence].
    destruct (existsb _ l); simpl;
      destruct (q_callback q); simpl; congruence.
  - destruct (dict_has "version" d) eqn:Hv; simpl;
      [|destruct (q_callback q); simpl; congruence].
    destruct (dict_has "local" d) eqn:Hl; simpl;
      [|destruct (q_callback q); simpl; congruence].
    unfold dict_has in Hv.
    destruct (dict_get "version" d) as [v|] eqn:Hgv; [|discriminate].
    simpl. intros Hconn. split; [reflexivity|].
    destruct (py_ne_str v __version__) eqn:Hne; simpl in Hconn.
    + destruct (__version_info__ !! 3%nat) as [stable|] eqn:Hinfo;
        simpl in Hconn; [|congruence].
      destruct (bool_decide (stable = 0)) eqn:Hstable; simpl in Hconn;
        [destruct (q_callback q); simpl in Hconn; congruence|].
      destruct v as [| | | |sv| |]; simpl in Hconn; try congruence.
      destruct (bool_decide (take 2 (parse_version __version__)
                             ≠ take 2 (parse_version sv))) eqn:Hdiff;
        simpl in Hconn;
        [destruct (q_callback q); simpl in Hconn; congruence|].
      exists d, sv. repeat split; auto. right. exists stable.
      apply bool_decide_eq_false_1 in Hstable, Hdiff.
      repeat split; auto.
      destruct (decide (take 2 (parse_version __version__)
                        = take 2 (parse_version sv))); [auto | contradiction].
    + destruct v as [| | | |sv| |]; try discriminate Hne.
      simpl in Hne. apply negb_false_iff, String.eqb_eq in Hne. subst sv.
      exists d, __version__. repeat split; auto.
Qed.

(** The query that [createHTTPQuery] holds back on a client that is not
    connected. *)
Definition held_query (method path : string) (callback : option string)
    (body : option pybody) (ctx : option context) (opts : options)
    (srv : server) : query :=
  {| q_method := method; q_path := path; q_callback := callback;
     q_body := default (BodyDict []) body; q_context := default ∅ ctx;
     q_options := opts; q_server := srv |}.

(** The options of the request for [/version]. *)
Definition version_options : options :=
  {| downloadProgressCallback := None; showProgress := true;
     ignoreErrors := false; progressText := None; timeout := Some 5 |}.

Lemma createHTTPQuery_not_connected (method path : string)
    (callback : option string) (body : option pybody) (ctx : option context)
    (opts : options) (srv : server) (c : HTTPClient) :
  _connected c = false ->
  createHTTPQuery method path callback body ctx opts srv c
  = _executeHTTPQuery "GET" "/version"
      (Some (ConnectCallback
               (held_query method path callback body ctx opts srv)))
      (BodyDict []) ∅ version_options srv c.
Proof.
  intros Hc. unfold createHTTPQuery, _connect. run_M. rewrite Hc.
  fold (held_query method path callback body ctx opts srv). fold version_options.
  now destruct (_executeHTTPQuery _ _ _ _ _ _ _ c) as [[r c2] t2].
Qed.

(** The handshake on an answer of the version of the client: the client
    is connected and the held query is executed. *)
Lemma _callbackConnect_same_version (q : query) (d : dict) (srv : server)
    (c : HTTPClient) :
  dict_get "version" d = Some (JStr __version__) ->
  dict_has "local" d = true ->
  _callbackConnect q (JObj d) false srv c
  = let '(r, c2, t2) :=
      _executeHTTPQuery (q_method q) (q_path q) (UserCallback <$> q_callback q)
        (q_body q) (q_context q) (q_options q) srv (set_connected true c) in
    (r, c2, ConnectionConnected :: t2).
Proof.
  intros Hversion Hlocal.
  unfold _callbackConnect, py_contains, py_getitem, dict_has.
  unfold dict_has in Hlocal. rewrite Hversion.
  destruct (dict_get "local" d); [|discriminate].
  run_M. simpl. rewrite String.eqb_refl. simpl.
  now destruct (_executeHTTPQuery _ _ _ _ _ _ _ _) as [[r c2] t2].
Qed.

(** X11: a query on a client that is not connected, and then the answer
    to [/version].  The query is held back behind the request for
    [/version]; when the reply to that comes without error, below the
    status 400, labelled as JSON, and its body decodes to an object with
    the version of the client and the field [local], the completion
    handler connects the client and sends the held query, with the
    method, the path and the body of the caller, under a query id of its
    own; the callback of the caller is not called by the handshake. *)
Theorem answered_handshake_sends_the_held_query (method path : string)
    (cb : string) (body : pybody) (ctx : context) (opts : options)
    (srv : server) (c : HTTPClient) (response : QNetworkReply)
    (text : string) (d : dict) :
  _connected c = false ->
  error response = NoError ->
  HttpStatusCodeAttribute response < 400 ->
  json_expected response = true ->
  decoded_body response = Some text ->
  json_loads text = Some (JObj d) ->
  dict_get "version" d = Some (JStr __version__) ->
  dict_has "local" d = true ->
  exists (c1 c2 : HTTPClient) (bootstrap : event) (p p2 : pending)
         (t1 t2 : list event),
    createHTTPQuery method path (Some cb) (Some body) (Some ctx) opts srv c
    = (Ok tt, c1, bootstrap :: FinishedConnect p :: t1)
    /\ requests (bootstrap :: FinishedConnect p :: t1) = [bootstrap]
    /\ _connected c1 = false
    /\ _processResponse response (p_server p) (p_callback p) (p_context p)
         (p_body p) (p_ignore_errors p) c1
       = (Ok tt, c2, t2)
    /\ _connected c2 = true
    /\ callbacks t2 = []
    /\ requests t2
       = [SendCustomRequest method (fst (request_of c path body))
            (snd (request_of c path body))]
    /\ In (FinishedConnect p2) t2
    /\ p_callback p2 = Some (UserCallback cb)
    /\ p_context p2 = <["query_id" := uuid4 (S (uuid_calls c))]> ctx.
Proof.
  intros Hc Herr Hstatus Hexp Hbody Hloads Hversion Hlocal.
  rewrite (createHTTPQuery_not_connected _ _ _ _ _ _ _ _ Hc).
  rewrite _executeHTTPQuery_events.
  set (q := held_query method path (Some cb) (Some body) (Some ctx) opts srv).
  set (c1 := set_uuid_calls (S (uuid_calls c)) c).
  set (p := {| p_server := srv; p_callback := Some (ConnectCallback q);
               p_context := <["query_id" := uuid4 (uuid_calls c)]> ∅;
               p_body := snd (request_of c "/version" (BodyDict []));
               p_ignore_errors := ignoreErrors version_options |}).
  pose proof (_callbackConnect_same_version q d srv c1 Hversion Hlocal) as Hrun.
  rewrite _executeHTTPQuery_events in Hrun. cbv beta iota zeta in Hrun.
  set (p2 := {| p_server := srv; p_callback := Some (UserCallback cb);
                p_context := <["query_id" := uuid4 (S (uuid_calls c))]> ctx;
                p_body := snd (request_of c path body);
                p_ignore_errors := ignoreErrors opts |}).
  set (t := registrations (set_connected true c1) (uuid4 (S (uuid_calls c)))
              (<["query_id" := uuid4 (S (uuid_calls c))]> ctx) opts srv) in *.
  assert (Hcall : callbacks t = [] /\ requests t = []).
  { subst t. unfold registrations.
    destruct (downloadProgressCallback opts), (showProgress opts),
      (_progress_callback (set_connected true c1)), (timeout opts);
      split; reflexivity. }
  assert (Hsuccess :
    _processResponse_success response srv (Some (ConnectCallback q))
      (p_context p) c1
    = (Ok (Some (HttpStatusCodeAttribute response, decoded_body response)),
       set_uuid_calls (S (S (uuid_calls c))) (set_connected true c1),
       ConnectionConnected
       :: SendCustomRequest method (fst (request_of c path body))
            (snd (request_of c path body))
       :: FinishedConnect p2 :: t)).
  { unfold _processResponse_success. fold (decoded_body response).
    fold (json_expected response). rewrite Hexp, Hbody.
    unfold py_json_loads. rewrite Hloads. run_M.
    rewrite bool_decide_eq_false_2 by lia. unfold call. rewrite Hrun.
    rewrite List.app_nil_r. reflexivity. }
  exists c1, (set_uuid_calls (S (S (uuid_calls c))) (set_connected true c1)),
    (SendCustomRequest "GET" (fst (request_of c "/version" (BodyDict [])))
       (snd (request_of c "/version" (BodyDict [])))),
    p, p2,
    (registrations c (uuid4 (uuid_calls c))
       (<["query_id" := uuid4 (uuid_calls c)]> ∅) version_options srv),
    (prelude_events (p_context p) (p_body p) c1
     ++ (ConnectionConnected
         :: SendCustomRequest method (fst (request_of c path body))
              (snd (request_of c path body))
         :: FinishedConnect p2 :: t) ++ []).
  split; [reflexivity|].
  split.
  { unfold registrations, version_options. simpl.
    destruct (_progress_callback c); reflexivity. }
  split; [exact Hc|]. split.
  { rewrite _processResponse_split.
    rewrite bool_decide_eq_false_2 by (intros H; now apply H).
    change (p_server p) with srv.
    change (p_callback p) with (Some (ConnectCallback q)).
    rewrite (run_bind _ _ _ _ _ _ Hsuccess).
    rewrite _processResponse_bad_request_run.
    now rewrite bool_decide_eq_false_2 by lia. }
  split; [reflexivity|].
  destruct Hcall as [Hcalls Hreqs].
  split.
  { rewrite callbacks_app, callbacks_prelude_events, List.app_nil_r. simpl.
    exact Hcalls. }
  split.
  { rewrite requests_app, List.app_nil_r. simpl. rewrite Hreqs.
    unfold prelude_events. simpl. rewrite lookup_insert_eq.
    destruct (_progress_callback c); reflexivity. }
  split; [|split; reflexivity].
  apply List.in_or_app. right. simpl. auto.
Qed.
Definition is_connected_signal (e : event) : bool :=
  match e with ConnectionConnected => true | _ => false end.
Definition is_finished_connect (e : event) : bool :=
  match e with FinishedConnect _ => true | _ => false end.

(** The events of a query handed to the network manager. *)
Definition query_events (q : query) (srv : server) (c : HTTPClient)
  : list event :=
  SendCustomRequest (q_method q) (fst (request_of c (q_path q) (q_body q)))
    (snd (request_of c (q_path q) (q_body q)))
  :: FinishedConnect
       {| p_server := srv; p_callback := UserCallback <$> q_callback q;
          p_context := <["query_id" := uuid4 (uuid_calls c)]> (q_context q);
          p_body := snd (request_of c (q_path q) (q_body q));
          p_ignore_errors := ignoreErrors (q_options q) |}
  :: registrations c (uuid4 (uuid_calls c))
       (<["query_id" := uuid4 (uuid_calls c)]> (q_context q)) (q_options q) srv.

Lemma registrations_quiet (c : HTTPClient) (query_id : string) (ctx : context)
    (opts : options) (srv : server) :
  requests (registrations c query_id ctx opts srv) = []
  /\ callbacks (registrations c query_id ctx opts srv) = []
  /\ List.filter is_connected_signal (registrations c query_id ctx opts srv) = []
  /\ List.filter is_finished_connect (registrations c query_id ctx opts srv) = [].
Proof.
  unfold registrations.
  destruct (downloadProgressCallback opts), (showProgress opts),
    (_progress_callback c), (timeout opts); repeat split.
Qed.

Lemma prelude_events_quiet (ctx : context) (request_body : option QIODevice)
    (c : HTTPClient) :
  requests (prelude_events ctx request_body c) = []
  /\ callbacks (prelude_events ctx request_body c) = []
  /\ List.filter is_connected_signal (prelude_events ctx request_body c) = [].
Proof.
  unfold prelude_events.
  destruct request_body, (ctx !! "query_id"), (_progress_callback c);
    repeat split.
Qed.

(** The completion of the request for [/version] on an answer of the
    version of the client. *)
Lemma _processResponse_answered (q : query) (response : QNetworkReply)
    (text : string) (d : dict) (srv : server) (ctx : context)
    (request_body : option QIODevice) (ignore_errors : bool) (c : HTTPClient) :
  error response = NoError ->
  HttpStatusCodeAttribute response < 400 ->
  json_expected response = true ->
  decoded_body response = Some text ->
  json_loads text = Some (JObj d) ->
  dict_get "version" d = Some (JStr __version__) ->
  dict_has "local" d = true ->
  _processResponse response srv (Some (ConnectCallback q)) ctx request_body
    ignore_errors c
  = (Ok tt, set_uuid_calls (S (uuid_calls c)) (set_connected true c),
     prelude_events ctx request_body c
     ++ ConnectionConnected :: query_events q srv (set_connected true c)).
Proof.
  intros Herr Hstatus Hexp Hbody Hloads Hversion Hlocal.
  pose proof (_callbackConnect_same_version q d srv c Hversion Hlocal) as Hrun.
  rewrite _executeHTTPQuery_events in Hrun. cbv beta iota zeta in Hrun.
  assert (Hsuccess :
    _processResponse_success response srv (Some (ConnectCallback q)) ctx c
    = (Ok (Some (HttpStatusCodeAttribute response, Some text)),
       set_uuid_calls (S (uuid_calls c)) (set_connected true c),
       ConnectionConnected :: query_events q srv (set_connected true c))).
  { unfold _processResponse_success. fold (decoded_body response).
    fold (json_expected response). rewrite Hexp, Hbody.
    unfold py_json_loads. rewrite Hloads. run_M.
    rewrite bool_decide_eq_false_2 by lia. unfold call. rewrite Hrun.
    rewrite List.app_nil_r. reflexivity. }
  rewrite _processResponse_split.
  rewrite bool_decide_eq_false_2 by (intros H; now apply H).
  rewrite (run_bind _ _ _ _ _ _ Hsuccess).
  rewrite _processResponse_bad_request_run.
  rewrite bool_decide_eq_false_2 by lia. now rewrite List.app_nil_r.
Qed.

(** X12: every query on a client that is not connected does a handshake
    of its own.  Two queries made before any answer send two requests for
    [/version] and leave the client not connected; when the two answers
    come, of the version of the client, the first connects the client and
    sends the first query, and the second, on the client that is
    connected by then, signals the connection again and sends the second
    query.  No callback of the caller is called. *)
Theorem every_held_query_does_its_own_handshake
    (method1 path1 cb1 method2 path2 cb2 : string) (body1 body2 : pybody)
    (ctx1 ctx2 : context) (opts1 opts2 : options) (srv : server)
    (c : HTTPClient) (response : QNetworkReply) (text : string) (d : dict) :
  _connected c = false ->
  error response = NoError ->
  HttpStatusCodeAttribute response < 400 ->
  json_expected response = true ->
  decoded_body response = Some text ->
  json_loads text = Some (JObj d) ->
  dict_get "version" d = Some (JStr __version__) ->
  dict_has "local" d = true ->
  exists (c2 : HTTPClient) (p1 p2 : pending) (t12 : list event),
    (createHTTPQuery method1 path1 (Some cb1) (Some body1) (Some ctx1) opts1 srv ;;
     createHTTPQuery method2 path2 (Some cb2) (Some body2) (Some ctx2) opts2 srv)
      c
    = (Ok tt, c2, t12)
    /\ _connected c2 = false
    /\ requests t12
       = [SendCustomRequest "GET" (fst (request_of c "/version" (BodyDict [])))
            (snd (request_of c "/version" (BodyDict [])));
          SendCustomRequest "GET" (fst (request_of c "/version" (BodyDict [])))
            (snd (request_of c "/version" (BodyDict [])))]
    /\ List.filter is_finished_connect t12
       = [FinishedConnect p1; FinishedConnect p2]
    /\ exists (c4 : HTTPClient) (t34 : list event),
         (_processResponse response (p_server p1) (p_callback p1) (p_context p1)
            (p_body p1) (p_ignore_errors p1) ;;
          _processResponse response (p_server p2) (p_callback p2) (p_context p2)
            (p_body p2) (p_ignore_errors p2)) c2
         = (Ok tt, c4, t34)
         /\ _connected c4 = true
         /\ callbacks t34 = []
         /\ List.filter is_connected_signal t34
            = [ConnectionConnected; ConnectionConnected]
         /\ requests t34
            = [SendCustomRequest method1 (fst (request_of c path1 body1))
                 (snd (request_of c path1 body1));
               SendCustomRequest method2 (fst (request_of c path2 body2))
                 (snd (request_of c path2 body2))].
Proof.
  intros Hc Herr Hstatus Hexp Hbody Hloads Hversion Hlocal.
  set (q1 := held_query method1 path1 (Some cb1) (Some body1) (Some ctx1) opts1 srv).
  set (q2 := held_query method2 path2 (Some cb2) (Some body2) (Some ctx2) opts2 srv).
  pose proof (createHTTPQuery_not_connected method1 path1 (Some cb1) (Some body1)
                (Some ctx1) opts1 srv c Hc) as Hfirst.
  rewrite _executeHTTPQuery_events in Hfirst. fold q1 in Hfirst.
  set (c1 := set_uuid_calls (S (uuid_calls c)) c) in *.
  pose proof (createHTTPQuery_not_connected method2 path2 (Some cb2) (Some body2)
                (Some ctx2) opts2 srv c1 Hc) as Hsecond.
  rewrite _executeHTTPQuery_events in Hsecond. fold q2 in Hsecond.
  set (c2 := set_uuid_calls (S (uuid_calls c1)) c1) in *.
  rewrite (run_bind _ _ _ _ _ _ Hfirst), Hsecond. clear Hfirst Hsecond.
  destruct (registrations_quiet c (uuid4 (uuid_calls c))
              (<["query_id" := uuid4 (uuid_calls c)]> ∅) version_options srv)
    as (Hr1 & _ & _ & Hf1).
  destruct (registrations_quiet c1 (uuid4 (uuid_calls c1))
              (<["query_id" := uuid4 (uuid_calls c1)]> ∅) version_options srv)
    as (Hr2 & _ & _ & Hf2).
  generalize dependent (registrations c (uuid4 (uuid_calls c))
              (<["query_id" := uuid4 (uuid_calls c)]> ∅) version_options srv).
  generalize dependent (registrations c1 (uuid4 (uuid_calls c1))
              (<["query_id" := uuid4 (uuid_calls c1)]> ∅) version_options srv).
  intros l2 Hr2 Hf2 l1 Hr1 Hf1.
  eexists c2, _, _, _. split; [reflexivity|]. split; [exact Hc|].
  split.
  { simpl. rewrite requests_app, Hr1. simpl. now rewrite Hr2. }
  split.
  { simpl. rewrite List.filter_app, Hf1. simpl. now rewrite Hf2. }
  simpl p_server. simpl p_callback. simpl p_context. simpl p_body.
  simpl p_ignore_errors.
  pose proof (fun q ctx rb c0 =>
    _processResponse_answered q response text d srv ctx rb false c0
      Herr Hstatus Hexp Hbody Hloads Hversion Hlocal) as Hanswer.
  rewrite (run_bind _ _ _ _ _ _ (Hanswer q1 _ _ c2)), Hanswer. clear Hanswer.
  eexists _, _. split; [reflexivity|]. split; [reflexivity|].
  unfold query_events.
  repeat match goal with
  | |- context [prelude_events ?x ?rb ?c0] =>
      destruct (prelude_events_quiet x rb c0) as (? & ? & ?);
      generalize dependent (prelude_events x rb c0); intros
  | |- context [registrations ?c0 ?i ?x ?o ?s] =>
      destruct (registrations_quiet c0 i x o s) as (? & ? & ? & _);
      generalize dependent (registrations c0 i x o s); intros
  end.
  rewrite !callbacks_app, !requests_app, !List.filter_app. simpl.
  repeat match goal with H : _ = [] |- _ => rewrite H; clear H end.
  repeat split.
Qed.

(** The message of [_connectionError] without additional message. *)
Definition cannot_connect (c : HTTPClient) : json :=
  message ("Cannot connect to " +:+ url c +:+
           ". Please check if GNS3 is allowed in your antivirus and firewall.").

(** X13: the reply to [/version] comes with an error, of the transport
    or of HTTP.  The callback of the held query is called once, with the
    error flag and the message that the client cannot connect to its URL
    and that antivirus and firewall are to be checked: the error string
    of the reply and the server of the query are not passed on.  The
    held query is not sent and the client stays not connected; after a
    failure of the transport the method returns. *)
Theorem failed_handshake_reports_that_it_cannot_connect (q : query)
    (cb : string) (response : QNetworkReply) (srv : server) (ctx : context)
    (request_body : option QIODevice) (c : HTTPClient) :
  q_callback q = Some cb ->
  error response ≠ NoError ->
  _connected c = false ->
  exists (r : res unit) (c' : HTTPClient) (t : list event),
    _processResponse response srv (Some (ConnectCallback q)) ctx request_body
      false c
    = (r, c', t)
    /\ callbacks t = [Callback cb (cannot_connect c) true None None None]
    /\ requests t = []
    /\ _connected c' = false
    /\ (error response < 200 -> r = Ok tt)
    /\ (200 <= error response -> r = bad_request_or_return response).
Proof.
  intros Hcb Herr Hc. rewrite _processResponse_split.
  rewrite (bool_decide_eq_true_2 _ Herr).
  assert (Hpre : requests (prelude_events ctx request_body c) = []).
  { unfold prelude_events.
    destruct request_body, (ctx !! "query_id"), (_progress_callback c);
      reflexivity. }
  destruct (decide (error response < 200)) as [Hlow|Hhigh].
  - assert (Hrun : _processResponse_error response srv
                     (Some (ConnectCallback q)) ctx false c
                   = (Ok None, set_connected false c,
                      [Callback cb (cannot_connect c) true None None None])).
    { unfold _processResponse_error. rewrite (bool_decide_eq_true_2 _ Hlow).
      unfold call. run_M. simpl. unfold _connectionError. rewrite Hcb.
      reflexivity. }
    rewrite (run_bind _ _ _ _ _ _ Hrun). eexists _, _, _.
    split; [reflexivity|].
    rewrite callbacks_app, requests_app, callbacks_prelude_events, Hpre.
    repeat split; auto. intros H. lia.
  - assert (Hrun : _processResponse_error response srv
                     (Some (ConnectCallback q)) ctx false c
                   = (Ok (Some (HttpStatusCodeAttribute response,
                                decoded_body response)), c,
                      [Callback cb (cannot_connect c) true None None None])).
    { unfold _processResponse_error. rewrite (bool_decide_eq_false_2 _ Hhigh).
      fold (decoded_body response). unfold call, py_json_loads. run_M.
      destruct (decoded_body response) as [[|x text]|];
        [simpl; unfold _connectionError; rewrite Hcb; reflexivity |
        |simpl; unfold _connectionError; rewrite Hcb; reflexivity].
      destruct (is_json (ContentTypeHeader response));
        [|simpl; unfold _connectionError; rewrite Hcb; reflexivity].
      simpl. destruct (json_loads (String x text)); simpl;
        unfold _connectionError; rewrite Hcb; reflexivity. }
    rewrite (run_bind _ _ _ _ _ _ Hrun). rewrite _processResponse_bad_request_run.
    eexists _, _, _. split; [reflexivity|].
    rewrite callbacks_app, requests_app, callbacks_prelude_events, Hpre.
    repeat split; auto. intros H. lia.
Qed.

(** X14: with a callback of the caller, [_processResponse] calls it once
    or not at all, whatever the reply, and not at all in two cases only:
    a reply without error whose body, labelled as JSON and not blank, is
    not JSON, and a failure of the transport with [ignore_errors]
    set. *)
Theorem callback_is_called_once_or_never
    (response : QNetworkReply) (srv : server) (cb : string) (ctx : context)
    (request_body : option QIODevice) (ignore_errors : bool) (c : HTTPClient) :
  let t := snd (_processResponse response srv (Some (UserCallback cb)) ctx
                  request_body ignore_errors c) in
  (callbacks t = []
   \/ exists (params : json) (err : bool) (raw : option (option string)),
        callbacks t = [Callback cb params err srv (Some ctx) raw])
  /\ (callbacks t = []
      <-> garbled_success response
          \/ (error response ≠ NoError /\ error response < 200
              /\ ignore_errors = true)).
Proof.
  intros t. subst t.
  destruct (decide (error response = NoError)) as [Herr|Herr].
  - assert (Hdec : garbled_success response \/ ~ garbled_success response).
    { unfold garbled_success, json_expected, py_json_loads.
      destruct (decoded_body response) as [text|];
        [|right; intros (_ & H & _); discriminate H].
      destruct (json_loads text).
      - right. intros (_ & _ & H).
        apply (f_equal (fun m => fst (fst (m c)))) in H. discriminate H.
      - destruct (truthy (Some text) && _ && _);
          [left; auto | right; intros (_ & H & _); discriminate H]. }
    destruct Hdec as [Hg|Hg].
    + destruct (_processResponse_garbled_success response srv
                  (Some (UserCallback cb)) ctx request_body ignore_errors c Hg)
        as (t & -> & Ht). simpl. rewrite Ht. split; [now left|].
      split; [now left | reflexivity].
    + destruct (_processResponse_http response srv cb ctx request_body
                  ignore_errors c (or_introl Herr) Hg)
        as (t & err & raw & -> & Ht & _). simpl. rewrite Ht.
      split; [right; eauto|]. split; [discriminate|].
      intros [H | (H & _)]; contradiction.
  - assert (Hg : ~ garbled_success response) by (intros (H & _); contradiction).
    destruct (decide (error response < 200)) as [Hlow|Hhigh].
    + rewrite _processResponse_split. rewrite (bool_decide_eq_true_2 _ Herr).
      destruct ignore_errors.
      * rewrite (run_bind _ _ _ _ _ _
                   (_processResponse_error_ignored response srv _ ctx c Hlow)).
        simpl. rewrite callbacks_app, callbacks_prelude_events. simpl.
        split; [now left|]. split; [auto | reflexivity].
      * rewrite (run_bind _ _ _ _ _ _
                   (_processResponse_error_transport response srv cb ctx c Hlow)).
        simpl. rewrite callbacks_app, callbacks_prelude_events. simpl.
        split; [right; eauto|]. split; [discriminate|].
        intros [H | (_ & _ & H)]; [contradiction | discriminate H].
    + destruct (_processResponse_http response srv cb ctx request_body
                  ignore_errors c) as (t & err & raw & -> & Ht & _);
        [right; lia | exact Hg |].
      simpl. rewrite Ht. split; [right; eauto|]. split; [discriminate|].
      intros [H | (_ & H & _)]; [contradiction | lia].
Qed.
End Handshakes.

(** * Setters, [close] and a query *)

Section Setters.
Context {E : Env}.

(** X15: [setHost], [setPort] and [setPassword] change the address and
    the password and nothing else: on a connected client the next query
    goes to the new address at once, with the new password in its
    credentials, without a handshake with the new server, and the client
    stays connected. *)
Theorem query_after_setHost_goes_to_the_new_address (h : string) (p : Z)
    (pw : option string) (method path : string) (callback : option string)
    (body : option pybody) (ctx : option context) (opts : options)
    (srv : server) (c : HTTPClient) :
  _connected c = true ->
  exists (request : QNetworkRequest) (body' : option QIODevice)
         (c' : HTTPClient) (t : list event),
    (setHost h ;; setPort p ;; setPassword pw ;;
     createHTTPQuery method path callback body ctx opts srv) c
    = (Ok tt, c', SendCustomRequest method request body' :: t)
    /\ requests t = []
    /\ _connected c' = true
    /\ url c' = _protocol c +:+ "://" +:+ h +:+ ":" +:+ pretty p
    /\ req_url request = url_of (set_port p (set_host h c)) path
    /\ (is_ipv6 (rsplit1_head "%" h) = false -> truthy (_user c) = false ->
        req_url request = url c' +:+ "/v2" +:+ path)
    /\ rawHeader "Authorization" (rawHeaders request)
       = (fun text => utf8_encode ("Basic " +:+ b64encode (utf8_encode text)))
         <$> match _user c with
             | Some (String x name) =>
                 Some (String x name +:+ ":" +:+ default "None" pw)
             | _ => None
             end.
Proof.
  intros Hc. unfold setHost, setPort, setPassword, createHTTPQuery. run_M. simpl.
  rewrite Hc.
  destruct (_executeHTTPQuery_run method path (UserCallback <$> callback)
              (default (BodyDict []) body) (default ∅ ctx) opts srv
              (set_password pw (set_port p (set_host h c))))
    as (t & -> & _ & Hreq).
  eexists _, _, _, _. split; [reflexivity|]. split; [exact Hreq|].
  split; [exact Hc|]. split; [reflexivity|].
  split; [rewrite req_url_request_of; reflexivity|]. split.
  - intros Hip Huser. rewrite req_url_request_of.
    unfold url_of, url_host, url. simpl. rewrite Hip, Huser.
    now rewrite app_nil_l, !app_assoc.
  - apply authorization_of_request.
Qed.

(** X16: [createHTTPQuery] always returns, and before any answer: it
    hands one request to the network manager, the query itself on a
    connected client and the request for [/version] otherwise, binds one
    completion handler, calls no callback, and leaves the connected flag
    and the settings of the client as they are. *)
Theorem createHTTPQuery_sends_one_request_and_calls_nothing
    (method path : string) (callback : option string) (body : option pybody)
    (ctx : option context) (opts : options) (srv : server) (c : HTTPClient) :
  exists (request : QNetworkRequest) (body' : option QIODevice) (p : pending)
         (c' : HTTPClient) (t : list event),
    createHTTPQuery method path callback body ctx opts srv c
    = (Ok tt, c',
       SendCustomRequest (if _connected c then method else "GET") request body'
       :: FinishedConnect p :: t)
    /\ req_url request = url_of c (if _connected c then path else "/version")
    /\ requests t = [] /\ callbacks t = []
    /\ List.filter is_finished_connect t = []
    /\ _connected c' = _connected c
    /\ same_settings c c'.
Proof.
  destruct (_connected c) eqn:Hc.
  - unfold createHTTPQuery. run_M. rewrite Hc. rewrite _executeHTTPQuery_events.
    eexists _, _, _, _, _. split; [reflexivity|].
    split; [apply req_url_request_of|].
    destruct (registrations_quiet c (uuid4 (uuid_calls c))
                (<["query_id" := uuid4 (uuid_calls c)]> (default ∅ ctx)) opts srv)
      as (Hreq & Hcb & _ & Hfin).
    repeat split; auto.
  - rewrite (createHTTPQuery_not_connected _ _ _ _ _ _ _ _ Hc).
    rewrite _executeHTTPQuery_events.
    eexists _, _, _, _, _. split; [reflexivity|].
    split; [apply req_url_request_of|].
    destruct (registrations_quiet c (uuid4 (uuid_calls c))
                (<["query_id" := uuid4 (uuid_calls c)]> ∅) version_options srv)
      as (Hreq & Hcb & _ & Hfin).
    repeat split; auto.
Qed.

(** X17: a query after [close] is not sent: the client asks for
    [/version] first, with the empty mapping as body and a timer of five
    seconds, and binds the query as it was given (the body defaulting to
    the empty mapping) to the completion of that request; the client
    stays not connected. *)
Theorem query_after_close_starts_with_the_handshake (method path : string)
    (callback : option string) (body : option pybody) (ctx : option context)
    (opts : options) (srv : server) (c : HTTPClient) :
  exists (request : QNetworkRequest) (p : pending) (c' : HTTPClient)
         (t : list event),
    (close ;; createHTTPQuery method path callback body ctx opts srv) c
    = (Ok tt, c',
       SendCustomRequest "GET" request
         (Some (QBuffer (utf8_encode (json_dumps (JObj [])))))
       :: FinishedConnect p :: t)
    /\ requests t = []
    /\ req_url request = url_of c "/version"
    /\ In (SingleShot 5000) t
    /\ p_callback p
       = Some (ConnectCallback
                 {| q_method := method; q_path := path; q_callback := callback;
                    q_body := default (BodyDict []) body;
                    q_context := default ∅ ctx; q_options := opts;
                    q_server := srv |})
    /\ _connected c' = false.
Proof.
  assert (Hrun : close c = (Ok tt, set_connected false c, [])) by reflexivity.
  rewrite (run_bind _ _ _ _ _ _ Hrun).
  rewrite createHTTPQuery_not_connected by reflexivity.
  rewrite _executeHTTPQuery_events.
  eexists _, _, _, _. split; [reflexivity|].
  split.
  { unfold registrations, version_options. simpl.
    destruct (_progress_callback c); reflexivity. }
  split; [rewrite req_url_request_of; reflexivity|].
  split; [|split; reflexivity].
  unfold registrations, version_options. simpl.
  destruct (_progress_callback c); simpl; auto.
Qed.
End Setters.

(** * Steps of the streaming decoder *)

Definition is_cancel_connect (e : event) : bool :=
  match e with CanceledConnect _ => true | _ => false end.

Section Steps.
Context {E : Env}.

(** What a step does behind its answers: it connects the cancel handler
    when a progress dialog is there. *)
Definition cancel_connect (ctx : context) (c : HTTPClient) : list event :=
  if bool_decide (_progress_callback c = Some true)
  then [CanceledConnect ctx] else [].

(** All that a step does on a chunk that it decodes. *)
Lemma _processDownloadProgress_events (response : QNetworkReply)
    (text : string) (callback : string) (ctx : context) (srv : server)
    (c : HTTPClient) (query_id : string) (answers : list json) (rest : string) :
  decoder_progress ->
  decodes response text ->
  ctx !! "query_id" = Some query_id ->
  scans (default "" (_buffer c !! query_id) +:+ text) answers rest ->
  _processDownloadProgress response callback ctx srv c
  = (Ok tt, set_buffer (<[query_id := rest]> (_buffer c)) c,
     answered callback srv ctx answers ++ cancel_connect ctx c).
Proof.
  intros Hprog (Herr & Hstatus & Hjson & Htext) Hq Hs.
  pose proof (scans_length _ _ _ Hprog Hs) as Hlen.
  unfold _processDownloadProgress, cancel_connect.
  rewrite bool_decide_eq_false_2 by (intros H; now apply H).
  rewrite bool_decide_eq_false_2 by lia.
  rewrite Hjson, Htext, Hq. run_M.
  assert (Hcontent :
    match _buffer c !! query_id with
    | Some buffered => buffered +:+ text
    | None => text
    end = default "" (_buffer c !! query_id) +:+ text).
  { destruct (_buffer c !! query_id); reflexivity. }
  rewrite Hcontent.
  rewrite (decode_loop_scans _ _ _ _ _ _ Hs) by lia.
  simpl. destruct (bool_decide (_progress_callback c = Some true)); simpl;
    now rewrite ?List.app_nil_r.
Qed.

(** X18: a chunk that the decoder does not decode.  The chunk of a reply
    with an error or with a status of 300 or more is dropped: nothing is
    called, nothing is connected.  A chunk under another content type
    than [application/json] is passed to the download callback once, as
    the bytes received, whatever they are.  In both cases the buffer is
    left as it is. *)
Theorem chunk_that_is_not_decoded (response : QNetworkReply)
    (callback : string) (ctx : context) (srv : server) (c : HTTPClient) :
  (error response ≠ NoError \/ 300 <= HttpStatusCodeAttribute response ->
   _processDownloadProgress response callback ctx srv c = (Ok tt, c, []))
  /\ (error response = NoError -> HttpStatusCodeAttribute response < 300 ->
      is_json (ContentTypeHeader response) = false ->
      _processDownloadProgress response callback ctx srv c
      = (Ok tt, c,
         DownloadCallback callback (inr (readAll response)) srv ctx
         :: cancel_connect ctx c)).
Proof.
  unfold _processDownloadProgress, cancel_connect. split.
  - intros [Herr|Hstatus].
    + now rewrite (bool_decide_eq_true_2 _ Herr).
    + destruct (bool_decide (error response ≠ NoError)); [reflexivity|].
      now rewrite (bool_decide_eq_true_2 _ Hstatus).
  - intros Herr Hstatus Hjson.
    rewrite bool_decide_eq_false_2 by (intros H; now apply H).
    rewrite bool_decide_eq_false_2 by lia. rewrite Hjson. run_M. simpl.
    now destruct (bool_decide (_progress_callback c = Some true)).
Qed.

Lemma set_buffer_set_buffer (b1 b2 : gmap string string) (c : HTTPClient) :
  set_buffer b2 (set_buffer b1 c) = set_buffer b2 c.
Proof. reflexivity. Qed.

(** X19: the steps of two queries do not interfere.  Two chunks that are
    decoded, for different query ids, can be processed in either order:
    each step calls its callback with the answers it would give on its
    own, and the client ends with the same buffer, holding the fragment
    of each query under its id. *)
Theorem steps_of_different_queries_commute
    (response1 response2 : QNetworkReply) (text1 text2 : string)
    (callback1 callback2 : string) (ctx1 ctx2 : context) (srv1 srv2 : server)
    (query_id1 query_id2 : string) (c : HTTPClient) :
  decoder_progress ->
  decodes response1 text1 -> decodes response2 text2 ->
  ctx1 !! "query_id" = Some query_id1 ->
  ctx2 !! "query_id" = Some query_id2 ->
  query_id1 ≠ query_id2 ->
  exists (c1 c2 c' : HTTPClient) (t1 t2 : list event),
    _processDownloadProgress response1 callback1 ctx1 srv1 c = (Ok tt, c1, t1)
    /\ _processDownloadProgress response2 callback2 ctx2 srv2 c = (Ok tt, c2, t2)
    /\ (_processDownloadProgress response1 callback1 ctx1 srv1 ;;
        _processDownloadProgress response2 callback2 ctx2 srv2) c
       = (Ok tt, c', t1 ++ t2)
    /\ (_processDownloadProgress response2 callback2 ctx2 srv2 ;;
        _processDownloadProgress response1 callback1 ctx1 srv1) c
       = (Ok tt, c', t2 ++ t1)
    /\ _buffer c' !! query_id1 = _buffer c1 !! query_id1
    /\ _buffer c' !! query_id2 = _buffer c2 !! query_id2.
Proof.
  intros Hprog Hd1 Hd2 Hq1 Hq2 Hne.
  destruct (scans_total (default "" (_buffer c !! query_id1) +:+ text1) Hprog)
    as (answers1 & rest1 & Hs1).
  destruct (scans_total (default "" (_buffer c !! query_id2) +:+ text2) Hprog)
    as (answers2 & rest2 & Hs2).
  pose proof (_processDownloadProgress_events response1 text1 callback1 ctx1
                srv1 c query_id1 answers1 rest1 Hprog Hd1 Hq1 Hs1) as Hrun1.
  pose proof (_processDownloadProgress_events response2 text2 callback2 ctx2
                srv2 c query_id2 answers2 rest2 Hprog Hd2 Hq2 Hs2) as Hrun2.
  set (c1 := set_buffer (<[query_id1 := rest1]> (_buffer c)) c) in *.
  set (c2 := set_buffer (<[query_id2 := rest2]> (_buffer c)) c) in *.
  assert (Hs12 : scans (default "" (_buffer c1 !! query_id2) +:+ text2)
                   answers2 rest2).
  { subst c1. simpl. now rewrite lookup_insert_ne. }
  assert (Hs21 : scans (default "" (_buffer c2 !! query_id1) +:+ text1)
                   answers1 rest1).
  { subst c2. simpl. now rewrite lookup_insert_ne. }
  pose proof (_processDownloadProgress_events response2 text2 callback2 ctx2
                srv2 c1 query_id2 answers2 rest2 Hprog Hd2 Hq2 Hs12) as Hrun12.
  pose proof (_processDownloadProgress_events response1 text1 callback1 ctx1
                srv1 c2 query_id1 answers1 rest1 Hprog Hd1 Hq1 Hs21) as Hrun21.
  exists c1, c2,
    (set_buffer (<[query_id2 := rest2]> (<[query_id1 := rest1]> (_buffer c))) c),
    (answered callback1 srv1 ctx1 answers1 ++ cancel_connect ctx1 c),
    (answered callback2 srv2 ctx2 answers2 ++ cancel_connect ctx2 c).
  split; [exact Hrun1|]. split; [exact Hrun2|]. split; [|split; [|split]].
  - rewrite (run_bind _ _ _ _ _ _ Hrun1), Hrun12. reflexivity.
  - rewrite (run_bind _ _ _ _ _ _ Hrun2), Hrun21. subst c2. simpl.
    rewrite set_buffer_set_buffer.
    now rewrite (insert_insert_ne (_buffer c) query_id1 query_id2) by auto.
  - simpl. rewrite lookup_insert_ne by auto. reflexivity.
  - simpl. now rewrite !lookup_insert_eq.
Qed.

(** X20: with a progress dialog, every chunk that is decoded connects
    the cancel handler of the dialog once more: after the chunks of a
    reply there are as many connections as chunks. *)
Theorem every_chunk_connects_the_cancel_handler
    (chunks : list QNetworkReply) (texts : list string) (callback : string)
    (ctx : context) (srv : server) (query_id : string) (c : HTTPClient) :
  decoder_progress ->
  Forall2 decodes chunks texts ->
  ctx !! "query_id" = Some query_id ->
  _progress_callback c = Some true ->
  exists (c' : HTTPClient) (t : list event),
    deliver chunks callback ctx srv c = (Ok tt, c', t)
    /\ List.filter is_cancel_connect t
       = repeat (CanceledConnect ctx) (length chunks).
Proof.
  intros Hprog Hchunks Hq. revert c.
  induction Hchunks as [|chunk text chunks texts Hd _ IH]; intros c Hdialog.
  - exists c, []. split; reflexivity.
  - destruct (scans_total (default "" (_buffer c !! query_id) +:+ text) Hprog)
      as (answers & rest & Hs).
    pose proof (_processDownloadProgress_events chunk text callback ctx srv c
                  query_id answers rest Hprog Hd Hq Hs) as Hrun.
    destruct (IH (set_buffer (<[query_id := rest]> (_buffer c)) c) Hdialog)
      as (c' & t & Hrest & Ht).
    exists c', ((answered callback srv ctx answers ++ cancel_connect ctx c) ++ t).
    split.
    + simpl. rewrite (run_bind _ _ _ _ _ _ Hrun), Hrest. reflexivity.
    + rewrite !List.filter_app, Ht. unfold cancel_connect.
      rewrite (bool_decide_eq_true_2 _ Hdialog). simpl.
      assert (Hnone : List.filter is_cancel_connect
                        (answered callback srv ctx answers) = []).
      { clear. induction answers as [|a l IHl]; [reflexivity | exact IHl]. }
      now rewrite Hnone.
Qed.
End Steps.

(** * Examples of the further properties *)

(** A client with a progress callback and its dialog. *)
Definition shown_client : HTTPClient :=
  set_progress_callback (Some true) a_client.

Lemma progress_query_is_started_and_ended_witness :
  exists (c1 : HTTPClient) (sent : event) (p : pending) (t1 : list event),
    (setProgressCallback (Some true) ;;
     @_executeHTTPQuery dev_env "GET" "/projects"
       (Some (UserCallback "callback")) BodyNone ∅ default_options None)
      a_client
    = (Ok tt, c1, sent :: FinishedConnect p :: t1)
    /\ started t1
       = [AddQuery (PyRef.uuid4 1) "Waiting for http://127.0.0.1:3080"]
    /\ forall (response : QNetworkReply) (c2 : HTTPClient),
         is_Some (_progress_callback c2) ->
         ended (snd (@_processResponse dev_env response (p_server p)
                       (p_callback p) (p_context p) (p_body p)
                       (p_ignore_errors p) c2))
         = [RemoveQuery (PyRef.uuid4 1)].
Proof.
  exact (@progress_query_is_started_and_ended dev_env "GET" "/projects"
           (Some (UserCallback "callback")) BodyNone ∅ default_options None
           a_client true eq_refl).
Defined.

Lemma transport_failure_closes_unless_ignored_witness :
  (exists t : list event,
     @_processResponse dev_env connection_refused None
       (Some (UserCallback "callback")) a_context None true a_client
     = (Ok tt, a_client, t)
     /\ callbacks t = [])
  /\ (exists t : list event,
        @_processResponse dev_env connection_refused None None a_context None
          false a_client
        = (Ok tt, set_connected false a_client, t)
        /\ callbacks t = []).
Proof.
  split.
  - apply (@transport_failure_closes_unless_ignored dev_env connection_refused
             None (Some "callback") a_context None true a_client);
      [discriminate | reflexivity].
  - apply (@transport_failure_closes_unless_ignored dev_env connection_refused
             None None a_context None false a_client);
      [discriminate | reflexivity].
Defined.

(** 404 with a JSON body, reported by Qt as ContentNotFoundError *)
Definition not_found_reply : QNetworkReply :=
  {| error := 203;
     errorString := "Error transferring - server replied: Not Found";
     HttpStatusCodeAttribute := 404;
     readAll := b ("{" +:+ quoted "message" +:+ ": "
                   +:+ quoted "Project not found" +:+ "}");
     ContentTypeHeader := Some "application/json" |}.

Lemma http_error_is_reported_and_keeps_the_connection_witness :
  exists t : list event,
    @_processResponse dev_env not_found_reply None
      (Some (UserCallback "callback")) a_context None false a_client
    = (Ok tt, a_client, t)
    /\ callbacks t
       = [Callback "callback" (JObj [("message", JStr "Project not found")])
            true None (Some a_context) None].
Proof.
  destruct (@http_error_is_reported_and_keeps_the_connection dev_env
              not_found_reply None "callback" a_context None false a_client)
    as (t & params & Hrun & Hcb & Hjson & _); [vm_compute; discriminate|].
  exists t. split; [exact Hrun|]. rewrite Hcb.
  now rewrite (Hjson _ _ (JObj [("message", JStr "Project not found")])
                 eq_refl eq_refl eq_refl).
Defined.

(** 500 with a body that is not UTF-8, reported by Qt as
    InternalServerError *)
Definition server_error_reply : QNetworkReply :=
  {| error := 401;
     errorString := "Error transferring - server replied: Internal Server Error";
     HttpStatusCodeAttribute := 500; readAll := [Byte.xff];
     ContentTypeHeader := None |}.

Lemma http_error_without_callback_witness :
  exists t : list event,
    @_processResponse dev_env server_error_reply None None a_context None false
      a_client
    = (Raise TypeError, a_client, t)
    /\ callbacks t = [].
Proof.
  apply (@http_error_without_callback dev_env server_error_reply None a_context
           None false a_client).
  vm_compute. discriminate.
Defined.

(** 204 *)
Definition no_content_reply : QNetworkReply :=
  {| error := NoError; errorString := "Unknown error";
     HttpStatusCodeAttribute := 204; readAll := [];
     ContentTypeHeader := None |}.

Lemma reply_without_json_gives_the_empty_mapping_witness :
  exists t : list event,
    @_processResponse dev_env no_content_reply None
      (Some (UserCallback "callback")) a_context None false a_client
    = (Ok tt, a_client, t)
    /\ callbacks t
       = [Callback "callback" (JObj []) false None (Some a_context)
            (Some (Some ""))].
Proof.
  destruct (@reply_without_json_gives_the_empty_mapping dev_env no_content_reply
              None "callback" a_context None false a_client eq_refl)
    as (t & Hrun & Hcb & _); [right; left; reflexivity|].
  exists t. split; [exact Hrun | exact Hcb].
Defined.

Lemma handshake_connects_only_on_an_accepted_answer_witness :
  false = false
  /\ @accepted_answer dev_env (JObj (version_body "2.1.0dev1")).
Proof.
  apply (@handshake_connects_only_on_an_accepted_answer dev_env a_query
           (JObj (version_body "2.1.0dev1")) false None disconnected);
    reflexivity.
Defined.

(** The text of [version_reply]. *)
Definition version_text : string :=
  "{" +:+ quoted "version" +:+ ": " +:+ quoted "2.1.0dev1" +:+ ", "
  +:+ quoted "local" +:+ ": true}".

Lemma answered_handshake_sends_the_held_query_witness :
  exists (c1 c2 : HTTPClient) (bootstrap : event) (p : pending)
         (t1 t2 : list event),
    @createHTTPQuery dev_env "POST" "/projects" (Some "callback")
      (Some (BodyDict [("name", JStr "lab")])) (Some ∅) default_options None
      disconnected
    = (Ok tt, c1, bootstrap :: FinishedConnect p :: t1)
    /\ @_processResponse dev_env version_reply (p_server p) (p_callback p)
         (p_context p) (p_body p) (p_ignore_errors p) c1
       = (Ok tt, c2, t2)
    /\ _connected c2 = true
    /\ callbacks t2 = []
    /\ requests t2
       = [SendCustomRequest "POST"
            (fst (@request_of dev_env disconnected "/projects"
                    (BodyDict [("name", JStr "lab")])))
            (snd (@request_of dev_env disconnected "/projects"
                    (BodyDict [("name", JStr "lab")])))].
Proof.
  destruct (@answered_handshake_sends_the_held_query dev_env "POST" "/projects"
              "callback" (BodyDict [("name", JStr "lab")]) ∅ default_options
              None disconnected version_reply version_text
              (version_body "2.1.0dev1")
              eq_refl eq_refl eq_refl eq_refl eq_refl eq_refl eq_refl eq_refl)
    as (c1 & c2 & bootstrap & p & p2 & t1 & t2 & Hq & _ & _ & Hrun & Hc2 & Hcb
        & Hreq & _).
  exists c1, c2, bootstrap, p, t1, t2. auto.
Defined.

Lemma every_held_query_does_its_own_handshake_witness :
  exists (c2 : HTTPClient) (p1 p2 : pending) (t12 : list event),
    (@createHTTPQuery dev_env "GET" "/projects" (Some "projects")
       (Some BodyNone) (Some ∅) default_options None ;;
     @createHTTPQuery dev_env "GET" "/computes" (Some "computes")
       (Some BodyNone) (Some ∅) default_options None) disconnected
    = (Ok tt, c2, t12)
    /\ _connected c2 = false
    /\ exists (c4 : HTTPClient) (t34 : list event),
         (@_processResponse dev_env version_reply (p_server p1) (p_callback p1)
            (p_context p1) (p_body p1) (p_ignore_errors p1) ;;
          @_processResponse dev_env version_reply (p_server p2) (p_callback p2)
            (p_context p2) (p_body p2) (p_ignore_errors p2)) c2
         = (Ok tt, c4, t34)
         /\ _connected c4 = true
         /\ List.filter is_connected_signal t34
            = [ConnectionConnected; ConnectionConnected].
Proof.
  destruct (@every_held_query_does_its_own_handshake dev_env
              "GET" "/projects" "projects" "GET" "/computes" "computes"
              BodyNone BodyNone ∅ ∅ default_options default_options None
              disconnected version_reply version_text (version_body "2.1.0dev1")
              eq_refl eq_refl eq_refl eq_refl eq_refl eq_refl eq_refl eq_refl)
    as (c2 & p1 & p2 & t12 & Hrun & Hc2 & _ & _ & c4 & t34 & Hrun' & Hc4 & _
        & Hsig & _).
  exists c2, p1, p2, t12. split; [exact Hrun|]. split; [exact Hc2|].
  exists c4, t34. auto.
Defined.

Lemma failed_handshake_reports_that_it_cannot_connect_witness :
  exists (c' : HTTPClient) (t : list event),
    @_processResponse dev_env connection_refused None
      (Some (ConnectCallback a_query)) a_context None false disconnected
    = (Ok tt, c', t)
    /\ callbacks t
       = [Callback "callback"
            (message
               ("Cannot connect to http://127.0.0.1:3080. Please check if GNS3 "
                +:+ "is allowed in your antivirus and firewall."))
            true None None None]
    /\ requests t = []
    /\ _connected c' = false.
Proof.
  destruct (@failed_handshake_reports_that_it_cannot_connect dev_env a_query
              "callback" connection_refused None a_context None disconnected
              eq_refl)
    as (r & c' & t & Hrun & Hcb & Hreq & Hc & Hlow & _);
    [discriminate | reflexivity |].
  exists c', t. rewrite Hrun, (Hlow eq_refl). auto.
Defined.

Lemma query_after_setHost_goes_to_the_new_address_witness :
  exists (request : QNetworkRequest) (body' : option QIODevice)
         (c' : HTTPClient) (t : list event),
    (setHost "10.0.0.2" ;; setPort 3081 ;; setPassword (Some "secret") ;;
     @createHTTPQuery dev_env "GET" "/projects" (Some "callback") (Some BodyNone)
       None default_options None) a_client
    = (Ok tt, c', SendCustomRequest "GET" request body' :: t)
    /\ requests t = []
    /\ _connected c' = true
    /\ req_url request = "http://10.0.0.2:3081/v2/projects".
Proof.
  destruct (@query_after_setHost_goes_to_the_new_address dev_env "10.0.0.2"
              3081 (Some "secret") "GET" "/projects" (Some "callback")
              (Some BodyNone) None default_options None a_client eq_refl)
    as (request & body' & c' & t & Hrun & Hreq & Hc & _ & Hurl & _).
  exists request, body', c', t. rewrite Hurl. auto.
Defined.

Lemma chunk_that_is_not_decoded_witness :
  @_processDownloadProgress dev_env connection_refused "download" a_context
    None a_client = (Ok tt, a_client, [])
  /\ @_processDownloadProgress dev_env
       {| error := NoError; errorString := "Unknown error";
          HttpStatusCodeAttribute := 200; readAll := [Byte.xff; Byte.x00];
          ContentTypeHeader := Some "application/octet-stream" |}
       "download" a_context None a_client
     = (Ok tt, a_client,
        [DownloadCallback "download" (inr [Byte.xff; Byte.x00]) None a_context]).
Proof.
  split.
  - apply (@chunk_that_is_not_decoded dev_env connection_refused). left.
    discriminate.
  - apply (@chunk_that_is_not_decoded dev_env); reflexivity.
Defined.

(** The context of a second query. *)
Definition another_context : context := {["query_id" := PyRef.uuid4 1]}.

Lemma steps_of_different_queries_commute_witness :
  exists (c' : HTTPClient) (t1 t2 : list event),
    (@_processDownloadProgress dev_env (json_chunk (b "{} [1")) "first"
       a_context None ;;
     @_processDownloadProgress dev_env (json_chunk (b "[2] {")) "second"
       another_context None) a_client
    = (Ok tt, c', t1 ++ t2)
    /\ (@_processDownloadProgress dev_env (json_chunk (b "[2] {")) "second"
          another_context None ;;
        @_processDownloadProgress dev_env (json_chunk (b "{} [1")) "first"
          a_context None) a_client
       = (Ok tt, c', t2 ++ t1).
Proof.
  destruct (@steps_of_different_queries_commute dev_env
              (json_chunk (b "{} [1")) (json_chunk (b "[2] {")) "{} [1" "[2] {"
              "first" "second" a_context another_context None None
              (PyRef.uuid4 0) (PyRef.uuid4 1) a_client
              (PyRefFacts.raw_decode_progress _ _))
    as (c1 & c2 & c' & t1 & t2 & _ & _ & H12 & H21 & _);
    try (repeat split; reflexivity); [vm_compute; discriminate|].
  exists c', t1, t2. auto.
Defined.

Lemma every_chunk_connects_the_cancel_handler_witness :
  exists (c' : HTTPClient) (t : list event),
    @deliver dev_env [json_chunk (b "{} [1"); json_chunk (b ", 2]")] "download"
      a_context None shown_client
    = (Ok tt, c', t)
    /\ List.filter is_cancel_connect t
       = [CanceledConnect a_context; CanceledConnect a_context].
Proof.
  apply (@every_chunk_connects_the_cancel_handler dev_env
           [json_chunk (b "{} [1"); json_chunk (b ", 2]")] ["{} [1"; ", 2]"]
           "download" a_context None (PyRef.uuid4 0) shown_client).
  - apply PyRefFacts.raw_decode_progress.
  - repeat constructor.
  - reflexivity.
  - reflexivity.
Defined.
